(** * Trajectory viewer (senf/trajectory-viewer/app.js): embedding and properties

    The viewer loads two navigation logs, derives Euler angles, position
    errors and summary statistics from them, plays the test trajectory back
    in a 3D scene with a chase camera, and keeps a bounded undo history of
    the zoom state of every chart.

    JavaScript numbers are IEEE 754 binary64 values; they are embedded as
    Rocq's primitive floats, whose operations are the same binary64
    operations, so that [NaN], the infinities and rounding behave as they do
    in the program.  Functions of the host whose results ECMAScript leaves to
    the implementation ([Math.atan2], [Math.asin], [Math.cos]) and the two
    number/string conversions ([parseFloat], [Number.prototype.toFixed]) are
    an interface the development is parametric in.  Strings are sequences
    of code units below 256. *)

From Stdlib Require Import ZArith List Bool Ascii String Floats Lia.
From stdpp Require Import gmap strings list.

Set Warnings "-inexact-float".

(* ===================================================================== *)
(** ** JavaScript numbers *)
(* ===================================================================== *)

(** [a > b], [a >= b] of the source, on numbers. *)
Definition gtb (a b : float) : bool := PrimFloat.ltb b a.
Definition geb (a b : float) : bool := PrimFloat.leb b a.

(** [x ** 2]. *)
Definition sq (x : float) : float := PrimFloat.mul x x.

(** A number that is neither [NaN] nor an infinity. *)
Definition is_number (x : float) : bool :=
  negb (PrimFloat.is_nan x) && negb (PrimFloat.is_infinity x).

Definition is_neg_zero (x : float) : bool :=
  match PrimFloat.classify x with NZero => true | _ => false end.

(** The number of an array length or of an integer index. *)
Definition of_Z (z : Z) : float :=
  if (z <? 0)%Z then PrimFloat.opp (PrimFloat.of_uint63 (Uint63.of_Z (- z)))
  else PrimFloat.of_uint63 (Uint63.of_Z z).

Definition of_nat (n : nat) : float := of_Z (Z.of_nat n).

(** The implementation-approximated functions of the host's [Math]
    object and the host's conversions between numbers and strings. *)
Class Host := {
  host_atan2 : float -> float -> float;
  host_asin : float -> float;
  host_cos : float -> float;
  parseFloat : string -> float;
  toFixed : float -> nat -> string
}.

Module Math.

Definition PI : float := 3.141592653589793%float.

Definition abs (x : float) : float := PrimFloat.abs x.

Definition sqrt (x : float) : float := PrimFloat.sqrt x.

(** [Math.sign]: [NaN], the zeros unchanged, otherwise [1] or [-1]. *)
Definition sign (x : float) : float :=
  if PrimFloat.is_nan x then nan
  else if PrimFloat.ltb 0 x then 1%float
  else if PrimFloat.ltb x 0 then (-1)%float
  else x.

(** [Math.max] and [Math.min] of two numbers: [NaN] as soon as one
    argument is [NaN]; [+0] counts as larger than [-0]. *)
Definition max (a b : float) : float :=
  if PrimFloat.is_nan a || PrimFloat.is_nan b then nan
  else if PrimFloat.ltb a b then b
  else if PrimFloat.ltb b a then a
  else if is_neg_zero a then b else a.

Definition min (a b : float) : float :=
  if PrimFloat.is_nan a || PrimFloat.is_nan b then nan
  else if PrimFloat.ltb a b then a
  else if PrimFloat.ltb b a then b
  else if is_neg_zero a then a else b.

(** [Math.max(...arr)] and [Math.min(...arr)]: the empty spread gives
    [-Infinity] and [+Infinity]. *)
Definition max_of (arr : list float) : float :=
  fold_left max arr neg_infinity.

Definition min_of (arr : list float) : float :=
  fold_left min arr infinity.

Definition atan2 `{Host} : float -> float -> float := host_atan2.
Definition asin `{Host} : float -> float := host_asin.
Definition cos `{Host} : float -> float := host_cos.

End Math.

(** A host on which the definitions can be run: [parseFloat] reads an
    optionally signed run of decimal digits (and is [NaN] when there is
    none), the trigonometric functions are low-order polynomials and
    [toFixed] only tells [NaN] from a number.  It only serves concrete
    evaluations; every theorem holds for every host. *)
Module SampleHost.

Definition digit (c : ascii) : option Z :=
  let n := Z.of_N (Ascii.N_of_ascii c) in
  if ((48 <=? n) && (n <=? 57))%Z then Some (n - 48)%Z else None.

Fixpoint digits (s : string) (acc : option Z) : option Z :=
  match s with
  | EmptyString => acc
  | String c r =>
      match digit c with
      | Some d => digits r (Some (10 * default 0%Z acc + d)%Z)
      | None => acc
      end
  end.

Definition parse (s : string) : float :=
  match s with
  | String "-"%char r =>
      match digits r None with
      | Some z => PrimFloat.opp (of_Z z)
      | None => nan
      end
  | _ => match digits s None with Some z => of_Z z | None => nan end
  end.

Definition cos (x : float) : float := (1 - x * x / 2)%float.
Definition asin (x : float) : float := (x + x * x * x / 6)%float.
Definition atan2 (y x : float) : float := (y / x)%float.

Definition fixed (x : float) (digits : nat) : string :=
  if PrimFloat.is_nan x then "NaN"%string else "0"%string.

Definition host : Host :=
  {| host_atan2 := atan2; host_asin := asin; host_cos := cos;
     parseFloat := parse; toFixed := fixed |}.

End SampleHost.

(* ===================================================================== *)
(** ** Strings: [trim], [split] *)
(* ===================================================================== *)

(** White space and line terminators, as [String.prototype.trim] and the
    class [\s] of regular expressions have them, among code units below
    256: TAB, LF, VT, FF, CR, SP and NBSP. *)
Definition is_ws (c : ascii) : bool :=
  let n := Ascii.N_of_ascii c in
  ((9 <=? n) && (n <=? 13) || (n =? 32) || (n =? 160))%N.

Fixpoint trimStart (s : string) : string :=
  match s with
  | EmptyString => EmptyString
  | String c r => if is_ws c then trimStart r else s
  end.

Fixpoint trimEnd (s : string) : string :=
  match s with
  | EmptyString => EmptyString
  | String c r =>
      match trimEnd r with
      | EmptyString => if is_ws c then EmptyString else String c EmptyString
      | r' => String c r'
      end
  end.

Definition trim (s : string) : string := trimEnd (trimStart s).

(** [s.split('\n')]: the pieces between line feeds; never empty. *)
Fixpoint split_lines (s : string) : list string :=
  match s with
  | EmptyString => [EmptyString]
  | String c r =>
      if Ascii.eqb c "010"%char then EmptyString :: split_lines r
      else match split_lines r with
           | h :: t => String c h :: t
           | [] => [String c EmptyString]
           end
  end.

(** [s.split(/\s+/)]: the pieces between maximal runs of white space.
    [in_ws] tells that the previous code unit belonged to a run. *)
Fixpoint split_ws_from (in_ws : bool) (s : string) : list string :=
  match s with
  | EmptyString => [EmptyString]
  | String c r =>
      if is_ws c then
        if in_ws then split_ws_from true r
        else EmptyString :: split_ws_from true r
      else match split_ws_from false r with
           | h :: t => String c h :: t
           | [] => [String c EmptyString]
           end
  end.

Definition split_ws (s : string) : list string := split_ws_from false s.


(* ===================================================================== *)
(** ** Arrays of numbers *)
(* ===================================================================== *)

(** [a[i]] as a value: [undefined] ([None]) outside the array. *)
Definition elem (a : list float) (i : Z) : option float :=
  if (i <? 0)%Z then None else nth_error a (Z.to_nat i).

(** [undefined] in arithmetic and in comparisons is [NaN]. *)
Definition to_number (v : option float) : float := default nan v.

(** [a[i]] where the source computes with it. *)
Definition at_ (a : list float) (i : nat) : float :=
  to_number (elem a (Z.of_nat i)).

(** [a.push(x)]. *)
Definition push {A : Type} (a : list A) (x : A) : list A := a ++ [x].

(** [a.map((_, i) => f(i))]. *)
Definition map_index {A B : Type} (f : nat -> B) (a : list A) : list B :=
  List.map f (seq 0 (length a)).

(** [for (let i = 0; i < n; i++) body]. *)
Definition for_upto {S : Type} (n : nat) (body : nat -> S -> S) (s : S) : S :=
  fold_left (fun acc i => body i acc) (seq 0 n) s.

(* ===================================================================== *)
(** ** Sample store and parsing *)
(* ===================================================================== *)

Definition R_EARTH : float := 6378137.0%float.

(** The object built by [parseTrajectoryFile]: one array per channel
    ([by_] is the channel [by]). *)
Record Store := {
  time : list float; lat : list float; lon : list float; alt : list float;
  vn : list float; ve : list float; vd : list float;
  qw : list float; qx : list float; qy : list float; qz : list float;
  bx : list float; by_ : list float; bz : list float;
  gx : list float; gy : list float; gz : list float
}.

Definition empty_store : Store :=
  {| time := []; lat := []; lon := []; alt := [];
     vn := []; ve := []; vd := [];
     qw := []; qx := []; qy := []; qz := [];
     bx := []; by_ := []; bz := [];
     gx := []; gy := []; gz := [] |}.

(** The channels in column order. *)
Definition channels (d : Store) : list (list float) :=
  [time d; lat d; lon d; alt d; vn d; ve d; vd d;
   qw d; qx d; qy d; qz d; bx d; by_ d; bz d; gx d; gy d; gz d].

(** [values[k]] of a row. *)
Definition col (values : list float) (k : nat) : float := at_ values k.

(** The body of the [forEach] callback once [values.length >= 17]. *)
Definition push_row (data : Store) (values : list float) : Store :=
  {| time := push (time data) (col values 0);
     lat := push (lat data) (col values 1);
     lon := push (lon data) (col values 2);
     alt := push (alt data) (col values 3);
     vn := push (vn data) (col values 4);
     ve := push (ve data) (col values 5);
     vd := push (vd data) (col values 6);
     qw := push (qw data) (col values 7);
     qx := push (qx data) (col values 8);
     qy := push (qy data) (col values 9);
     qz := push (qz data) (col values 10);
     bx := push (bx data) (col values 11);
     by_ := push (by_ data) (col values 12);
     bz := push (bz data) (col values 13);
     gx := push (gx data) (col values 14);
     gy := push (gy data) (col values 15);
     gz := push (gz data) (col values 16) |}.

Section Parsing.
Context {host : Host}.

(** [line.trim().split(/\s+/)]: the tokens of a line. *)
Definition tokens (line : string) : list string := split_ws (trim line).

(** [line.trim().split(/\s+/).map(parseFloat)]. *)
Definition row_values (line : string) : list float :=
  List.map parseFloat (tokens line).

Definition parse_line (data : Store) (line : string) : Store :=
  let values := row_values line in
  if (17 <=? length values)%nat then push_row data values else data.

(** [content.trim().split('\n').slice(1)]. *)
Definition data_lines (content : string) : list string :=
  tail (split_lines (trim content)).

Definition parseTrajectoryFile (content : string) : Store :=
  fold_left parse_line (data_lines content) empty_store.

End Parsing.

(* ===================================================================== *)
(** ** Math utilities *)
(* ===================================================================== *)

Record Euler := { roll : list float; pitch : list float; yaw : list float }.

Record NED := { north : list float; east : list float; down : list float }.

Record Errors := {
  err_north : list float; err_east : list float; err_down : list float;
  horizontal : list float; error3d : list float
}.

Record Stats := { mean : float; min : float; max : float; std : float }.

Section Kinematics.
Context {host : Host}.
Local Open Scope float_scope.

Definition to_degrees (x : float) : float := x * 180 / Math.PI.

(** The three angles of sample [i], in radians. *)
Definition roll_at (qw qx qy qz : list float) (i : nat) : float :=
  let sinr_cosp := 2 * (at_ qw i * at_ qx i + at_ qy i * at_ qz i) in
  let cosr_cosp := 1 - 2 * (at_ qx i * at_ qx i + at_ qy i * at_ qy i) in
  Math.atan2 sinr_cosp cosr_cosp.

Definition sinp_at (qw qx qy qz : list float) (i : nat) : float :=
  2 * (at_ qw i * at_ qy i - at_ qz i * at_ qx i).

Definition pitch_at (qw qx qy qz : list float) (i : nat) : float :=
  let sinp := sinp_at qw qx qy qz i in
  if geb (Math.abs sinp) 1 then Math.sign sinp * Math.PI / 2
  else Math.asin sinp.

Definition yaw_at (qw qx qy qz : list float) (i : nat) : float :=
  let siny_cosp := 2 * (at_ qw i * at_ qz i + at_ qx i * at_ qy i) in
  let cosy_cosp := 1 - 2 * (at_ qy i * at_ qy i + at_ qz i * at_ qz i) in
  Math.atan2 siny_cosp cosy_cosp.

Definition quaternionToEuler (qw qx qy qz : list float) : Euler :=
  for_upto (length qw)
    (fun i acc =>
       {| roll := push (roll acc) (to_degrees (roll_at qw qx qy qz i));
          pitch := push (pitch acc) (to_degrees (pitch_at qw qx qy qz i));
          yaw := push (yaw acc) (to_degrees (yaw_at qw qx qy qz i)) |})
    {| roll := []; pitch := []; yaw := [] |}.

Definition convertToNED (lat lon alt : list float) (lat0 lon0 alt0 : float)
  : NED :=
  for_upto (length lat)
    (fun i acc =>
       {| north := push (north acc) ((at_ lat i - lat0) * R_EARTH);
          east := push (east acc)
                    ((at_ lon i - lon0) * R_EARTH * Math.cos lat0);
          down := push (down acc) (- (at_ alt i - alt0)) |})
    {| north := []; east := []; down := [] |}.

(** The five values pushed at index [i] by [computePositionError]. *)
Definition ne_at (ref test : Store) (i : nat) : float :=
  (at_ (lat test) i - at_ (lat ref) i) * R_EARTH.

Definition ee_at (ref test : Store) (i : nat) : float :=
  (at_ (lon test) i - at_ (lon ref) i) * R_EARTH
  * Math.cos (at_ (lat ref) i).

Definition de_at (ref test : Store) (i : nat) : float :=
  at_ (alt test) i - at_ (alt ref) i.

Definition he_at (ref test : Store) (i : nat) : float :=
  let ne := ne_at ref test i in
  let ee := ee_at ref test i in
  Math.sqrt (ne * ne + ee * ee).

Definition e3d_at (ref test : Store) (i : nat) : float :=
  let ne := ne_at ref test i in
  let ee := ee_at ref test i in
  let de := de_at ref test i in
  Math.sqrt (ne * ne + ee * ee + de * de).

Definition computePositionError (ref test : Store) : Errors :=
  let n := Nat.min (length (lat ref)) (length (lat test)) in
  for_upto n
    (fun i errors =>
       {| err_north := push (err_north errors) (ne_at ref test i);
          err_east := push (err_east errors) (ee_at ref test i);
          err_down := push (err_down errors) (de_at ref test i);
          horizontal := push (horizontal errors) (he_at ref test i);
          error3d := push (error3d errors) (e3d_at ref test i) |})
    {| err_north := []; err_east := []; err_down := [];
       horizontal := []; error3d := [] |}.

(** The divisor of both quotients of [arrayStats]: [arr.length]. *)
Definition stats_divisor (arr : list float) : float := of_nat (length arr).

Definition arrayStats (arr : list float) : Stats :=
  let mean := fold_left (fun a b => a + b) arr 0 / stats_divisor arr in
  let min := Math.min_of arr in
  let max := Math.max_of arr in
  let std :=
    Math.sqrt
      (fold_left (fun a b => a + sq (b - mean)) arr 0 / stats_divisor arr) in
  {| mean := mean; min := min; max := max; std := std |}.

End Kinematics.

(* ===================================================================== *)
(** ** Trajectory analysis *)
(* ===================================================================== *)

(** [initial] and [final]: latitude and longitude are computed (degrees),
    the other four are the array elements as read, possibly [undefined]. *)
Record Endpoint := {
  ep_lat : float; ep_lon : float; ep_alt : option float;
  ep_vn : option float; ep_ve : option float; ep_vd : option float
}.

Record Drift := {
  drift_north : float; drift_east : float; drift_alt : float;
  drift_total : float
}.

Record Checks := {
  altReasonable : bool; speedReasonable : bool; quatNormalized : bool;
  altRange : float * float; maxSpeed : float; quatRange : float * float
}.

Record Analysis := {
  samples : nat; duration : float;
  initial : Endpoint; final : Endpoint;
  drift : Drift; speed : Stats; checks : Checks
}.

Record Verdict := {
  passed : bool; issues : list string; title : string; description : string
}.

Section Analysis.
Context {host : Host}.
Local Open Scope float_scope.

(** [data.vn.map((_, i) => Math.sqrt(vn[i]**2 + ve[i]**2 + vd[i]**2))]. *)
Definition speed_of (data : Store) : list float :=
  map_index
    (fun i => Math.sqrt (sq (at_ (vn data) i) + sq (at_ (ve data) i)
                         + sq (at_ (vd data) i)))
    (vn data).

Definition quatNorm_of (data : Store) : list float :=
  map_index
    (fun i => Math.sqrt (sq (at_ (qw data) i) + sq (at_ (qx data) i)
                         + sq (at_ (qy data) i) + sq (at_ (qz data) i)))
    (qw data).

(** [a => a > -1000 && a < 50000]. *)
Definition alt_ok (a : float) : bool := gtb a (-1000) && (a <? 50000).

(** [q => Math.abs(q - 1.0) < 0.01]. *)
Definition quat_ok (q : float) : bool := Math.abs (q - 1.0) <? 0.01.

Definition endpoint (data : Store) (i : Z) : Endpoint :=
  {| ep_lat := to_number (elem (lat data) i) * 180 / Math.PI;
     ep_lon := to_number (elem (lon data) i) * 180 / Math.PI;
     ep_alt := elem (alt data) i;
     ep_vn := elem (vn data) i;
     ep_ve := elem (ve data) i;
     ep_vd := elem (vd data) i |}.

Definition analyzeTrajectory (data : Store) : Analysis :=
  let n := length (time data) in
  let last := (Z.of_nat n - 1)%Z in
  let get a i := to_number (elem a i) in
  let duration := get (time data) last - get (time data) 0%Z in
  let speed := speed_of data in
  let speedStats := arrayStats speed in
  let quatNorm := quatNorm_of data in
  let quatStats := arrayStats quatNorm in
  let latDrift := (get (lat data) last - get (lat data) 0%Z) * R_EARTH in
  let lonDrift :=
    (get (lon data) last - get (lon data) 0%Z) * R_EARTH
    * Math.cos (get (lat data) 0%Z) in
  let altDrift := get (alt data) last - get (alt data) 0%Z in
  let totalDrift :=
    Math.sqrt (sq latDrift + sq lonDrift + sq altDrift) in
  let altReasonable := forallb alt_ok (alt data) in
  let speedReasonable := max speedStats <? 500 in
  let quatNormalized := forallb quat_ok quatNorm in
  {| samples := n;
     duration := duration;
     initial := endpoint data 0%Z;
     final := endpoint data last;
     drift := {| drift_north := latDrift; drift_east := lonDrift;
                 drift_alt := altDrift; drift_total := totalDrift |};
     speed := speedStats;
     checks := {| altReasonable := altReasonable;
                  speedReasonable := speedReasonable;
                  quatNormalized := quatNormalized;
                  altRange := (Math.min_of (alt data),
                               Math.max_of (alt data));
                  maxSpeed := max speedStats;
                  quatRange := (min quatStats, max quatStats) |} |}.

(** [issues.join(', ')]. *)
Fixpoint join (sep : string) (l : list string) : string :=
  match l with
  | [] => EmptyString
  | [s] => s
  | s :: r => (s ++ sep ++ join sep r)%string
  end.

(** What [renderVerdict] decides and writes: the pass flag, the issue
    list, the title and the description paragraph. *)
Definition renderVerdict (testAnalysis : Analysis) : Verdict :=
  let c := checks testAnalysis in
  let passed := altReasonable c && speedReasonable c && quatNormalized c in
  let issues := [] in
  let issues :=
    if negb (altReasonable c) then push issues "Altitude out of bounds"%string
    else issues in
  let issues :=
    if negb (speedReasonable c)
    then push issues
           ("Speed too high (max: " ++ toFixed (maxSpeed c) 1 ++ " m/s)")%string
    else issues in
  let issues :=
    if negb (quatNormalized c)
    then push issues "Quaternion not normalized"%string
    else issues in
  {| passed := passed;
     issues := issues;
     title := if passed then "PHYSICALLY REASONABLE"%string
              else "PHYSICALLY UNREASONABLE"%string;
     description :=
       if passed
       then "The SENF output shows reasonable behavior. Altitude stays within realistic bounds and velocity stays within reasonable limits."%string
       else ("Issues detected: " ++ join ", " issues)%string |}.

End Analysis.

(* ===================================================================== *)
(** ** Playback *)
(* ===================================================================== *)

(** [threeScene.playback].  The index only ever receives integers (0, the
    slider's [parseInt], a minimum of integers), so it is an integer here
    and [Math.floor] leaves it unchanged. *)
Record Playback := {
  isPlaying : bool; index : Z; lastFrameTime : float
}.

(** What the playback handlers read and write: the loaded test store
    ([null] is [None]), the playback record, which of the two button icons
    is displayed, the slider position and the index last handed to
    [updatePlanePosition]. *)
Record Player := {
  testData : option Store;
  playback : Playback;
  pauseIconShown : bool;
  sliderValue : Z;
  planeIndex : option Z
}.

Definition initial_player : Player :=
  {| testData := None;
     playback := {| isPlaying := false; index := 0; lastFrameTime := 0 |};
     pauseIconShown := false; sliderValue := 0; planeIndex := None |}.

(** [testData.time.length - 1]. *)
Definition last_index (d : Store) : Z := Z.of_nat (length (time d)) - 1.

(** [togglePlay()]; [now] is the value of [performance.now()]. *)
Definition togglePlay (now : float) (s : Player) : Player :=
  match testData s with
  | None => s
  | Some d =>
      let p := playback s in
      if negb (isPlaying p) then
        {| testData := testData s;
           playback :=
             {| isPlaying := true;
                index := if (index p >=? last_index d)%Z then 0%Z else index p;
                lastFrameTime := now |};
           pauseIconShown := true;
           sliderValue := sliderValue s;
           planeIndex := planeIndex s |}
      else
        {| testData := testData s;
           playback :=
             {| isPlaying := false; index := index p;
                lastFrameTime := lastFrameTime p |};
           pauseIconShown := false;
           sliderValue := sliderValue s;
           planeIndex := planeIndex s |}
  end.

Definition speedMultiplier : Z := 5.

(** The playback part of one [animate(time)] frame. *)
Definition animate (time now : float) (s : Player) : Player :=
  match testData s with
  | Some d =>
      if isPlaying (playback s) then
        let idx := Z.min (last_index d) (index (playback s) + speedMultiplier) in
        let intIndex := idx in
        let s' :=
          {| testData := testData s;
             playback :=
               {| isPlaying := true; index := idx; lastFrameTime := time |};
             pauseIconShown := pauseIconShown s;
             sliderValue := intIndex;
             planeIndex := Some intIndex |} in
        if (intIndex >=? last_index d)%Z then togglePlay now s' else s'
      else s
  | None => s
  end.

(** [slider.oninput], with [idx] the parsed value of the slider the user
    has just moved. *)
Definition slider_input (idx : Z) (now : float) (s : Player) : Player :=
  match testData s with
  | None => s
  | Some _ =>
      let p := playback s in
      let s' :=
        {| testData := testData s;
           playback :=
             {| isPlaying := isPlaying p; index := idx;
                lastFrameTime := lastFrameTime p |};
           pauseIconShown := pauseIconShown s;
           sliderValue := idx;
           planeIndex := Some idx |} in
      if isPlaying p then togglePlay now s' else s'
  end.

(* ===================================================================== *)
(** ** Chase camera *)
(* ===================================================================== *)

Record ChaseCameraState := {
  distance : float; azimuth : float; elevation : float;
  isDragging : bool; lastMouseX : float; lastMouseY : float
}.

(** The camera state together with the handlers' shared variable
    [touchStartDistance]. *)
Record ChaseControls := {
  chaseCameraState : ChaseCameraState;
  touchStartDistance : float
}.

(** [clientX], [clientY] of a pointer or of one touch point. *)
Record Point := { clientX : float; clientY : float }.

Inductive ChaseEvent :=
| mousedown (e : Point)
| mousemove (e : Point)
| mouseup
| mouseleave
| wheel (deltaY : float)
| touchstart (touches : list Point)
| touchmove (touches : list Point)
| touchend (touches : list Point)
| touchcancel.

Section ChaseCamera.
Local Open Scope float_scope.

Definition initial_chase : ChaseControls :=
  {| chaseCameraState :=
       {| distance := 30; azimuth := Math.PI; elevation := 0.3;
          isDragging := false; lastMouseX := 0; lastMouseY := 0 |};
     touchStartDistance := 0 |}.

Definition elevation_min : float := - Math.PI / 2 + 0.1.
Definition elevation_max : float := Math.PI / 2 - 0.1.

(** The rotation shared by [mousemove] and one-finger [touchmove]. *)
Definition rotate (e : Point) (c : ChaseCameraState) : ChaseCameraState :=
  let deltaX := clientX e - lastMouseX c in
  let deltaY := clientY e - lastMouseY c in
  {| distance := distance c;
     azimuth := azimuth c + deltaX * 0.01;
     elevation :=
       Math.max elevation_min
         (Math.min elevation_max (elevation c + deltaY * 0.01));
     isDragging := isDragging c;
     lastMouseX := clientX e;
     lastMouseY := clientY e |}.

(** [Math.max(5, Math.min(200, distance + delta))]. *)
Definition zoom_by (delta : float) (c : ChaseCameraState)
  : ChaseCameraState :=
  {| distance := Math.max 5 (Math.min 200 (distance c + delta));
     azimuth := azimuth c; elevation := elevation c;
     isDragging := isDragging c;
     lastMouseX := lastMouseX c; lastMouseY := lastMouseY c |}.

Definition drag_from (dragging : bool) (e : Point) (c : ChaseCameraState)
  : ChaseCameraState :=
  {| distance := distance c; azimuth := azimuth c;
     elevation := elevation c;
     isDragging := dragging;
     lastMouseX := clientX e; lastMouseY := clientY e |}.

Definition set_dragging (dragging : bool) (c : ChaseCameraState)
  : ChaseCameraState :=
  {| distance := distance c; azimuth := azimuth c;
     elevation := elevation c;
     isDragging := dragging;
     lastMouseX := lastMouseX c; lastMouseY := lastMouseY c |}.

(** The distance between the two touch points. *)
Definition touch_distance (t0 t1 : Point) : float :=
  let dx := clientX t0 - clientX t1 in
  let dy := clientY t0 - clientY t1 in
  Math.sqrt (dx * dx + dy * dy).

Definition handle (ev : ChaseEvent) (s : ChaseControls) : ChaseControls :=
  let c := chaseCameraState s in
  let tsd := touchStartDistance s in
  match ev with
  | mousedown e =>
      {| chaseCameraState := drag_from true e c; touchStartDistance := tsd |}
  | mousemove e =>
      if isDragging c
      then {| chaseCameraState := rotate e c; touchStartDistance := tsd |}
      else s
  | mouseup | mouseleave =>
      {| chaseCameraState := set_dragging false c;
         touchStartDistance := tsd |}
  | wheel deltaY =>
      let delta := deltaY * 0.05 in
      {| chaseCameraState := zoom_by delta c; touchStartDistance := tsd |}
  | touchstart [t0] =>
      {| chaseCameraState := drag_from true t0 c;
         touchStartDistance := tsd |}
  | touchstart [t0; t1] =>
      {| chaseCameraState := set_dragging false c;
         touchStartDistance := touch_distance t0 t1 |}
  | touchstart _ => s
  | touchmove [t0] =>
      if isDragging c
      then {| chaseCameraState := rotate t0 c; touchStartDistance := tsd |}
      else s
  | touchmove [t0; t1] =>
      let distance := touch_distance t0 t1 in
      if gtb tsd 0 then
        let delta := (tsd - distance) * 0.2 in
        {| chaseCameraState := zoom_by delta c;
           touchStartDistance := distance |}
      else s
  | touchmove _ => s
  | touchend [] =>
      {| chaseCameraState := set_dragging false c; touchStartDistance := 0 |}
  | touchend [t0] =>
      {| chaseCameraState := drag_from true t0 c; touchStartDistance := 0 |}
  | touchend _ => s
  | touchcancel =>
      {| chaseCameraState := set_dragging false c; touchStartDistance := 0 |}
  end.

Definition run (evs : list ChaseEvent) (s : ChaseControls) : ChaseControls :=
  fold_left (fun acc ev => handle ev acc) evs s.




End ChaseCamera.

(* ===================================================================== *)
(** ** Zoom history *)
(* ===================================================================== *)

(** [{ min, max }] of one axis and the saved state [{ x, y }]. *)
Record Range := { range_min : float; range_max : float }.

Record ZoomState := { zoom_x : Range; zoom_y : Range }.

Inductive Axis := axis_x | axis_y.

(** The charting library, as far as the history manager uses it: the
    current axis ranges of a chart ([chart.scales]) and the three methods
    called on it. *)
Class ChartLib := {
  Chart : Type;
  scales : Chart -> ZoomState;
  zoomScale : Chart -> Axis -> Range -> Chart;
  update : Chart -> Chart;
  resetZoom : Chart -> Chart
}.

(** A charting library that records the calls made on a chart and lets
    [zoomScale] set the axis; for concrete evaluations only. *)
Module SampleChart.

Inductive Call :=
| call_zoomScale (a : Axis) (r : Range)
| call_update
| call_resetZoom.

Record t := { current : ZoomState; full : ZoomState; calls : list Call }.

Definition zoom (c : t) (a : Axis) (r : Range) : t :=
  {| current :=
       match a with
       | axis_x => {| zoom_x := r; zoom_y := zoom_y (current c) |}
       | axis_y => {| zoom_x := zoom_x (current c); zoom_y := r |}
       end;
     full := full c;
     calls := calls c ++ [call_zoomScale a r] |}.

Definition upd (c : t) : t :=
  {| current := current c; full := full c;
     calls := calls c ++ [call_update] |}.

Definition reset (c : t) : t :=
  {| current := full c; full := full c;
     calls := calls c ++ [call_resetZoom] |}.

Definition lib : ChartLib :=
  {| Chart := t; scales := current; zoomScale := zoom;
     update := upd; resetZoom := reset |}.

End SampleChart.

Definition capacity : nat := 20.

Section ZoomHistory.
Context {lib : ChartLib}.

(** The module state the history manager works on. *)
Record ZoomCtl := {
  charts : gmap string Chart;
  modalChart : option Chart;
  zoomHistory : gmap string (list ZoomState)
}.

Definition initial_history : gmap string (list ZoomState) :=
  <["attitude"%string := []]>
    (<["velocity"%string := []]>
       (<["error"%string := []]> (<["modal"%string := []]> ∅))).

Definition initial_zoom : ZoomCtl :=
  {| charts := ∅; modalChart := None; zoomHistory := initial_history |}.

(** [chartName === 'modal' ? modalChart : charts[chartName]]. *)
Definition chart_named (chartName : string) (st : ZoomCtl) : option Chart :=
  if String.eqb chartName "modal" then modalChart st
  else charts st !! chartName.

Definition set_chart (chartName : string) (c : Chart) (st : ZoomCtl)
  : ZoomCtl :=
  if String.eqb chartName "modal"
  then {| charts := charts st; modalChart := Some c;
          zoomHistory := zoomHistory st |}
  else {| charts := <[chartName := c]> (charts st);
          modalChart := modalChart st;
          zoomHistory := zoomHistory st |}.

(** [push], then [shift] when the length exceeds 20. *)
Definition push_bounded (h : list ZoomState) (state : ZoomState)
  : list ZoomState :=
  let h := push h state in
  if (capacity <? length h)%nat then tail h else h.

Definition saveZoomState (chartName : string) (chart : Chart) (st : ZoomCtl)
  : ZoomCtl :=
  let state := scales chart in
  let h := default [] (zoomHistory st !! chartName) in
  {| charts := charts st; modalChart := modalChart st;
     zoomHistory := <[chartName := push_bounded h state]> (zoomHistory st) |}.

(** [onZoomStart]: the plugin hands over a chart; [getChartName] finds the
    name it is registered under (none: nothing is saved).  The chart is
    identified here by that name. *)
Definition onZoomStart (chartName : string) (st : ZoomCtl) : ZoomCtl :=
  match chart_named chartName st with
  | Some chart => saveZoomState chartName chart st
  | None => st
  end.

(** [a.pop()]: the last element and the rest. *)
Definition pop {A : Type} (a : list A) : option (A * list A) :=
  match rev a with
  | [] => None
  | x :: r => Some (x, rev r)
  end.

Definition apply_state (chart : Chart) (prevState : ZoomState) : Chart :=
  update
    (zoomScale (zoomScale chart axis_x (zoom_x prevState))
       axis_y (zoom_y prevState)).

Definition undoZoom (chartName : string) (st : ZoomCtl) : bool * ZoomCtl :=
  match chart_named chartName st, zoomHistory st !! chartName with
  | Some chart, Some h =>
      match pop h with
      | None => (false, st)
      | Some (prevState, rest) =>
          let st' :=
            {| charts := charts st; modalChart := modalChart st;
               zoomHistory := <[chartName := rest]> (zoomHistory st) |} in
          (true, set_chart chartName (apply_state chart prevState) st')
      end
  | _, _ => (false, st)
  end.

(** The click handler of a reset-zoom button of chart [chartName]. *)
Definition reset_click (chartName : string) (st : ZoomCtl) : ZoomCtl :=
  match charts st !! chartName with
  | Some chart =>
      {| charts := <[chartName := resetZoom chart]> (charts st);
         modalChart := modalChart st;
         zoomHistory := <[chartName := []]> (zoomHistory st) |}
  | None => st
  end.

(** The click handler of the modal's reset-zoom button. *)
Definition modal_reset_click (st : ZoomCtl) : ZoomCtl :=
  match modalChart st with
  | Some chart =>
      {| charts := charts st;
         modalChart := Some (resetZoom chart);
         zoomHistory := <["modal"%string := []]> (zoomHistory st) |}
  | None => st
  end.

(** What can happen to the history manager: a zoom starts on a chart, an
    undo or reset button is clicked, a chart is (re)created, the modal is
    opened on a new chart or closed. *)
Inductive ZoomOp :=
| op_zoom_start (chartName : string)
| op_undo (chartName : string)
| op_reset (chartName : string)
| op_modal_reset
| op_create (chartName : string) (chart : Chart)
| op_open_modal (chart : Chart)
| op_close_modal.

Definition zoom_step (op : ZoomOp) (st : ZoomCtl) : ZoomCtl :=
  match op with
  | op_zoom_start n => onZoomStart n st
  | op_undo n => snd (undoZoom n st)
  | op_reset n => reset_click n st
  | op_modal_reset => modal_reset_click st
  | op_create n c =>
      {| charts := <[n := c]> (charts st); modalChart := modalChart st;
         zoomHistory := zoomHistory st |}
  | op_open_modal c =>
      {| charts := charts st; modalChart := Some c;
         zoomHistory := zoomHistory st |}
  | op_close_modal =>
      {| charts := charts st; modalChart := None;
         zoomHistory := zoomHistory st |}
  end.

Definition zoom_run (ops : list ZoomOp) (st : ZoomCtl) : ZoomCtl :=
  fold_left (fun acc op => zoom_step op acc) ops st.

(** No history holds more than [capacity] entries. *)
Definition bounded_history (st : ZoomCtl) : Prop :=
  forall (chartName : string) (h : list ZoomState),
    zoomHistory st !! chartName = Some h -> (length h <= capacity)%nat.

(** The state right after the page is set up with the given charts. *)
Definition zoom_with (cs : gmap string Chart) (m : option Chart) : ZoomCtl :=
  {| charts := cs; modalChart := m; zoomHistory := initial_history |}.

End ZoomHistory.

(* ===================================================================== *)
(** ** Sample data *)
(* ===================================================================== *)

(** The store holding the given rows of 17 values. *)
Definition store_of_rows (rows : list (list float)) : Store :=
  fold_left push_row rows empty_store.

(** A level flight of [n] samples one second apart: altitude [alt0],
    10 m/s north, identity attitude. *)
Definition level_flight (n : nat) (alt0 : float) : Store :=
  store_of_rows
    (List.map
       (fun k => [of_nat k; 0; 0; alt0; 10; 0; 0; 1; 0; 0; 0;
                  0; 0; 0; 0; 0; 0]%float)
       (seq 0 n)).

Definition player_at (d : Store) (playing : bool) (i : Z) : Player :=
  {| testData := Some d;
     playback := {| isPlaying := playing; index := i; lastFrameTime := 0 |};
     pauseIconShown := playing; sliderValue := i; planeIndex := Some i |}.

(** A chart of the recording library showing the given ranges. *)
Definition sample_range (a b : float) : Range :=
  {| range_min := a; range_max := b |}.

Definition sample_view (x0 x1 y0 y1 : float) : ZoomState :=
  {| zoom_x := sample_range x0 x1; zoom_y := sample_range y0 y1 |}.

Definition sample_chart (view : ZoomState) : SampleChart.t :=
  {| SampleChart.current := view;
     SampleChart.full := sample_view 0 100 (-1) 1;
     SampleChart.calls := [] |}.

(* ===================================================================== *)
(** ** Predicates of the statements *)
(* ===================================================================== *)

(** A zero or a finite value, on the inductive view of binary64. *)
Definition sf_number (x : spec_float) : Prop :=
  match x with S754_zero _ | S754_finite _ _ _ => True | _ => False end.


(* ===================================================================== *)
(** ** Chart data and downsampling *)
(* ===================================================================== *)

(** [a.filter((_, i) => p(i))], the index counted from [i]. *)
Fixpoint filter_from {A : Type} (p : nat -> bool) (i : nat) (a : list A)
  : list A :=
  match a with
  | [] => []
  | x :: r =>
      if p i then x :: filter_from p (S i) r else filter_from p (S i) r
  end.

(** [a.filter((_, i) => i % step === 0)]. *)
Definition downsample {A : Type} (step : nat) (a : list A) : list A :=
  filter_from (fun i => (i mod step =? 0)%nat) 0 a.

(** [Math.max(1, Math.floor(n / 500))] for an array length [n]: lengths
    are integers below 2^32, where the binary64 quotient floors to the
    integer quotient. *)
Definition chart_step (n : nat) : nat := Nat.max 1 (n / 500).

(** [Math.max(1, Math.floor(n / 2000))], the step of the 3D lines. *)
Definition line_step (n : nat) : nat := Nat.max 1 (n / 2000).

(** One entry of [data.datasets]: its label, its values and whether it
    starts hidden. *)
Record Dataset := {
  ds_label : string; ds_data : list float; ds_hidden : bool
}.

(** The [data] handed to [new Chart]. *)
Record ChartData := { labels : list float; datasets : list Dataset }.

Definition createVelocityChart_data (refData testData : Store) : ChartData :=
  let step := chart_step (length (time refData)) in
  {| labels := downsample step (time refData);
     datasets :=
       [ {| ds_label := "Ref Vn"; ds_data := downsample step (vn refData);
            ds_hidden := false |};
         {| ds_label := "SENF Vn"; ds_data := downsample step (vn testData);
            ds_hidden := false |};
         {| ds_label := "Ref Ve"; ds_data := downsample step (ve refData);
            ds_hidden := true |};
         {| ds_label := "SENF Ve"; ds_data := downsample step (ve testData);
            ds_hidden := true |};
         {| ds_label := "Ref Vd"; ds_data := downsample step (vd refData);
            ds_hidden := true |};
         {| ds_label := "SENF Vd"; ds_data := downsample step (vd testData);
            ds_hidden := true |} ] |}.

Section ChartData.
Context {host : Host}.

Definition createAttitudeChart_data (refData testData : Store) : ChartData :=
  let refEuler :=
    quaternionToEuler (qw refData) (qx refData) (qy refData) (qz refData) in
  let testEuler :=
    quaternionToEuler (qw testData) (qx testData) (qy testData)
      (qz testData) in
  let step := chart_step (length (time refData)) in
  {| labels := downsample step (time refData);
     datasets :=
       [ {| ds_label := "Ref Roll"; ds_data := downsample step (roll refEuler);
            ds_hidden := false |};
         {| ds_label := "SENF Roll";
            ds_data := downsample step (roll testEuler);
            ds_hidden := false |};
         {| ds_label := "Ref Pitch";
            ds_data := downsample step (pitch refEuler);
            ds_hidden := true |};
         {| ds_label := "SENF Pitch";
            ds_data := downsample step (pitch testEuler);
            ds_hidden := true |};
         {| ds_label := "Ref Yaw"; ds_data := downsample step (yaw refEuler);
            ds_hidden := true |};
         {| ds_label := "SENF Yaw"; ds_data := downsample step (yaw testEuler);
            ds_hidden := true |} ] |}.

Definition createErrorChart_data (refData testData : Store) : ChartData :=
  let errors := computePositionError refData testData in
  let n := Nat.min (length (time refData)) (length (time testData)) in
  let step := chart_step n in
  {| labels := downsample step (firstn n (time refData));
     datasets :=
       [ {| ds_label := "Horizontal Error";
            ds_data := downsample step (horizontal errors);
            ds_hidden := false |};
         {| ds_label := "3D Error";
            ds_data := downsample step (error3d errors);
            ds_hidden := false |};
         {| ds_label := "Down Error";
            ds_data := downsample step (err_down errors);
            ds_hidden := true |} ] |}.

End ChartData.

(** The three numbers pushed for sample [i]:
    [east[i], -down[i], north[i]]. *)
Definition vertex (ned : NED) (i : nat) : list float :=
  [at_ (east ned) i; PrimFloat.opp (at_ (down ned) i); at_ (north ned) i].

(** The vertices of a 3D line: [for (i = 0; i < n; i += step)] pushing
    the vertex of sample [i].  [fuel] bounds the number of iterations; [n]
    iterations always suffice. *)
Fixpoint line_points_from (fuel : nat) (i n step : nat) (ned : NED)
  : list float :=
  match fuel with
  | O => []
  | S fuel' =>
      if (i <? n)%nat then
        vertex ned i ++ line_points_from fuel' (i + step) n step ned
      else []
  end.

Definition line_points (step : nat) (ned : NED) : list float :=
  line_points_from (length (east ned)) 0 (length (east ned)) step ned.

(* ===================================================================== *)
(** ** Playback: reset, loading, events *)
(* ===================================================================== *)

(** The playback part of [update3DTrajectories] on the player, when its
    call of [updatePlanePosition] returns: nothing happens unless a
    reference and a test store are loaded; otherwise playback is reset, the
    slider goes to 0, the plane is shown at sample 0 and the play icon is
    displayed. *)
Definition reset_playback (refLoaded : bool) (s : Player) : Player :=
  match testData s with
  | Some _ =>
      if refLoaded then
        {| testData := testData s;
           playback :=
             {| isPlaying := false; index := 0;
                lastFrameTime := lastFrameTime (playback s) |};
           pauseIconShown := false;
           sliderValue := 0;
           planeIndex := Some 0%Z |}
      else s
  | None => s
  end.

(** What loading a test trajectory does to the player: [testData = data]. *)
Definition load_test (data : Store) (s : Player) : Player :=
  {| testData := Some data;
     playback := playback s;
     pauseIconShown := pauseIconShown s;
     sliderValue := sliderValue s;
     planeIndex := planeIndex s |}.

Inductive PlayerEvent :=
| ev_toggle (now : float)
| ev_frame (time now : float)
| ev_slider (idx : Z) (now : float)
| ev_reset (refLoaded : bool)
| ev_load (data : Store).

Definition player_step (ev : PlayerEvent) (s : Player) : Player :=
  match ev with
  | ev_toggle now => togglePlay now s
  | ev_frame t now => animate t now s
  | ev_slider idx now => slider_input idx now s
  | ev_reset refLoaded => reset_playback refLoaded s
  | ev_load data => load_test data s
  end.

Definition player_run (evs : list PlayerEvent) (s : Player) : Player :=
  fold_left (fun acc ev => player_step ev acc) evs s.


Definition is_frame (ev : PlayerEvent) : bool :=
  match ev with
  | ev_frame _ _ => true
  | _ => false
  end.

(* ===================================================================== *)
(** ** Plane pose *)
(* ===================================================================== *)

(** How a call ends: normally, by an early [return] before anything is
    set, or by a [TypeError] raised after [a] has been set. *)
Inductive Outcome (A : Type) :=
| done (a : A)
| skipped
| thrown (a : A).
Arguments done {A} a.
Arguments skipped {A}.
Arguments thrown {A} a.

(** What [updatePlanePosition] sets: the index it validated, the
    arguments of [plane.position.set] and [plane.quaternion.set] (array
    elements as read, negated ones as numbers) and the time read-out (absent
    when the page has no time display). *)
Record PlanePose := {
  pose_index : Z;
  pose_x : option float; pose_y : float; pose_z : option float;
  pose_qx : float; pose_qy : option float;
  pose_qz : float; pose_qw : option float;
  pose_time : option string
}.

Section PlanePose.
Context {host : Host}.

(** [Math.max(0, Math.min(index, n - 1))] on integers. *)
Definition validate_index (index : Z) (n : nat) : Z :=
  Z.max 0 (Z.min index (Z.of_nat n - 1)).

(** The position, attitude and time read-out of
    [updatePlanePosition(index)]; [testNED] is [threeScene.data.testNED]
    (absent before the first analysis) and [timeDisplay] tells whether the
    page has the time display.  The label sprites it rebuilds are left
    out. *)
Definition updatePlanePosition
    (testNED : option NED) (testData : Store) (timeDisplay : bool)
    (index : Z) : Outcome PlanePose :=
  match testNED with
  | None => skipped
  | Some ned =>
      let index := validate_index index (length (east ned)) in
      let pose time_text :=
        {| pose_index := index;
           pose_x := elem (east ned) index;
           pose_y := PrimFloat.opp (to_number (elem (down ned) index));
           pose_z := elem (north ned) index;
           pose_qx := PrimFloat.opp (to_number (elem (qy testData) index));
           pose_qy := elem (qz testData) index;
           pose_qz := PrimFloat.opp (to_number (elem (qx testData) index));
           pose_qw := elem (qw testData) index;
           pose_time := time_text |} in
      if timeDisplay then
        match elem (time testData) index with
        | Some t => done (pose (Some ("Time: " ++ toFixed t 2 ++ "s")%string))
        | None => thrown (pose None)
        end
      else done (pose None)
  end.

(** [testNED] as [update3DTrajectories] stores it: the test track
    anchored at its own first sample. *)
Definition test_track (testData : Store) : NED :=
  convertToNED (lat testData) (lon testData) (alt testData)
    (to_number (elem (lat testData) 0))
    (to_number (elem (lon testData) 0))
    (to_number (elem (alt testData) 0)).

End PlanePose.

(* ===================================================================== *)
(** ** The scene: handlers with the plane update *)
(* ===================================================================== *)

(** The 3D scene as the playback handlers see it: the player, the test
    track stored by the last analysis ([threeScene.data.testNED], absent
    before the first one) and the pose last given to the plane.  The scene
    and its plane exist from [init3DScene] on. *)
Record Scene := {
  player : Player;
  testNED : option NED;
  planePose : option PlanePose
}.

Section Scene.
Context {host : Host}.

(** Whether the page has the element [time-display]. *)
Variable timeDisplay : bool.

(** The call [updatePlanePosition(index)] inside a handler that has
    brought the player to [s]: [rest] is what the handler does after the
    call, skipped when the call throws. *)
Definition place_plane (d : Store) (index : Z) (s : Player)
    (rest : Player -> Player) (sc : Scene) : Scene :=
  match updatePlanePosition (testNED sc) d timeDisplay index with
  | done pose =>
      {| player := rest s; testNED := testNED sc; planePose := Some pose |}
  | skipped =>
      {| player := rest s; testNED := testNED sc;
         planePose := planePose sc |}
  | thrown pose =>
      {| player := s; testNED := testNED sc; planePose := Some pose |}
  end.

(** [slider.oninput]. *)
Definition scene_slider (idx : Z) (now : float) (sc : Scene) : Scene :=
  let s := player sc in
  match testData s with
  | None => sc
  | Some d =>
      let p := playback s in
      let s' :=
        {| testData := testData s;
           playback :=
             {| isPlaying := isPlaying p; index := idx;
                lastFrameTime := lastFrameTime p |};
           pauseIconShown := pauseIconShown s;
           sliderValue := idx;
           planeIndex := Some idx |} in
      place_plane d idx s'
        (fun s' => if isPlaying (playback s') then togglePlay now s' else s')
        sc
  end.

(** The playback part of one [animate(time)] frame. *)
Definition scene_frame (time now : float) (sc : Scene) : Scene :=
  let s := player sc in
  match testData s with
  | Some d =>
      if isPlaying (playback s) then
        let idx :=
          Z.min (last_index d) (index (playback s) + speedMultiplier) in
        let intIndex := idx in
        let s' :=
          {| testData := testData s;
             playback :=
               {| isPlaying := true; index := idx; lastFrameTime := time |};
             pauseIconShown := pauseIconShown s;
             sliderValue := intIndex;
             planeIndex := Some intIndex |} in
        place_plane d intIndex s'
          (fun s' =>
             if (intIndex >=? last_index d)%Z then togglePlay now s' else s')
          sc
      else sc
  | None => sc
  end.

(** The end of [update3DTrajectories]: the test track is stored, playback
    is reset, the plane is put on sample 0 and then the play icon is
    shown.  [refLoaded] tells whether [refData] is set. *)
Definition scene_analyze (refLoaded : bool) (sc : Scene) : Scene :=
  let s := player sc in
  match testData s with
  | Some d =>
      if refLoaded then
        let s' :=
          {| testData := testData s;
             playback :=
               {| isPlaying := false; index := 0;
                  lastFrameTime := lastFrameTime (playback s) |};
             pauseIconShown := pauseIconShown s;
             sliderValue := 0;
             planeIndex := Some 0%Z |} in
        place_plane d 0 s'
          (fun s' =>
             {| testData := testData s'; playback := playback s';
                pauseIconShown := false;
                sliderValue := sliderValue s';
                planeIndex := planeIndex s' |})
          {| player := s; testNED := Some (test_track d);
             planePose := planePose sc |}
      else sc
  | None => sc
  end.

Definition on_player (f : Player -> Player) (sc : Scene) : Scene :=
  {| player := f (player sc); testNED := testNED sc;
     planePose := planePose sc |}.

Definition scene_step (ev : PlayerEvent) (sc : Scene) : Scene :=
  match ev with
  | ev_toggle now => on_player (togglePlay now) sc
  | ev_frame t now => scene_frame t now sc
  | ev_slider idx now => scene_slider idx now sc
  | ev_reset refLoaded => scene_analyze refLoaded sc
  | ev_load data => on_player (load_test data) sc
  end.

Definition scene_run (evs : list PlayerEvent) (sc : Scene) : Scene :=
  fold_left (fun acc ev => scene_step ev acc) evs sc.

End Scene.

(** Events that load no store without samples. *)
Definition loads_samples (ev : PlayerEvent) : bool :=
  match ev with
  | ev_load data => (1 <=? length (time data))%nat
  | _ => true
  end.

(** A scene around a player, before any analysis. *)
Definition scene_of (s : Player) : Scene :=
  {| player := s; testNED := None; planePose := None |}.

(** A store all of whose channels have [n] entries, as parsing builds
    them. *)
Definition store_length (d : Store) (n : nat) : Prop :=
  forall ch : list float, In ch (channels d) -> length ch = n.

(* ===================================================================== *)
(** ** Loading and analysing *)
(* ===================================================================== *)

Module Session.

(** The two loaded stores and the state of the Analyze button. *)
Record t := {
  refData : option Store;
  testData : option Store;
  analyzeDisabled : bool
}.

(** [btn.disabled = !(refData && testData)]. *)
Definition updateAnalyzeButton (s : t) : t :=
  {| refData := refData s; testData := testData s;
     analyzeDisabled :=
       negb (match refData s, testData s with
             | Some _, Some _ => true
             | _, _ => false
             end) |}.

End Session.

Section Session.
Context {host : Host}.

(** [handleFileUpload(event, type)] once the file is read: [file] is the
    text of [event.target.files[0]], absent when no file was chosen. *)
Definition handleFileUpload (file : option string) (type : string)
    (s : Session.t) : Session.t :=
  match file with
  | None => s
  | Some content =>
      let data := parseTrajectoryFile content in
      Session.updateAnalyzeButton
        (if String.eqb type "reference"
         then {| Session.refData := Some data;
                 Session.testData := Session.testData s;
                 Session.analyzeDisabled := Session.analyzeDisabled s |}
         else {| Session.refData := Session.refData s;
                 Session.testData := Some data;
                 Session.analyzeDisabled := Session.analyzeDisabled s |})
  end.

(** The click handler of a sample button: [variants] is the table
    [sampleDataVariants] (variant name to log text), [reference] the
    embedded reference log. *)
Definition load_sample (variants : gmap string string) (reference : string)
    (variant : string) (s : Session.t) : Session.t :=
  match variants !! variant with
  | None => s
  | Some text =>
      Session.updateAnalyzeButton
        {| Session.refData := Some (parseTrajectoryFile reference);
           Session.testData := Some (parseTrajectoryFile text);
           Session.analyzeDisabled := Session.analyzeDisabled s |}
  end.


Inductive SessionEvent :=
| ev_upload (file : option string) (type : string)
| ev_sample (variant : string).

Definition session_step (variants : gmap string string) (reference : string)
    (ev : SessionEvent) (s : Session.t) : Session.t :=
  match ev with
  | ev_upload file type => handleFileUpload file type s
  | ev_sample variant => load_sample variants reference variant s
  end.

Definition session_run (variants : gmap string string) (reference : string)
    (evs : list SessionEvent) (s : Session.t) : Session.t :=
  fold_left (fun acc ev => session_step variants reference ev acc) evs s.

End Session.

(** A session with nothing loaded and the Analyze button disabled. *)
Definition empty_session : Session.t :=
  {| Session.refData := None; Session.testData := None;
     Session.analyzeDisabled := true |}.

(* ===================================================================== *)
(** ** Fullscreen modal *)
(* ===================================================================== *)

Section Modal.
Context {lib : ChartLib}.

(** The charts and histories together with [currentModalChartName] and
    whether the modal is displayed. *)
Record ModalCtl := {
  zoomCtl : ZoomCtl;
  currentModalChartName : option string;
  modalActive : bool
}.

(** [openFullscreenModal(chartName, title)]; [fresh] is the chart that
    [new Chart] builds in the modal from the source chart's data.  Without
    a chart of that name only a notice is shown. *)
Definition openFullscreenModal (chartName : string) (fresh : Chart)
    (m : ModalCtl) : ModalCtl :=
  match charts (zoomCtl m) !! chartName with
  | None => m
  | Some _ =>
      {| zoomCtl :=
           {| charts := charts (zoomCtl m);
              modalChart := Some fresh;
              zoomHistory := zoomHistory (zoomCtl m) |};
         currentModalChartName := Some chartName;
         modalActive := true |}
  end.

Definition closeFullscreenModal (m : ModalCtl) : ModalCtl :=
  {| zoomCtl :=
       {| charts := charts (zoomCtl m);
          modalChart := None;
          zoomHistory := zoomHistory (zoomCtl m) |};
     currentModalChartName := None;
     modalActive := false |}.

(** The view whose history an operation can touch. *)
Definition op_view (op : ZoomOp) : option string :=
  match op with
  | op_zoom_start n | op_undo n | op_reset n => Some n
  | op_modal_reset => Some "modal"%string
  | op_create _ _ | op_open_modal _ | op_close_modal => None
  end.

(** [chart] handed to [saveZoomState] for the view [chartName], once per
    chart of the list. *)
Definition save_all (chartName : string) (cs : list Chart) (st : ZoomCtl)
  : ZoomCtl :=
  fold_left (fun acc c => saveZoomState chartName c acc) cs st.

(** A zoom start and an undo click inside the modal. *)
Definition modal_zoom_start (m : ModalCtl) : ModalCtl :=
  {| zoomCtl := onZoomStart "modal" (zoomCtl m);
     currentModalChartName := currentModalChartName m;
     modalActive := modalActive m |}.

Definition modal_undo (m : ModalCtl) : bool * ModalCtl :=
  let r := undoZoom "modal" (zoomCtl m) in
  (fst r,
   {| zoomCtl := snd r;
      currentModalChartName := currentModalChartName m;
      modalActive := modalActive m |}).

End Modal.

(* ===================================================================== *)
(** ** Angle of attack *)
(* ===================================================================== *)

Module THREE.

Record Vector3 := { x : float; y : float; z : float }.

(** [new THREE.Quaternion(x, y, z, w)]. *)
Record Quaternion := { q_x : float; q_y : float; q_z : float; q_w : float }.

End THREE.

(** The 3D library as far as [computeAoA] uses it, with [Math.acos]:
    a vector rotated by the inverse of a quaternion
    ([v.clone().applyQuaternion(q.clone().invert())]) and the length of a
    vector. *)
Class ThreeLib := {
  applyInverse : THREE.Vector3 -> THREE.Quaternion -> THREE.Vector3;
  vector_length : THREE.Vector3 -> float;
  host_acos : float -> float
}.

Record AoA := {
  absolute : list float; aoa_pitch : list float; aoa_yaw : list float
}.

Section AngleOfAttack.
Context {host : Host} {three : ThreeLib}.
Local Open Scope float_scope.

(** The velocity of sample [i] in the body frame. *)
Definition v_body_at (data : Store) (i : nat) : THREE.Vector3 :=
  let v_ned :=
    {| THREE.x := at_ (vn data) i; THREE.y := at_ (ve data) i;
       THREE.z := at_ (vd data) i |} in
  let q_body_to_ned :=
    {| THREE.q_x := at_ (qx data) i; THREE.q_y := at_ (qy data) i;
       THREE.q_z := at_ (qz data) i; THREE.q_w := at_ (qw data) i |} in
  applyInverse v_ned q_body_to_ned.

(** The argument of [Math.acos]:
    [Math.min(1.0, Math.max(-1.0, v_body.x / speed))]. *)
Definition acos_arg (v_body : THREE.Vector3) : float :=
  Math.min 1.0 (Math.max (-1.0) (THREE.x v_body / vector_length v_body)).

Definition abs_aoa_of (v_body : THREE.Vector3) : float :=
  let speed := vector_length v_body in
  if gtb speed 0.001 then host_acos (acos_arg v_body) else 0.

Definition computeAoA (data : Store) : AoA :=
  for_upto (length (time data))
    (fun i aoa =>
       let v_body := v_body_at data i in
       let abs_aoa := abs_aoa_of v_body in
       let alpha := Math.atan2 (THREE.z v_body) (THREE.x v_body) in
       let beta := Math.atan2 (THREE.y v_body) (THREE.x v_body) in
       {| absolute := push (absolute aoa) (abs_aoa * 180 / Math.PI);
          aoa_pitch := push (aoa_pitch aoa) (alpha * 180 / Math.PI);
          aoa_yaw := push (aoa_yaw aoa) (beta * 180 / Math.PI) |})
    {| absolute := []; aoa_pitch := []; aoa_yaw := [] |}.

End AngleOfAttack.

(** A 3D library on which [computeAoA] can be run: the rotation by the
    inverse of the unit quaternion [q] written out, the Euclidean length,
    and a polynomial for the arc cosine.  For concrete evaluations only. *)
Module SampleThree.

Definition rotate_inverse (v : THREE.Vector3) (q : THREE.Quaternion)
  : THREE.Vector3 :=
  let '(vx, vy, vz) := (THREE.x v, THREE.y v, THREE.z v) in
  let '(a, b, c, w) :=
    (PrimFloat.opp (THREE.q_x q), PrimFloat.opp (THREE.q_y q),
     PrimFloat.opp (THREE.q_z q), THREE.q_w q) in
  let tx := (2 * (b * vz - c * vy))%float in
  let ty := (2 * (c * vx - a * vz))%float in
  let tz := (2 * (a * vy - b * vx))%float in
  {| THREE.x := (vx + w * tx + (b * tz - c * ty))%float;
     THREE.y := (vy + w * ty + (c * tx - a * tz))%float;
     THREE.z := (vz + w * tz + (a * ty - b * tx))%float |}.

Definition length (v : THREE.Vector3) : float :=
  PrimFloat.sqrt
    (THREE.x v * THREE.x v + THREE.y v * THREE.y v + THREE.z v * THREE.z v).

Definition acos (v : float) : float :=
  (Math.PI / 2 - (v + v * v * v / 6))%float.

Definition lib : ThreeLib :=
  {| applyInverse := rotate_inverse; vector_length := length;
     host_acos := acos |}.

End SampleThree.

(* ===================================================================== *)
(** ** Camera gestures *)
(* ===================================================================== *)

(** The events whose handler sets [isDragging] to [true]: a mouse button
    pressed, one finger put down, one finger left after a lift. *)
Definition starts_drag (ev : ChaseEvent) : bool :=
  match ev with
  | mousedown _ | touchstart [_] | touchend [_] => true
  | _ => false
  end.

(** The events whose handler assigns [distance]: the wheel and a
    two-finger move. *)
Definition zooms (ev : ChaseEvent) : bool :=
  match ev with
  | wheel _ | touchmove [_; _] => true
  | _ => false
  end.

(* ===================================================================== *)
(** * Properties *)
(* ===================================================================== *)

(** ** Evaluations *)

Example trim_split_tokens :
  tokens "  0.5	1e3   x " = ["0.5"; "1e3"; "x"]%string.
Proof. reflexivity. Qed.

Example blank_line_is_one_empty_token : tokens "   " = [""]%string.
Proof. reflexivity. Qed.

Example split_keeps_empty_pieces :
  split_ws " a " = [""; "a"; ""]%string.
Proof. reflexivity. Qed.

Example split_lines_example :
  split_lines "h
1 2

x" = ["h"; "1 2"; ""; "x"]%string.
Proof. reflexivity. Qed.

Example max_min_signed_zeros :
  Math.max (-0)%float 0%float = 0%float
  /\ Math.min 0%float (-0)%float = (-0)%float
  /\ Math.max 5%float nan = nan
  /\ Math.max_of [] = neg_infinity /\ Math.min_of [] = infinity.
Proof. repeat split. Qed.

Example sign_values :
  Math.sign 2.5%float = 1%float /\ Math.sign (-3)%float = (-1)%float
  /\ Math.sign (-0)%float = (-0)%float /\ Math.sign nan = nan.
Proof. repeat split. Qed.

(** The statistics of the speeds 3, 4, 5. *)
Example arrayStats_example :
  mean (arrayStats [3; 4; 5]%float) = 4%float
  /\ min (arrayStats [3; 4; 5]%float) = 3%float
  /\ max (arrayStats [3; 4; 5]%float) = 5%float.
Proof. repeat split. Qed.

(** Two identical trajectories have an error series of zeros. *)
Example identical_trajectories_no_error :
  let d := level_flight 3 100 in
  horizontal (computePositionError (host := SampleHost.host) d d)
  = [0; 0; 0]%float
  /\ error3d (computePositionError (host := SampleHost.host) d d)
     = [0; 0; 0]%float.
Proof. split; vm_compute; reflexivity. Qed.

(** ** Binary64 facts

    The primitive operations are specified by [Prim2SF] on the inductive
    view [spec_float]; the facts below are proved on that view. *)

Module FloatFacts.

Lemma pos_compare_cont_Eq m1 m2 :
  Pos.compare_cont Eq m1 m2 = Pos.compare m1 m2.
Proof. reflexivity. Qed.

Ltac cmp_cases :=
  repeat match goal with
  | |- context [Z.compare ?a ?b] => destruct (Z.compare_spec a b); subst
  | |- context [Pos.compare_cont Eq ?a ?b] =>
      rewrite (pos_compare_cont_Eq a b);
      destruct (Pos.compare_spec a b); subst
  end.

Lemma SFcompare_antisym x y :
  SFcompare y x = option_map CompOpp (SFcompare x y).
Proof.
  destruct x as [sx|sx| |sx mx ex], y as [sy|sy| |sy my ey]; simpl;
    try reflexivity;
    try (destruct sx; reflexivity); try (destruct sy; reflexivity);
    try (destruct sx, sy; reflexivity).
  destruct sx, sy; simpl; try reflexivity; f_equal;
    cmp_cases; simpl; try reflexivity; lia.
Qed.

Lemma SFcompare_refl x : x <> S754_nan -> SFcompare x x = Some Eq.
Proof.
  destruct x as [s|s| |s m e]; simpl; try congruence; intros _.
  - destruct s; reflexivity.
  - destruct s; rewrite Z.compare_refl, pos_compare_cont_Eq,
      Pos.compare_refl; reflexivity.
Qed.

(** The comparison is transitive on what it orders. *)
Lemma SFcompare_trans x y z c1 c2 :
  SFcompare x y = Some c1 -> SFcompare y z = Some c2 ->
  c1 <> Gt -> c2 <> Gt ->
  exists c3, SFcompare x z = Some c3 /\ c3 <> Gt /\
             (c1 = Lt \/ c2 = Lt -> c3 = Lt).
Proof.
  intros H1 H2 N1 N2.
  destruct x as [sx|sx| |sx mx ex], y as [sy|sy| |sy my ey],
           z as [sz|sz| |sz mz ez];
    simpl in *; try discriminate;
    repeat match goal with s : bool |- _ => destruct s end; simpl in *;
    try (injection H1 as <-; injection H2 as <-;
         try congruence;
         eexists; split; [reflexivity|]; split;
         [discriminate || congruence | intros [?|?]; congruence ]).
  all: injection H1 as <-; injection H2 as <-.
  all: eexists; split; [reflexivity|].
  all: revert N1 N2; cmp_cases; simpl; intros; try congruence; try lia;
    try (split; [discriminate| intros [?|?]; congruence || reflexivity]).
Qed.










(** *** The same facts on primitive floats *)

Lemma is_nan_spec x : is_nan x = false <-> Prim2SF x <> S754_nan.
Proof.
  unfold is_nan. rewrite FloatAxioms.eqb_spec. unfold SFeqb.
  destruct (Prim2SF x) as [s|s| |s m e] eqn:E.
  - rewrite SFcompare_refl by discriminate. simpl. split; [discriminate|auto].
  - rewrite SFcompare_refl by discriminate. simpl. split; [discriminate|auto].
  - simpl. split; [discriminate|congruence].
  - rewrite SFcompare_refl by discriminate. simpl. split; [discriminate|auto].
Qed.

Lemma Prim2SF_infinity : Prim2SF infinity = S754_infinity false.
Proof. reflexivity. Qed.

Lemma is_number_spec x : is_number x = true <-> sf_number (Prim2SF x).
Proof.
  unfold is_number, is_infinity, is_nan.
  rewrite !FloatAxioms.eqb_spec, FloatAxioms.abs_spec, Prim2SF_infinity.
  unfold SFeqb.
  destruct (Prim2SF x) as [s|s| |s m e] eqn:E.
  - simpl. tauto.
  - simpl. split; [|tauto]. destruct s; discriminate.
  - simpl. split; [discriminate|tauto].
  - rewrite SFcompare_refl by discriminate. simpl. tauto.
Qed.


Lemma leb_not_nan_l x y : PrimFloat.leb x y = true -> is_nan x = false.
Proof.
  rewrite FloatAxioms.leb_spec, is_nan_spec. unfold SFleb.
  destruct (Prim2SF x); simpl; congruence.
Qed.




(** *** Order *)

Lemma ltb_leb x y : PrimFloat.ltb x y = true -> PrimFloat.leb x y = true.
Proof.
  rewrite FloatAxioms.ltb_spec, FloatAxioms.leb_spec. unfold SFltb, SFleb.
  destruct (SFcompare _ _) as [[]|]; congruence.
Qed.

Lemma leb_refl x : is_nan x = false -> PrimFloat.leb x x = true.
Proof.
  rewrite is_nan_spec, FloatAxioms.leb_spec. unfold SFleb.
  intros Hx. rewrite SFcompare_refl by assumption. reflexivity.
Qed.

Lemma SFcompare_some x y :
  x <> S754_nan -> y <> S754_nan -> exists c, SFcompare x y = Some c.
Proof.
  destruct x, y; simpl; try congruence; eauto.
Qed.

Lemma not_ltb_leb x y :
  is_nan x = false -> is_nan y = false ->
  PrimFloat.ltb x y = false -> PrimFloat.leb y x = true.
Proof.
  rewrite !is_nan_spec, FloatAxioms.ltb_spec, FloatAxioms.leb_spec.
  unfold SFltb, SFleb. rewrite (SFcompare_antisym (Prim2SF x) (Prim2SF y)).
  intros Hx Hy. destruct (SFcompare_some _ _ Hx Hy) as [c ->].
  destruct c; simpl; congruence.
Qed.

Lemma leb_trans x y z :
  PrimFloat.leb x y = true -> PrimFloat.leb y z = true ->
  PrimFloat.leb x z = true.
Proof.
  rewrite !FloatAxioms.leb_spec. unfold SFleb.
  destruct (SFcompare (Prim2SF x) _) as [c1|] eqn:E1; [|discriminate].
  destruct (SFcompare (Prim2SF y) _) as [c2|] eqn:E2; [|discriminate].
  intros H1 H2.
  destruct (SFcompare_trans _ _ _ _ _ E1 E2) as (c3 & -> & H3 & _);
    destruct c1, c2; try discriminate; destruct c3; congruence.
Qed.

Lemma ltb_leb_trans x y z :
  PrimFloat.ltb x y = true -> PrimFloat.leb y z = true ->
  PrimFloat.ltb x z = true.
Proof.
  rewrite !FloatAxioms.ltb_spec, FloatAxioms.leb_spec. unfold SFleb, SFltb.
  destruct (SFcompare (Prim2SF x) _) as [c1|] eqn:E1; [|discriminate].
  destruct (SFcompare (Prim2SF y) _) as [c2|] eqn:E2; [|discriminate].
  intros H1 H2.
  destruct (SFcompare_trans _ _ _ _ _ E1 E2) as (c3 & -> & H3 & H4);
    destruct c1, c2; try discriminate; rewrite H4 by auto; reflexivity.
Qed.

Lemma leb_ltb_trans x y z :
  PrimFloat.leb x y = true -> PrimFloat.ltb y z = true ->
  PrimFloat.ltb x z = true.
Proof.
  rewrite !FloatAxioms.ltb_spec, FloatAxioms.leb_spec. unfold SFleb, SFltb.
  destruct (SFcompare (Prim2SF x) _) as [c1|] eqn:E1; [|discriminate].
  destruct (SFcompare (Prim2SF y) _) as [c2|] eqn:E2; [|discriminate].
  intros H1 H2.
  destruct (SFcompare_trans _ _ _ _ _ E1 E2) as (c3 & -> & H3 & H4);
    destruct c1, c2; try discriminate; rewrite H4 by auto; reflexivity.
Qed.


(** *** Values at or beyond +1 and -1 *)

Lemma SFleb_pos_abs m1 e1 X :
  SFleb (S754_finite false m1 e1) X = true ->
  SFabs X = X /\ SFltb (S754_zero false) X = true.
Proof.
  unfold SFleb, SFltb.
  destruct X as [s|s| |s m e]; simpl; try discriminate;
    destruct s; try discriminate; auto.
Qed.

Lemma SFleb_neg_abs m1 e1 X :
  SFleb X (S754_finite true m1 e1) = true ->
  SFleb (S754_finite false m1 e1) (SFabs X) = true
  /\ SFltb X (S754_zero false) = true
  /\ SFltb (S754_zero false) X = false.
Proof.
  unfold SFleb, SFltb.
  destruct X as [s|s| |s m e]; simpl; try discriminate;
    destruct s; try discriminate; auto.
  cmp_cases; simpl; try discriminate; auto; lia.
Qed.

Lemma Prim2SF_eq x y : Prim2SF x = Prim2SF y -> x = y.
Proof. apply Prim2SF_inj. Qed.

Lemma nan_spec x : Prim2SF x = S754_nan -> x = nan.
Proof. intros Hx. apply Prim2SF_inj. rewrite Hx. reflexivity. Qed.

(** *** Arithmetic on [NaN] *)

Lemma mul_nan_l x : (nan * x)%float = nan.
Proof.
  apply Prim2SF_inj. rewrite FloatAxioms.mul_spec.
  change (Prim2SF nan) with S754_nan. reflexivity.
Qed.

Lemma add_nan_l x : (nan + x)%float = nan.
Proof.
  apply Prim2SF_inj. rewrite FloatAxioms.add_spec.
  change (Prim2SF nan) with S754_nan. reflexivity.
Qed.

End FloatFacts.

(* ===================================================================== *)
(** ** Chase camera *)
(* ===================================================================== *)

Section ChaseCameraFacts.
Import FloatFacts.
Local Open Scope float_scope.











End ChaseCameraFacts.

Section ChaseCameraBounds.
Import FloatFacts.
Local Open Scope float_scope.




Example chase_run_example :
  let evs :=
    [mousedown {| clientX := 10; clientY := 10 |};
     mousemove {| clientX := 400; clientY := 100000 |};
     wheel 1000000;
     wheel (-1000000000)] in
  elevation (chaseCameraState (run evs initial_chase)) = elevation_max
  /\ distance (chaseCameraState (run evs initial_chase)) = 5.
Proof. split; vm_compute; reflexivity. Qed.

End ChaseCameraBounds.

(* ===================================================================== *)
(** ** Playback *)
(* ===================================================================== *)

Section PlaybackFacts.

(** C3. While playing with a loaded test store, one frame sets the index
    to [min(N - 1, index + 5)], whatever the frame time: below the last
    sample the index has advanced by exactly 5 and playback goes on; once
    the last sample is reached the index is [N - 1] and playback is
    paused. *)
Theorem animate_tick (s : Player) (d : Store) (t now : float) :
  testData s = Some d ->
  isPlaying (playback s) = true ->
  let N := Z.of_nat (length (time d)) in
  let i := index (playback s) in
  let s' := animate t now s in
  index (playback s') = Z.min (N - 1) (i + 5)%Z
  /\ (i + 5 < N - 1 ->
      index (playback s') = i + 5 /\ isPlaying (playback s') = true)%Z
  /\ (N - 1 <= i + 5 ->
      index (playback s') = N - 1 /\ isPlaying (playback s') = false)%Z
  /\ (forall t' now',
        index (playback (animate t' now' s)) = index (playback s')
        /\ isPlaying (playback (animate t' now' s))
           = isPlaying (playback s')).
Proof.
  intros Hd Hp N i s'.
  assert (Hstep : forall t' now',
    index (playback (animate t' now' s)) = Z.min (N - 1) (i + 5)
    /\ isPlaying (playback (animate t' now' s))
       = negb (Z.min (N - 1) (i + 5) >=? N - 1)%Z).
  { intros t' now'. unfold animate. rewrite Hd, Hp.
    unfold last_index, speedMultiplier. fold N. fold i.
    destruct (Z.min (N - 1) (i + 5) >=? N - 1)%Z; simpl.
    - unfold togglePlay; simpl. rewrite ?Hd. simpl. split; reflexivity.
    - split; reflexivity. }
  destruct (Hstep t now) as [Hi Hpl]. fold s' in Hi, Hpl.
  split; [exact Hi|]. split; [|split].
  - intros Hlt. rewrite Hi, Hpl.
    destruct (Z.geb_spec (Z.min (N - 1) (i + 5)) (N - 1)); simpl; split; lia.
  - intros Hge. rewrite Hi, Hpl.
    destruct (Z.geb_spec (Z.min (N - 1) (i + 5)) (N - 1)); simpl; split; lia.
  - intros t' now'. destruct (Hstep t' now') as [Hi' Hpl'].
    rewrite Hi, Hpl, Hi', Hpl'. split; reflexivity.
Qed.


Lemma animate_tick_witness :
  let s := player_at (level_flight 12 100) true 3 in
  let s1 := player_at (level_flight 12 100) true 8 in
  (index (playback (animate 16 16 s)) = 8%Z
   /\ isPlaying (playback (animate 16 16 s)) = true)
  /\ (index (playback (animate 33 33 s1)) = 11%Z
      /\ isPlaying (playback (animate 33 33 s1)) = false).
Proof.
  intros s s1. split.
  - destruct (animate_tick s (level_flight 12 100) 16 16 eq_refl eq_refl)
      as (_ & Hadvance & _).
    apply Hadvance. vm_compute. reflexivity.
  - destruct (animate_tick s1 (level_flight 12 100) 33 33 eq_refl eq_refl)
      as (_ & _ & Hclamp & _).
    apply Hclamp. vm_compute. discriminate.
Defined.

(** C4 (as the code has it). [togglePlay] does nothing while no test
    store is loaded.  With a loaded store, of whatever length, a paused
    player starts playing, its index first reset to 0 when it is at or
    beyond the last sample; a second call pauses it again and leaves the
    index alone. *)
Theorem togglePlay_transitions (s : Player) (now now' : float) :
  (testData s = None -> togglePlay now s = s)
  /\ (forall d, testData s = Some d -> isPlaying (playback s) = false ->
      let s1 := togglePlay now s in
      let s2 := togglePlay now' s1 in
      isPlaying (playback s1) = true
      /\ index (playback s1)
         = (if (index (playback s) >=? Z.of_nat (length (time d)) - 1)%Z
            then 0%Z else index (playback s))
      /\ isPlaying (playback s2) = false
      /\ index (playback s2) = index (playback s1)).
Proof.
  split.
  - intros Hn. unfold togglePlay. rewrite Hn. reflexivity.
  - intros d Hd Hp. unfold togglePlay. rewrite Hd, Hp. simpl.
    rewrite ?Hd. simpl. repeat split; reflexivity.
Qed.

Lemma togglePlay_transitions_witness :
  let s := player_at (level_flight 12 100) false 11 in
  isPlaying (playback (togglePlay 5 s)) = true
  /\ index (playback (togglePlay 5 s)) = 0%Z
  /\ isPlaying (playback (togglePlay 9 (togglePlay 5 s))) = false
  /\ index (playback (togglePlay 9 (togglePlay 5 s)))
     = index (playback (togglePlay 5 s)).
Proof.
  intros s.
  exact (proj2 (togglePlay_transitions s 5 9) (level_flight 12 100)
           eq_refl eq_refl).
Defined.

(** C4 as stated fails: with an empty test store loaded, [togglePlay]
    is not a no-op, the paused player starts playing. *)
Lemma togglePlay_empty_store_plays :
  let s := player_at empty_store false 0 in
  length (time empty_store) = 0%nat
  /\ isPlaying (playback s) = false
  /\ isPlaying (playback (togglePlay 0 s)) = true
  /\ togglePlay 0 s <> s.
Proof.
  intros s. repeat split. discriminate.
Qed.

End PlaybackFacts.

(* ===================================================================== *)
(** ** Zoom history *)
(* ===================================================================== *)

Section ZoomFacts.
Context {lib : ChartLib}.

Lemma push_bounded_length (h : list ZoomState) (state : ZoomState) :
  (length h <= capacity)%nat ->
  (length (push_bounded h state) <= capacity)%nat.
Proof.
  intros Hh. unfold push_bounded, push.
  destruct (Nat.ltb_spec capacity (length (h ++ [state]))) as [Hgt|Hle].
  - destruct h as [|x h]; simpl in *; [lia|].
    rewrite length_app in *. simpl in *. lia.
  - exact Hle.
Qed.

(** Below capacity the snapshot is appended. *)
Lemma push_bounded_appends (h : list ZoomState) (state : ZoomState) :
  (length h < capacity)%nat -> push_bounded h state = h ++ [state].
Proof.
  intros Hh. unfold push_bounded, push.
  destruct (Nat.ltb_spec capacity (length (h ++ [state]))) as [Hgt|Hle];
    [|reflexivity].
  rewrite length_app in Hgt. simpl in Hgt. lia.
Qed.

(** At capacity the oldest snapshot is dropped, the new one is last. *)
Lemma push_bounded_evicts (h : list ZoomState) (state : ZoomState) :
  length h = capacity -> push_bounded h state = tail h ++ [state].
Proof.
  intros Hh. unfold push_bounded, push.
  destruct (Nat.ltb_spec capacity (length (h ++ [state]))) as [Hgt|Hle].
  - destruct h as [|x h]; [discriminate|reflexivity].
  - rewrite length_app in Hle. simpl in Hle. lia.
Qed.

Lemma pop_inv {A : Type} (a : list A) (x : A) (r : list A) :
  pop a = Some (x, r) -> a = r ++ [x].
Proof.
  unfold pop. destruct (rev a) as [|y l] eqn:E; [discriminate|].
  intros [= <- <-]. rewrite <- (rev_involutive a), E. reflexivity.
Qed.

Lemma pop_snoc {A : Type} (r : list A) (x : A) : pop (r ++ [x]) = Some (x, r).
Proof.
  unfold pop. rewrite rev_app_distr. simpl. rewrite rev_involutive.
  reflexivity.
Qed.

Lemma zoomHistory_set_chart n c st :
  zoomHistory (set_chart n c st) = zoomHistory st.
Proof. unfold set_chart. destruct (String.eqb n "modal"); reflexivity. Qed.

Lemma initial_history_bounded cs m : bounded_history (zoom_with cs m).
Proof.
  intros n h. unfold zoom_with, initial_history; simpl.
  rewrite !lookup_insert, lookup_empty.
  repeat case_decide; intros [= <-]; simpl; unfold capacity; lia.
Qed.

Lemma saveZoomState_bounded n chart st :
  bounded_history st -> bounded_history (saveZoomState n chart st).
Proof.
  intros Hst m h. unfold saveZoomState; simpl.
  rewrite lookup_insert. case_decide as E; [|apply Hst].
  intros [= <-]. apply push_bounded_length.
  destruct (zoomHistory st !! n) as [h0|] eqn:E0; simpl.
  - eapply Hst, E0.
  - unfold capacity. lia.
Qed.

Lemma zoom_step_bounded op st :
  bounded_history st -> bounded_history (zoom_step op st).
Proof.
  intros Hst. destruct op as [n|n|n| |n c|c| ]; simpl; try exact Hst.
  - unfold onZoomStart. destruct (chart_named n st); [|exact Hst].
    apply saveZoomState_bounded, Hst.
  - unfold undoZoom.
    destruct (chart_named n st) as [chart|]; [|exact Hst].
    destruct (zoomHistory st !! n) as [h0|] eqn:E0; [|exact Hst].
    destruct (pop h0) as [[prev rest]|] eqn:Ep; [|exact Hst].
    simpl. intros m h. rewrite zoomHistory_set_chart. simpl.
    rewrite lookup_insert. case_decide as E; [|apply Hst].
    intros [= <-]. apply pop_inv in Ep. subst h0.
    specialize (Hst n _ E0). rewrite length_app in Hst. simpl in Hst. lia.
  - unfold reset_click. destruct (charts st !! n); [|exact Hst].
    intros m h. simpl. rewrite lookup_insert. case_decide as E; [|apply Hst].
    intros [= <-]. simpl. lia.
  - unfold modal_reset_click. destruct (modalChart st); [|exact Hst].
    intros m h. simpl. rewrite lookup_insert. case_decide as E; [|apply Hst].
    intros [= <-]. simpl. lia.
Qed.

Lemma zoom_run_bounded ops : forall st,
  bounded_history st -> bounded_history (zoom_run ops st).
Proof.
  induction ops as [|op ops IH]; intros st Hst; simpl; [exact Hst|].
  apply IH, zoom_step_bounded, Hst.
Qed.

(** C6. Whatever charts exist and whatever sequence of zoom starts,
    undos, resets and chart (re)creations happens, no view's zoom history
    ever holds more than 20 entries; a snapshot pushed onto a history of
    20 evicts the oldest entry and becomes the newest. *)
Theorem zoom_history_capacity
    (cs : gmap string Chart) (m : option Chart) (ops : list ZoomOp) :
  (forall (chartName : string) (h : list ZoomState),
      zoomHistory (zoom_run ops (zoom_with cs m)) !! chartName = Some h ->
      (length h <= 20)%nat)
  /\ (forall (st : ZoomCtl) (chartName : string) (chart : Chart)
             (h : list ZoomState),
        zoomHistory st !! chartName = Some h -> length h = 20%nat ->
        zoomHistory (saveZoomState chartName chart st) !! chartName
        = Some (tail h ++ [scales chart])).
Proof.
  split.
  - apply zoom_run_bounded, initial_history_bounded.
  - intros st n chart h Hh Hlen. unfold saveZoomState; simpl.
    rewrite lookup_insert_eq, Hh. simpl.
    rewrite push_bounded_evicts by exact Hlen. reflexivity.
Qed.

(** C7. With the view's chart present, [undoZoom] on a history whose
    most recent snapshot is [prevState] returns [true], removes that
    snapshot and hands its two ranges to the chart ([zoomScale] on x, then
    on y, then [update]).  On an empty or absent history it returns
    [false] and changes nothing; so it does right after a reset, which
    leaves the history empty. *)
Theorem undoZoom_pops_or_reports
    (chartName : string) (st : ZoomCtl) :
  (forall (chart : Chart) (h : list ZoomState) (prevState : ZoomState),
      chart_named chartName st = Some chart ->
      zoomHistory st !! chartName = Some (h ++ [prevState]) ->
      let st' := snd (undoZoom chartName st) in
      fst (undoZoom chartName st) = true
      /\ zoomHistory st' !! chartName = Some h
      /\ chart_named chartName st'
         = Some (update
                   (zoomScale
                      (zoomScale chart axis_x (zoom_x prevState))
                      axis_y (zoom_y prevState))))
  /\ (zoomHistory st !! chartName = Some []
      \/ zoomHistory st !! chartName = None ->
      undoZoom chartName st = (false, st))
  /\ (forall (chart : Chart),
        charts st !! chartName = Some chart ->
        zoomHistory (reset_click chartName st) !! chartName = Some []
        /\ undoZoom chartName (reset_click chartName st)
           = (false, reset_click chartName st))
  /\ (forall (chart : Chart),
        modalChart st = Some chart ->
        zoomHistory (modal_reset_click st) !! "modal"%string = Some []
        /\ undoZoom "modal" (modal_reset_click st)
           = (false, modal_reset_click st)).
Proof.
  assert (Hempty : forall n s,
    zoomHistory s !! n = Some [] \/ zoomHistory s !! n = None ->
    undoZoom n s = (false, s)).
  { intros n s Hh. unfold undoZoom.
    destruct (chart_named n s); [|reflexivity].
    destruct Hh as [-> | ->]; reflexivity. }
  split; [|split; [|split]].
  - intros chart h prevState Hc Hh. unfold undoZoom.
    rewrite Hc, Hh, pop_snoc. simpl.
    rewrite zoomHistory_set_chart. simpl. rewrite lookup_insert_eq.
    split; [reflexivity|]. split; [reflexivity|].
    unfold chart_named, set_chart.
    destruct (String.eqb chartName "modal") eqn:E; simpl.
    + reflexivity.
    + apply lookup_insert_eq.
  - apply Hempty.
  - intros chart Hc.
    assert (Hr : zoomHistory (reset_click chartName st) !! chartName
                 = Some []).
    { unfold reset_click. rewrite Hc. simpl. apply lookup_insert_eq. }
    split; [exact Hr|]. apply Hempty. left. exact Hr.
  - intros chart Hc.
    assert (Hr : zoomHistory (modal_reset_click st) !! "modal"%string
                 = Some []).
    { unfold modal_reset_click. rewrite Hc. simpl. apply lookup_insert_eq. }
    split; [exact Hr|]. apply Hempty. left. exact Hr.
Qed.

End ZoomFacts.

Section ZoomWitnesses.

(** Twenty-five zoom starts on one chart leave twenty snapshots. *)
Lemma zoom_history_capacity_witness :
  let chart := sample_chart (sample_view 10 20 0 1) in
  let ops :=
    op_create (lib := SampleChart.lib) "attitude" chart
    :: repeat (op_zoom_start "attitude") 25 in
  exists h : list ZoomState,
    zoomHistory (zoom_run ops (zoom_with ∅ None)) !! "attitude"%string
    = Some h
    /\ (length h <= 20)%nat.
Proof.
  intros chart ops.
  exists (repeat (sample_view 10 20 0 1) 20).
  assert (Hh : zoomHistory (zoom_run ops (zoom_with ∅ None))
                 !! "attitude"%string
               = Some (repeat (sample_view 10 20 0 1) 20))
    by (vm_compute; reflexivity).
  split; [exact Hh|].
  exact (proj1 (zoom_history_capacity (lib := SampleChart.lib) ∅ None ops)
           "attitude"%string _ Hh).
Defined.

(** A zoom start saves the view; the undo restores it on the chart. *)
Lemma undoZoom_pops_or_reports_witness :
  let before := sample_view 10 20 0 1 in
  let st :=
    {| charts :=
         {[ "attitude"%string := sample_chart (sample_view 12 14 0 1) ]};
       modalChart := None;
       zoomHistory := <["attitude"%string := [] ++ [before]]>
                        initial_history |} in
  fst (undoZoom (lib := SampleChart.lib) "attitude" st) = true
  /\ zoomHistory (snd (undoZoom (lib := SampleChart.lib) "attitude" st))
       !! "attitude"%string = Some []
  /\ chart_named (lib := SampleChart.lib) "attitude"
       (snd (undoZoom (lib := SampleChart.lib) "attitude" st))
     = Some (SampleChart.upd
               (SampleChart.zoom
                  (SampleChart.zoom (sample_chart (sample_view 12 14 0 1))
                     axis_x (sample_range 10 20))
                  axis_y (sample_range 0 1))).
Proof.
  intros before st.
  exact (proj1 (undoZoom_pops_or_reports (lib := SampleChart.lib)
                  "attitude" st)
           (sample_chart (sample_view 12 14 0 1)) [] before
           eq_refl eq_refl).
Defined.

End ZoomWitnesses.

(* ===================================================================== *)
(** ** Loops that push *)
(* ===================================================================== *)

Section Loops.
Context {host : Host}.
Local Open Scope float_scope.

Lemma lookup_map_seq {B : Type} (f : nat -> B) (n i : nat) :
  (i < n)%nat -> List.map f (seq 0 n) !! i = Some (f i).
Proof.
  intros Hi. rewrite list_lookup_fmap.
  rewrite lookup_seq_lt by exact Hi. reflexivity.
Qed.

Lemma at_lookup (a : list float) (i : nat) (x : float) :
  a !! i = Some x -> at_ a i = x.
Proof.
  intros Hx. unfold at_, elem.
  destruct (Z.ltb_spec (Z.of_nat i) 0) as [Hneg|_]; [lia|].
  rewrite Nat2Z.id.
  assert (Hn : nth_error a i = Some x).
  { revert i Hx. induction a as [|y a IH]; intros [|i]; simpl;
      try discriminate; auto. }
  rewrite Hn. reflexivity.
Qed.

Lemma quaternionToEuler_map (qw qx qy qz : list float) :
  quaternionToEuler qw qx qy qz
  = {| roll := List.map (fun i => to_degrees (roll_at qw qx qy qz i))
                 (seq 0 (length qw));
       pitch := List.map (fun i => to_degrees (pitch_at qw qx qy qz i))
                  (seq 0 (length qw));
       yaw := List.map (fun i => to_degrees (yaw_at qw qx qy qz i))
                (seq 0 (length qw)) |}.
Proof.
  unfold quaternionToEuler, for_upto.
  generalize (seq 0 (length qw)) as l.
  assert (Hgen : forall l r p y,
    fold_left
      (fun acc i =>
         {| roll := push (roll acc) (to_degrees (roll_at qw qx qy qz i));
            pitch := push (pitch acc) (to_degrees (pitch_at qw qx qy qz i));
            yaw := push (yaw acc) (to_degrees (yaw_at qw qx qy qz i)) |})
      l {| roll := r; pitch := p; yaw := y |}
    = {| roll := r ++ List.map (fun i => to_degrees (roll_at qw qx qy qz i)) l;
         pitch :=
           p ++ List.map (fun i => to_degrees (pitch_at qw qx qy qz i)) l;
         yaw := y ++ List.map (fun i => to_degrees (yaw_at qw qx qy qz i)) l
      |}).
  { induction l as [|i l IH]; intros r p y; simpl.
    - rewrite !app_nil_r. reflexivity.
    - rewrite IH. unfold push. rewrite <- !app_assoc. reflexivity. }
  intros l. simpl. apply (Hgen l [] [] []).
Qed.

Lemma computePositionError_map (ref test : Store) :
  let idx := seq 0 (Nat.min (length (lat ref)) (length (lat test))) in
  computePositionError ref test
  = {| err_north := List.map (ne_at ref test) idx;
       err_east := List.map (ee_at ref test) idx;
       err_down := List.map (de_at ref test) idx;
       horizontal := List.map (he_at ref test) idx;
       error3d := List.map (e3d_at ref test) idx |}.
Proof.
  unfold computePositionError, for_upto.
  generalize (seq 0 (Nat.min (length (lat ref)) (length (lat test)))) as l.
  assert (Hgen : forall l a b c d e,
    fold_left
      (fun errors i =>
         {| err_north := push (err_north errors) (ne_at ref test i);
            err_east := push (err_east errors) (ee_at ref test i);
            err_down := push (err_down errors) (de_at ref test i);
            horizontal := push (horizontal errors) (he_at ref test i);
            error3d := push (error3d errors) (e3d_at ref test i) |})
      l {| err_north := a; err_east := b; err_down := c;
           horizontal := d; error3d := e |}
    = {| err_north := a ++ List.map (ne_at ref test) l;
         err_east := b ++ List.map (ee_at ref test) l;
         err_down := c ++ List.map (de_at ref test) l;
         horizontal := d ++ List.map (he_at ref test) l;
         error3d := e ++ List.map (e3d_at ref test) l |}).
  { induction l as [|i l IH]; intros a b c d e; simpl.
    - rewrite !app_nil_r. reflexivity.
    - rewrite IH. unfold push. rewrite <- !app_assoc. reflexivity. }
  intros l. simpl. apply (Hgen l [] [] [] [] []).
Qed.

End Loops.

(* ===================================================================== *)
(** ** Quaternion to Euler *)
(* ===================================================================== *)

Section EulerFacts.
Context {host : Host}.
Import FloatFacts.
Local Open Scope float_scope.

(** At or above 1: the absolute value reaches 1 and the sign is 1. *)
Lemma sign_above_one x :
  (1 <=? x) = true -> geb (Math.abs x) 1 = true /\ Math.sign x = 1.
Proof.
  intros Hx.
  pose proof Hx as Hs. rewrite FloatAxioms.leb_spec in Hs.
  change (Prim2SF 1) with (S754_finite false 4503599627370496 (-52)) in Hs.
  destruct (SFleb_pos_abs _ _ _ Hs) as [Habs Hpos].
  assert (Hnx : is_nan x = false).
  { apply is_nan_spec. intros E. rewrite E in Hs. discriminate. }
  assert (Ha : Math.abs x = x).
  { apply Prim2SF_inj. unfold Math.abs. rewrite FloatAxioms.abs_spec.
    exact Habs. }
  split.
  - unfold geb. rewrite Ha. exact Hx.
  - unfold Math.sign. rewrite Hnx.
    rewrite (FloatAxioms.ltb_spec 0 x).
    change (Prim2SF 0) with (S754_zero false). rewrite Hpos. reflexivity.
Qed.

(** At or below -1: the absolute value reaches 1 and the sign is -1. *)
Lemma sign_below_minus_one x :
  (x <=? -1) = true -> geb (Math.abs x) 1 = true /\ Math.sign x = -1.
Proof.
  intros Hx. pose proof (leb_not_nan_l _ _ Hx) as Hnx.
  pose proof Hx as Hs. rewrite FloatAxioms.leb_spec in Hs.
  change (Prim2SF (-1)) with (S754_finite true 4503599627370496 (-52)) in Hs.
  destruct (SFleb_neg_abs _ _ _ Hs) as (Habs & Hneg & Hnpos).
  split.
  - unfold geb, Math.abs. rewrite FloatAxioms.leb_spec, FloatAxioms.abs_spec.
    exact Habs.
  - unfold Math.sign. rewrite Hnx.
    rewrite (FloatAxioms.ltb_spec 0 x), (FloatAxioms.ltb_spec x 0).
    change (Prim2SF 0) with (S754_zero false). rewrite Hnpos, Hneg.
    reflexivity.
Qed.

(** C1. [quaternionToEuler] yields one roll, pitch and yaw per
    quaternion sample; for the sample [(w, x, y, z)] at index [i] they are,
    converted to degrees, [atan2(2(wx + yz), 1 - 2(x^2 + y^2))], the pitch
    below, and [atan2(2(wz + xy), 1 - 2(y^2 + z^2))].  With
    [s = 2(wy - zx)], the pitch is [sign(s) * PI / 2] when [|s| >= 1] and
    [asin(s)] otherwise; so it is exactly [PI/2] for [s >= 1] and exactly
    [-PI/2] for [s <= -1]. *)
Theorem quaternionToEuler_per_sample (d : Store) :
  let e := quaternionToEuler (qw d) (qx d) (qy d) (qz d) in
  length (roll e) = length (qw d)
  /\ length (pitch e) = length (qw d)
  /\ length (yaw e) = length (qw d)
  /\ (forall (i : nat) (w x y z : float),
        qw d !! i = Some w -> qx d !! i = Some x ->
        qy d !! i = Some y -> qz d !! i = Some z ->
        let s := 2 * (w * y - z * x) in
        roll e !! i
        = Some (Math.atan2 (2 * (w * x + y * z)) (1 - 2 * (x * x + y * y))
                * 180 / Math.PI)
        /\ pitch e !! i
           = Some ((if geb (Math.abs s) 1 then Math.sign s * Math.PI / 2
                    else Math.asin s) * 180 / Math.PI)
        /\ yaw e !! i
           = Some (Math.atan2 (2 * (w * z + x * y)) (1 - 2 * (y * y + z * z))
                   * 180 / Math.PI)
        /\ ((1 <=? s) = true ->
            pitch e !! i = Some (Math.PI / 2 * 180 / Math.PI))
        /\ ((s <=? -1) = true ->
            pitch e !! i = Some (- (Math.PI / 2) * 180 / Math.PI))).
Proof.
  intros e. subst e. rewrite quaternionToEuler_map. simpl.
  rewrite !length_map, !length_seq.
  split; [reflexivity|]. split; [reflexivity|]. split; [reflexivity|].
  intros i w x y z Hw Hx Hy Hz.
  assert (Hi : (i < length (qw d))%nat) by (eapply lookup_lt_Some, Hw).
  rewrite !lookup_map_seq by exact Hi.
  unfold to_degrees, roll_at, pitch_at, yaw_at, sinp_at.
  rewrite (at_lookup _ _ _ Hw), (at_lookup _ _ _ Hx),
    (at_lookup _ _ _ Hy), (at_lookup _ _ _ Hz).
  set (s := 2 * (w * y - z * x)).
  split; [reflexivity|]. split; [reflexivity|]. split; [reflexivity|].
  split.
  - intros Hs. destruct (sign_above_one s Hs) as [-> ->]. reflexivity.
  - intros Hs. destruct (sign_below_minus_one s Hs) as [-> ->]. reflexivity.
Qed.

End EulerFacts.

Lemma quaternionToEuler_per_sample_witness :
  let d := level_flight 3 100 in
  let e := quaternionToEuler (host := SampleHost.host)
             (qw d) (qx d) (qy d) (qz d) in
  roll e !! 1%nat = Some 0%float
  /\ pitch e !! 1%nat = Some 0%float
  /\ yaw e !! 1%nat = Some 0%float.
Proof.
  intros d e.
  destruct (quaternionToEuler_per_sample (host := SampleHost.host) d)
    as (_ & _ & _ & Hsample).
  destruct (Hsample 1%nat 1%float 0%float 0%float 0%float
              ltac:(vm_compute; reflexivity) ltac:(vm_compute; reflexivity)
              ltac:(vm_compute; reflexivity) ltac:(vm_compute; reflexivity))
    as (Hr & Hp & Hy & _).
  fold e in Hr, Hp, Hy. rewrite Hr, Hp, Hy.
  repeat split; vm_compute; reflexivity.
Defined.

(* ===================================================================== *)
(** ** Position error *)
(* ===================================================================== *)

Section PositionErrorFacts.
Context {host : Host}.
Local Open Scope float_scope.

(** The parts of C2 that hold: [min(N_ref, N_test)] entries in each of
    the five series, and at index [i] values computed from sample [i] of
    the two stores alone: north and east by the flat-Earth formula with the
    cosine of the reference sample's latitude, the horizontal and 3D errors
    as the roots of the sums of squares.  The entry of the [down] series is
    [alt_test - alt_ref]. *)
Lemma computePositionError_entries (ref test : Store) :
  let errors := computePositionError ref test in
  let n := Nat.min (length (lat ref)) (length (lat test)) in
  (length (err_north errors) = n /\ length (err_east errors) = n
   /\ length (err_down errors) = n /\ length (horizontal errors) = n
   /\ length (error3d errors) = n)
  /\ (forall (i : nat) (lat_r lon_r alt_r lat_t lon_t alt_t : float),
        lat ref !! i = Some lat_r -> lon ref !! i = Some lon_r ->
        alt ref !! i = Some alt_r ->
        lat test !! i = Some lat_t -> lon test !! i = Some lon_t ->
        alt test !! i = Some alt_t ->
        let ne := (lat_t - lat_r) * R_EARTH in
        let ee := (lon_t - lon_r) * R_EARTH * Math.cos lat_r in
        let de := alt_t - alt_r in
        err_north errors !! i = Some ne
        /\ err_east errors !! i = Some ee
        /\ err_down errors !! i = Some de
        /\ horizontal errors !! i = Some (Math.sqrt (ne * ne + ee * ee))
        /\ error3d errors !! i
           = Some (Math.sqrt (ne * ne + ee * ee + de * de))).
Proof.
  intros errors n. subst errors. rewrite computePositionError_map. simpl.
  rewrite !length_map, !length_seq. fold n.
  split; [repeat split; reflexivity|].
  intros i lat_r lon_r alt_r lat_t lon_t alt_t Hlr Hnr Har Hlt Hnt Hat.
  assert (Hi : (i < n)%nat).
  { apply lookup_lt_Some in Hlr. apply lookup_lt_Some in Hlt.
    unfold n. lia. }
  rewrite !lookup_map_seq by exact Hi.
  unfold he_at, e3d_at, ne_at, ee_at, de_at.
  rewrite (at_lookup _ _ _ Hlr), (at_lookup _ _ _ Hnr),
    (at_lookup _ _ _ Har), (at_lookup _ _ _ Hlt),
    (at_lookup _ _ _ Hnt), (at_lookup _ _ _ Hat).
  repeat split; reflexivity.
Qed.

(** C2, the down error.  A test sample 5 m above its reference sample
    is 5 m less far down, a down error of [-(105 - 100) = -5];
    [computePositionError] stores [+5] in the [down] series, where
    [convertToNED] negates the altitude difference. *)
Theorem computePositionError_down_sign :
  let ref := level_flight 1 100 in
  let test := level_flight 1 105 in
  err_down (computePositionError ref test) = [5]
  /\ down (convertToNED (lat test) (lon test) (alt test) 0 0 100) = [-5]
  /\ (5 =? - (105 - 100)) = false.
Proof.
  intros ref test. rewrite computePositionError_map.
  split; [|split]; vm_compute; reflexivity.
Qed.

End PositionErrorFacts.

(* ===================================================================== *)
(** ** Parsing *)
(* ===================================================================== *)

Section ParsingFacts.
Context {host : Host}.

Lemma channels_push_row (data : Store) (values : list float) (k : nat) :
  (k < 17)%nat ->
  nth k (channels (push_row data values)) []
  = nth k (channels data) [] ++ [col values k].
Proof.
  intros Hk.
  do 17 (destruct k as [|k]; [reflexivity|]). lia.
Qed.

Lemma channels_store_of_rows (rows : list (list float)) : forall data k,
  (k < 17)%nat ->
  nth k (channels (fold_left push_row rows data)) []
  = nth k (channels data) [] ++ List.map (fun values => col values k) rows.
Proof.
  induction rows as [|values rows IH]; intros data k Hk;
    cbn [fold_left List.map].
  - rewrite app_nil_r. reflexivity.
  - rewrite IH by exact Hk. rewrite channels_push_row by exact Hk.
    rewrite <- app_assoc. reflexivity.
Qed.

(** The [forEach] keeps the lines with at least 17 tokens, in order. *)
Lemma parse_lines_rows (lines : list string) : forall data,
  fold_left parse_line lines data
  = fold_left push_row
      (List.map (List.map parseFloat)
         (List.filter (fun toks => (17 <=? length toks)%nat)
            (List.map tokens lines)))
      data.
Proof.
  induction lines as [|line lines IH]; intros data;
    cbn [fold_left List.map List.filter]; [reflexivity|].
  rewrite IH. unfold parse_line, row_values. rewrite length_map.
  destruct (17 <=? length (tokens line))%nat; reflexivity.
Qed.

Lemma col_parse (toks : list string) (k : nat) (tok : string) :
  toks !! k = Some tok -> col (List.map parseFloat toks) k = parseFloat tok.
Proof.
  intros Hk. unfold col. apply at_lookup. rewrite list_lookup_fmap, Hk. reflexivity.
Qed.

(** C10. The rows of the store are the data lines with at least 17
    tokens, one sample per such line and in order, whatever the tokens are:
    every channel has as many entries as there are such lines, and entry [j]
    of channel [k] is [parseFloat] of token [k] of the [j]-th such line, so
    [NaN] when [parseFloat] finds no number in it. *)
Theorem parseTrajectoryFile_rows (content : string) :
  let rows :=
    List.filter (fun toks => (17 <=? length toks)%nat)
      (List.map tokens (data_lines content)) in
  let data := parseTrajectoryFile content in
  length (channels data) = 17%nat
  /\ (forall ch : list float, In ch (channels data) -> length ch = length rows)
  /\ (forall (j k : nat) (toks : list string) (tok : string)
             (ch : list float),
        rows !! j = Some toks -> (k < 17)%nat -> toks !! k = Some tok ->
        channels data !! k = Some ch ->
        ch !! j = Some (parseFloat tok)
        /\ (PrimFloat.is_nan (parseFloat tok) = true ->
            exists v, ch !! j = Some v /\ PrimFloat.is_nan v = true)).
Proof.
  intros rows data.
  assert (Hch : forall k, (k < 17)%nat ->
    nth k (channels data) []
    = List.map (fun toks => col (List.map parseFloat toks) k) rows).
  { intros k Hk. unfold data, parseTrajectoryFile.
    rewrite parse_lines_rows. fold rows.
    rewrite channels_store_of_rows by exact Hk.
    rewrite List.map_map.
    do 17 (destruct k as [|k]; [reflexivity|]). lia. }
  split; [reflexivity|]. split.
  - intros ch Hin. apply In_nth with (d := []) in Hin.
    destruct Hin as (k & Hk & <-). change (length (channels data)) with 17%nat in Hk.
    rewrite Hch by exact Hk. apply length_map.
  - intros j k toks tok ch Hj Hk Htok Hchk.
    assert (Hc : ch = nth k (channels data) []).
    { symmetry. apply nth_lookup_Some, Hchk. }
    assert (Hv : ch !! j = Some (parseFloat tok)).
    { rewrite Hc, Hch by exact Hk.
      rewrite list_lookup_fmap, Hj. simpl.
      rewrite (col_parse _ _ _ Htok). reflexivity. }
    split; [exact Hv|]. intros Hnan. eauto.
Qed.

End ParsingFacts.

Lemma parseTrajectoryFile_rows_witness :
  let content :=
    "time lat lon alt
0 1 x 3 4 5 6 7 8 9 10 11 12 13 14 15 16
7 8 9
"%string in
  let data := parseTrajectoryFile (host := SampleHost.host) content in
  lon data !! 0%nat = Some (SampleHost.parse "x")
  /\ PrimFloat.is_nan (SampleHost.parse "x") = true
  /\ length (time data) = 1%nat.
Proof.
  intros content data.
  destruct (parseTrajectoryFile_rows (host := SampleHost.host) content)
    as (_ & Hlen & Hrow).
  split; [|split].
  - refine (proj1 (Hrow 0%nat 2%nat
      ["0"; "1"; "x"; "3"; "4"; "5"; "6"; "7"; "8"; "9"; "10"; "11"; "12";
       "13"; "14"; "15"; "16"]%string "x"%string (lon data)
      ltac:(vm_compute; reflexivity) ltac:(lia) eq_refl eq_refl)).
  - reflexivity.
  - rewrite (Hlen (time data)) by (left; reflexivity).
    vm_compute. reflexivity.
Defined.

(* ===================================================================== *)
(** ** Statistics and plausibility checks *)
(* ===================================================================== *)

Section AnalysisFacts.
Context {host : Host}.
Import FloatFacts.
Local Open Scope float_scope.

Lemma parse_no_rows (content : string) :
  (forall line : string,
      In line (data_lines content) -> (length (tokens line) < 17)%nat) ->
  parseTrajectoryFile content = empty_store.
Proof.
  unfold parseTrajectoryFile. generalize (data_lines content) as lines.
  induction lines as [|line lines IH]; intros Hshort; [reflexivity|].
  cbn [fold_left]. unfold parse_line at 2, row_values.
  rewrite length_map.
  destruct (Nat.leb_spec 17 (length (tokens line))) as [Hge|_].
  - specialize (Hshort line (or_introl eq_refl)). lia.
  - apply IH. intros l Hl. apply Hshort. right. exact Hl.
Qed.

(** [arrayStats] of the empty array: both quotients have divisor 0. *)
Lemma arrayStats_empty :
  stats_divisor [] = 0
  /\ arrayStats []
     = {| mean := nan; min := infinity; max := neg_infinity; std := nan |}.
Proof. split; reflexivity. Qed.

Lemma analyzeTrajectory_empty :
  analyzeTrajectory empty_store
  = {| samples := 0;
       duration := nan;
       initial := {| ep_lat := nan; ep_lon := nan; ep_alt := None;
                     ep_vn := None; ep_ve := None; ep_vd := None |};
       final := {| ep_lat := nan; ep_lon := nan; ep_alt := None;
                   ep_vn := None; ep_ve := None; ep_vd := None |};
       drift := {| drift_north := nan; drift_east := nan;
                   drift_alt := nan; drift_total := nan |};
       speed := {| mean := nan; min := infinity; max := neg_infinity;
                   std := nan |};
       checks := {| altReasonable := true; speedReasonable := true;
                    quatNormalized := true;
                    altRange := (infinity, neg_infinity);
                    maxSpeed := neg_infinity;
                    quatRange := (infinity, neg_infinity) |} |}.
Proof.
  assert (He : forall i, elem [] i = None).
  { intros i. unfold elem. destruct (i <? 0)%Z; [reflexivity|].
    destruct (Z.to_nat i); reflexivity. }
  unfold analyzeTrajectory, endpoint.
  cbn [time lat lon alt vn ve vd empty_store].
  rewrite !He. vm_compute. rewrite !mul_nan_l. reflexivity.
Qed.

(** C8 (as the code has it). Input without a well-formed row gives
    the store with 17 empty channels.  For it [arrayStats] divides 0 by the
    length 0, so the mean and the standard deviation are [NaN], the minimum
    is [+Infinity] and the maximum [-Infinity]; [analyzeTrajectory] reports
    0 samples, a [NaN] duration and drift and undefined end points, its
    three plausibility checks hold, and the verdict passes. *)
Theorem empty_input_statistics (content : string) :
  (forall line : string,
      In line (data_lines content) -> (length (tokens line) < 17)%nat) ->
  let d := parseTrajectoryFile content in
  let a := analyzeTrajectory d in
  d = empty_store
  /\ (forall ch : list float, In ch (channels d) -> length ch = 0%nat)
  /\ stats_divisor (speed_of d) = 0
  /\ speed a
     = {| mean := 0 / 0; min := infinity; max := neg_infinity;
          std := Math.sqrt (0 / 0) |}
  /\ (is_nan (mean (speed a)) = true /\ is_nan (std (speed a)) = true)
  /\ samples a = 0%nat
  /\ is_nan (duration a) = true
  /\ is_nan (drift_total (drift a)) = true
  /\ ep_alt (initial a) = None
  /\ (altReasonable (checks a) = true /\ speedReasonable (checks a) = true
      /\ quatNormalized (checks a) = true)
  /\ passed (renderVerdict a) = true
  /\ issues (renderVerdict a) = [].
Proof.
  intros Hshort d a. subst a d.
  rewrite (parse_no_rows content Hshort), analyzeTrajectory_empty.
  split; [reflexivity|]. split.
  - intros ch Hin. simpl in Hin.
    repeat (destruct Hin as [<-|Hin]; [reflexivity|]). destruct Hin.
  - repeat split; reflexivity.
Qed.

(** [a > -1000 && a < 50000] fails at both ends of the interval.  *)
Lemma alt_ok_spec (a : float) :
  alt_ok a = true <-> (-1000 <? a) = true /\ (a <? 50000) = true.
Proof. unfold alt_ok, gtb. apply andb_true_iff. Qed.

(** C9 (as the code has it). The altitude check holds exactly when
    every altitude is strictly between -1000 and 50000.  A trajectory with
    a sample at 60000 m fails it: the verdict does not pass and its issue
    list contains the altitude issue. *)
Theorem altitude_check (d : Store) :
  let a := analyzeTrajectory d in
  (altReasonable (checks a) = true
   <-> (forall x : float,
          In x (alt d) -> (-1000 <? x) = true /\ (x <? 50000) = true))
  /\ (In 60000 (alt d) ->
      altReasonable (checks a) = false
      /\ passed (renderVerdict a) = false
      /\ In "Altitude out of bounds"%string (issues (renderVerdict a))
      /\ title (renderVerdict a) = "PHYSICALLY UNREASONABLE"%string).
Proof.
  intros a.
  assert (Halt : altReasonable (checks a) = forallb alt_ok (alt d))
    by reflexivity.
  split.
  - rewrite Halt, forallb_forall. split; intros Hall x Hx.
    + apply alt_ok_spec, Hall, Hx.
    + apply alt_ok_spec, Hall, Hx.
  - intros Hin.
    assert (Hf : altReasonable (checks a) = false).
    { rewrite Halt. apply not_true_is_false. intros Hall.
      rewrite forallb_forall in Hall. specialize (Hall _ Hin).
      vm_compute in Hall. discriminate. }
    unfold renderVerdict. rewrite Hf. simpl.
    split; [reflexivity|]. split; [reflexivity|]. split; [|reflexivity].
    unfold push.
    destruct (negb (forallb quat_ok _)), (negb (_ <? 500));
      simpl; left; reflexivity.
Qed.

End AnalysisFacts.

Section AnalysisWitnesses.
Local Open Scope float_scope.

(** A header followed by a row of three values. *)
Lemma empty_input_statistics_witness :
  let content :=
    "time lat lon alt
1 2 3
"%string in
  let a := analyzeTrajectory (host := SampleHost.host)
             (parseTrajectoryFile (host := SampleHost.host) content) in
  samples a = 0%nat
  /\ is_nan (mean (speed a)) = true
  /\ passed (renderVerdict (host := SampleHost.host) a) = true.
Proof.
  intros content a.
  assert (Hshort : forall line : string,
    In line (data_lines content) -> (length (tokens line) < 17)%nat).
  { intros line [<-|[]]. vm_compute. lia. }
  destruct (empty_input_statistics (host := SampleHost.host) content Hshort)
    as (_ & _ & _ & _ & (Hmean & _) & Hn & _ & _ & _ & _ & Hpass & _).
  repeat split; assumption.
Defined.

(** C8 as stated fails: the empty input gives an empty store, and
    [arrayStats] then computes its mean as 0 divided by the length 0, which
    is [NaN]; the analysis carries that value. *)
Lemma arrayStats_empty_divides_by_zero :
  let d := parseTrajectoryFile (host := SampleHost.host) "" in
  length (time d) = 0%nat
  /\ stats_divisor (speed_of d) = 0
  /\ mean (arrayStats (speed_of d)) = 0 / stats_divisor (speed_of d)
  /\ is_nan
       (mean (speed (analyzeTrajectory (host := SampleHost.host) d))) = true
  /\ is_nan
       (duration (analyzeTrajectory (host := SampleHost.host) d)) = true.
Proof. repeat split. Qed.

Lemma altitude_check_witness :
  let d := level_flight 3 60000 in
  let a := analyzeTrajectory (host := SampleHost.host) d in
  altReasonable (checks a) = false
  /\ passed (renderVerdict (host := SampleHost.host) a) = false
  /\ In "Altitude out of bounds"%string
       (issues (renderVerdict (host := SampleHost.host) a))
  /\ title (renderVerdict (host := SampleHost.host) a)
     = "PHYSICALLY UNREASONABLE"%string.
Proof.
  intros d a.
  apply (proj2 (altitude_check (host := SampleHost.host) d)).
  vm_compute. left. reflexivity.
Defined.

(** C9 as stated fails: an altitude of exactly 50000 m lies in the
    closed interval [[-1000, 50000]] and fails the check. *)
Lemma altitude_check_rejects_50000 :
  let d := level_flight 1 50000 in
  alt d = [50000]
  /\ (-1000 <=? 50000) = true /\ (50000 <=? 50000) = true
  /\ altReasonable (checks (analyzeTrajectory (host := SampleHost.host) d))
     = false.
Proof. repeat split. Qed.

End AnalysisWitnesses.

(* ===================================================================== *)
(** ** More binary64 facts *)
(* ===================================================================== *)

Module FloatArith.
Import FloatFacts.

Lemma Prim2SF_zero : Prim2SF 0 = S754_zero false.
Proof. reflexivity. Qed.

(** A number minus itself is [+0]. *)
Lemma sub_diag x : is_number x = true -> (x - x)%float = 0%float.
Proof.
  rewrite is_number_spec. intros Hx.
  apply Prim2SF_inj. rewrite FloatAxioms.sub_spec, Prim2SF_zero.
  destruct (Prim2SF x) as [s|s| |s m e]; simpl in *; try tauto.
  - destruct s; reflexivity.
  - rewrite Z.min_id, Z.sub_diag. reflexivity.
Qed.

(** Zero times a number is a zero. *)
Lemma zero_mul_number c :
  is_number c = true -> (0 * c)%float = 0%float \/ (0 * c)%float = (-0)%float.
Proof.
  rewrite is_number_spec. intros Hc.
  assert (H : Prim2SF (0 * c) = S754_zero false
              \/ Prim2SF (0 * c) = S754_zero true).
  { rewrite FloatAxioms.mul_spec, Prim2SF_zero.
    destruct (Prim2SF c) as [s|s| |s m e]; simpl in *; try tauto;
      destruct s; auto. }
  destruct H as [H|H]; [left|right]; apply Prim2SF_inj; rewrite H;
    reflexivity.
Qed.

Lemma opp_involutive x : (- - x)%float = x.
Proof.
  apply Prim2SF_inj. rewrite !FloatAxioms.opp_spec.
  destruct (Prim2SF x) as [s|s| |s m e]; simpl; rewrite ?negb_involutive;
    reflexivity.
Qed.

Lemma add_nan_r x : (x + nan)%float = nan.
Proof.
  apply Prim2SF_inj. rewrite FloatAxioms.add_spec.
  change (Prim2SF nan) with S754_nan.
  destruct (Prim2SF x); reflexivity.
Qed.

Lemma mul_nan_r x : (x * nan)%float = nan.
Proof.
  apply Prim2SF_inj. rewrite FloatAxioms.mul_spec.
  change (Prim2SF nan) with S754_nan.
  destruct (Prim2SF x); reflexivity.
Qed.

Lemma sub_nan_l x : (nan - x)%float = nan.
Proof.
  apply Prim2SF_inj. rewrite FloatAxioms.sub_spec.
  change (Prim2SF nan) with S754_nan. reflexivity.
Qed.

Lemma is_nan_true x : is_nan x = true -> x = nan.
Proof.
  intros Hx. apply nan_spec.
  destruct (Prim2SF x) eqn:E; try reflexivity;
    assert (Hn : is_nan x = false) by (apply is_nan_spec; congruence);
    congruence.
Qed.

(** Adding [+0] to a number that is not a zero changes nothing. *)
Lemma add_zero_r x :
  is_number x = true -> PrimFloat.eqb x 0 = false -> (x + 0)%float = x.
Proof.
  rewrite is_number_spec, FloatAxioms.eqb_spec, Prim2SF_zero.
  intros Hx Hz. apply Prim2SF_inj.
  rewrite FloatAxioms.add_spec, Prim2SF_zero.
  destruct (Prim2SF x) as [s|s| |s m e]; simpl in *; try tauto;
    try discriminate; reflexivity.
Qed.

(** Two numbers that compare equal, one of them not a zero, are the same
    number. *)
Lemma SFcompare_Eq_finite s m e y :
  SFcompare (S754_finite s m e) y = Some Eq -> y = S754_finite s m e.
Proof.
  destruct y as [sy|sy| |sy my ey]; simpl; try discriminate;
    try (destruct s; discriminate); try (destruct s, sy; discriminate).
  destruct s, sy; try discriminate;
    destruct (Z.compare_spec e ey); try discriminate; subst;
    rewrite pos_compare_cont_Eq;
    destruct (Pos.compare_spec m my); try discriminate; subst;
    reflexivity.
Qed.

Lemma leb_not_ltb_eq k x :
  is_number k = true -> PrimFloat.eqb k 0 = false ->
  PrimFloat.leb k x = true -> PrimFloat.ltb k x = false -> x = k.
Proof.
  rewrite is_number_spec, FloatAxioms.eqb_spec, FloatAxioms.leb_spec,
    FloatAxioms.ltb_spec, Prim2SF_zero.
  unfold SFleb, SFltb, SFeqb. intros Hk Hz Hle Hlt.
  apply Prim2SF_inj.
  destruct (Prim2SF k) as [s|s| |s m e]; simpl in Hk; try tauto.
  - simpl in Hz. discriminate.
  - apply SFcompare_Eq_finite.
    destruct (SFcompare _ (Prim2SF x)) as [[]|]; congruence.
Qed.

Lemma leb_ltb_false x y :
  PrimFloat.leb x y = true -> PrimFloat.ltb y x = false.
Proof.
  rewrite FloatAxioms.leb_spec, FloatAxioms.ltb_spec. unfold SFleb, SFltb.
  rewrite (SFcompare_antisym (Prim2SF x) (Prim2SF y)).
  destruct (SFcompare _ _) as [[]|]; simpl; congruence.
Qed.

Lemma leb_not_nan_r x y : PrimFloat.leb x y = true -> is_nan y = false.
Proof.
  rewrite FloatAxioms.leb_spec, is_nan_spec. unfold SFleb.
  intros H E. rewrite E in H.
  destruct (Prim2SF x); discriminate.
Qed.

Lemma ltb_not_nan_l x y : PrimFloat.ltb x y = true -> is_nan x = false.
Proof. intros H. eapply leb_not_nan_l, ltb_leb, H. Qed.

Lemma ltb_not_nan_r x y : PrimFloat.ltb x y = true -> is_nan y = false.
Proof. intros H. eapply leb_not_nan_r, ltb_leb, H. Qed.

Lemma ltb_trans x y z :
  PrimFloat.ltb x y = true -> PrimFloat.ltb y z = true ->
  PrimFloat.ltb x z = true.
Proof. intros H1 H2. eapply ltb_leb_trans; [exact H1|apply ltb_leb, H2]. Qed.

(** The square root is never below zero. *)
Lemma binary_round_aux_sign prec emax mx ex lx :
  match binary_round_aux prec emax false mx ex lx with
  | S754_zero s | S754_infinity s | S754_finite s _ _ => s = false
  | S754_nan => True
  end.
Proof.
  unfold binary_round_aux.
  destruct (shr_fexp prec emax mx ex lx) as [mrs' e'].
  destruct (shr_fexp prec emax _ e' loc_Exact) as [mrs'' e''].
  destruct (shr_m mrs''); auto.
  destruct (_ <=? _)%Z; reflexivity.
Qed.

Lemma sqrt_not_negative x : PrimFloat.ltb (PrimFloat.sqrt x) 0 = false.
Proof.
  rewrite FloatAxioms.ltb_spec, FloatAxioms.sqrt_spec, Prim2SF_zero.
  unfold SFltb, SF64sqrt, SFsqrt.
  destruct (Prim2SF x) as [s|s| |s m e]; try reflexivity.
  - destruct s; reflexivity.
  - destruct s; [reflexivity|].
    destruct (SFsqrt_core_binary prec emax (Z.pos m) e) as [[mz ez] lz].
    pose proof (binary_round_aux_sign prec emax mz ez lz) as Hs.
    destruct (binary_round_aux prec emax false mz ez lz) as [s|s| |s m' e'];
      try subst s; reflexivity.
Qed.

End FloatArith.

(* ===================================================================== *)
(** ** Local tangent plane *)
(* ===================================================================== *)

Section TangentPlaneFacts.
Context {host : Host}.
Import FloatFacts FloatArith.
Local Open Scope float_scope.

Lemma convertToNED_map (lat lon alt : list float) (lat0 lon0 alt0 : float) :
  convertToNED lat lon alt lat0 lon0 alt0
  = {| north := List.map (fun i => (at_ lat i - lat0) * R_EARTH)
                  (seq 0 (length lat));
       east := List.map
                 (fun i => (at_ lon i - lon0) * R_EARTH * Math.cos lat0)
                 (seq 0 (length lat));
       down := List.map (fun i => - (at_ alt i - alt0))
                 (seq 0 (length lat)) |}.
Proof.
  unfold convertToNED, for_upto.
  generalize (seq 0 (length lat)) as l.
  assert (Hgen : forall l a b c,
    fold_left
      (fun acc i =>
         {| north := push (north acc) ((at_ lat i - lat0) * R_EARTH);
            east := push (east acc)
                      ((at_ lon i - lon0) * R_EARTH * Math.cos lat0);
            down := push (down acc) (- (at_ alt i - alt0)) |})
      l {| north := a; east := b; down := c |}
    = {| north := a ++ List.map (fun i => (at_ lat i - lat0) * R_EARTH) l;
         east := b ++ List.map
                        (fun i => (at_ lon i - lon0) * R_EARTH * Math.cos lat0)
                        l;
         down := c ++ List.map (fun i => - (at_ alt i - alt0)) l |}).
  { induction l as [|i l IH]; intros a b c; simpl.
    - rewrite !app_nil_r. reflexivity.
    - rewrite IH. unfold push. rewrite <- !app_assoc. reflexivity. }
  intros l. apply (Hgen l [] [] []).
Qed.

Lemma convertToNED_lookup
    (lat lon alt : list float) (lat0 lon0 alt0 : float)
    (i : nat) (la lo al : float) :
  lat !! i = Some la -> lon !! i = Some lo -> alt !! i = Some al ->
  let ned := convertToNED lat lon alt lat0 lon0 alt0 in
  north ned !! i = Some ((la - lat0) * R_EARTH)
  /\ east ned !! i = Some ((lo - lon0) * R_EARTH * Math.cos lat0)
  /\ down ned !! i = Some (- (al - alt0)).
Proof.
  intros Hla Hlo Hal ned. subst ned. rewrite convertToNED_map. simpl.
  assert (Hi : (i < length lat)%nat) by (eapply lookup_lt_Some, Hla).
  rewrite !lookup_map_seq by exact Hi.
  rewrite (at_lookup _ _ _ Hla), (at_lookup _ _ _ Hlo),
    (at_lookup _ _ _ Hal).
  repeat split; reflexivity.
Qed.

(** X1. [convertToNED] returns three series as long as the latitude
    array; the entries for the sample [(la, lo, al)] at index [i] are
    [(la - lat0) * R], [(lo - lon0) * R * cos(lat0)] and [-(al - alt0)],
    the cosine taken at the anchor latitude for every sample. *)
Theorem convertToNED_per_sample
    (lat lon alt : list float) (lat0 lon0 alt0 : float) :
  let ned := convertToNED lat lon alt lat0 lon0 alt0 in
  length (north ned) = length lat
  /\ length (east ned) = length lat
  /\ length (down ned) = length lat
  /\ (forall (i : nat) (la lo al : float),
        lat !! i = Some la -> lon !! i = Some lo -> alt !! i = Some al ->
        north ned !! i = Some ((la - lat0) * R_EARTH)
        /\ east ned !! i = Some ((lo - lon0) * R_EARTH * Math.cos lat0)
        /\ down ned !! i = Some (- (al - alt0))).
Proof.
  intros ned. split; [|split; [|split]].
  - subst ned. rewrite convertToNED_map. simpl.
    rewrite length_map, length_seq. reflexivity.
  - subst ned. rewrite convertToNED_map. simpl.
    rewrite length_map, length_seq. reflexivity.
  - subst ned. rewrite convertToNED_map. simpl.
    rewrite length_map, length_seq. reflexivity.
  - intros i la lo al Hla Hlo Hal. apply convertToNED_lookup; assumption.
Qed.

Lemma elem_lookup (a : list float) (i : nat) :
  elem a (Z.of_nat i) = a !! i.
Proof.
  unfold elem. destruct (Z.ltb_spec (Z.of_nat i) 0) as [Hneg|_]; [lia|].
  rewrite Nat2Z.id. revert i.
  induction a as [|y a IH]; intros [|i]; simpl; auto.
Qed.

(** X2. The track that [update3DTrajectories] stores for playback is
    anchored at the store's own first sample: when that sample's latitude
    and altitude are numbers, the track starts with north [0] and down
    [-0], and the negated down value of sample [i], which the scene uses as
    its height, is exactly [alt[i] - alt[0]]. *)
Theorem test_track_origin_and_height (d : Store) (lat0 lon0 alt0 : float) :
  lat d !! 0%nat = Some lat0 -> lon d !! 0%nat = Some lon0 ->
  alt d !! 0%nat = Some alt0 ->
  is_number lat0 = true -> is_number alt0 = true ->
  let ned := test_track d in
  north ned !! 0%nat = Some 0
  /\ down ned !! 0%nat = Some (-0)
  /\ (forall (i : nat) (la lo al : float),
        lat d !! i = Some la -> lon d !! i = Some lo ->
        alt d !! i = Some al ->
        exists dn, down ned !! i = Some dn /\ - dn = al - alt0).
Proof.
  intros Hla Hlo Hal Hnla Hnal ned.
  assert (Hs : forall (i : nat) (la lo al : float),
    lat d !! i = Some la -> lon d !! i = Some lo -> alt d !! i = Some al ->
    north ned !! i = Some ((la - lat0) * R_EARTH)
    /\ east ned !! i = Some ((lo - lon0) * R_EARTH * Math.cos lat0)
    /\ down ned !! i = Some (- (al - alt0))).
  { intros i la lo al Hila Hilo Hial.
    pose proof (convertToNED_lookup (lat d) (lon d) (alt d)
                  (to_number (elem (lat d) 0)) (to_number (elem (lon d) 0))
                  (to_number (elem (alt d) 0)) i la lo al Hila Hilo Hial)
      as Hl.
    fold (test_track d) in Hl. fold ned in Hl.
    change 0%Z with (Z.of_nat 0) in Hl.
    rewrite !elem_lookup, Hla, Hlo, Hal in Hl. exact Hl. }
  destruct (Hs 0%nat _ _ _ Hla Hlo Hal) as (Hn & _ & Hd).
  split; [|split].
  - rewrite Hn, (sub_diag _ Hnla). reflexivity.
  - rewrite Hd, (sub_diag _ Hnal). reflexivity.
  - intros i la lo al Hila Hilo Hial.
    destruct (Hs i _ _ _ Hila Hilo Hial) as (_ & _ & Hdi).
    eexists. split; [exact Hdi|]. apply opp_involutive.
Qed.

(** X3. Comparing a store with itself: at every index whose latitude,
    longitude and altitude are numbers and where the cosine of the latitude
    is a number, the north, down, horizontal and 3D errors are exactly [0]
    and the east error is a zero. *)
Theorem computePositionError_same_store (d : Store) :
  let errors := computePositionError d d in
  forall (i : nat) (la lo al : float),
    lat d !! i = Some la -> lon d !! i = Some lo -> alt d !! i = Some al ->
    is_number la = true -> is_number lo = true -> is_number al = true ->
    is_number (Math.cos la) = true ->
    err_north errors !! i = Some 0
    /\ (err_east errors !! i = Some 0 \/ err_east errors !! i = Some (-0))
    /\ err_down errors !! i = Some 0
    /\ horizontal errors !! i = Some 0
    /\ error3d errors !! i = Some 0.
Proof.
  intros errors i la lo al Hla Hlo Hal Hnla Hnlo Hnal Hcos.
  destruct (computePositionError_entries d d) as [_ Hs].
  destruct (Hs i la lo al la lo al Hla Hlo Hal Hla Hlo Hal)
    as (Hn & He & Hd & Hh & H3).
  fold errors in Hn, He, Hd, Hh, H3.
  rewrite Hn, He, Hd, Hh, H3.
  rewrite (sub_diag _ Hnla), (sub_diag _ Hnlo), (sub_diag _ Hnal).
  change (0 * R_EARTH) with 0.
  destruct (zero_mul_number _ Hcos) as [-> | ->];
    repeat split; try reflexivity; auto.
Qed.

End TangentPlaneFacts.

(* ===================================================================== *)
(** ** Minimum, maximum and the plausibility checks *)
(* ===================================================================== *)

Section ExtremaFacts.
Import FloatFacts FloatArith.
Local Open Scope float_scope.

Lemma ltb_nan_l c : (nan <? c) = false.
Proof.
  rewrite FloatAxioms.ltb_spec. change (Prim2SF nan) with S754_nan.
  reflexivity.
Qed.

(** The larger of two values is below a bound exactly when both are. *)
Lemma max_ltb a x c :
  (Math.max a x <? c) = (a <? c) && (x <? c).
Proof.
  unfold Math.max.
  destruct (is_nan a) eqn:Ha.
  { simpl. rewrite (is_nan_true _ Ha), ltb_nan_l. reflexivity. }
  destruct (is_nan x) eqn:Hx.
  { simpl. rewrite (is_nan_true _ Hx), ltb_nan_l, andb_false_r.
    reflexivity. }
  simpl.
  destruct (a <? x) eqn:E1.
  { destruct (x <? c) eqn:E2; [|rewrite andb_false_r; reflexivity].
    rewrite (ltb_trans _ _ _ E1 E2). reflexivity. }
  destruct (x <? a) eqn:E2.
  { destruct (a <? c) eqn:E3; [|reflexivity].
    rewrite (ltb_trans _ _ _ E2 E3). reflexivity. }
  pose proof (not_ltb_leb _ _ Ha Hx E1) as Hxa.
  pose proof (not_ltb_leb _ _ Hx Ha E2) as Hax.
  destruct (is_neg_zero a).
  - destruct (x <? c) eqn:E3; [|rewrite andb_false_r; reflexivity].
    rewrite (leb_ltb_trans _ _ _ Hax E3). reflexivity.
  - destruct (a <? c) eqn:E3; [|reflexivity].
    rewrite (leb_ltb_trans _ _ _ Hxa E3). reflexivity.
Qed.

Lemma fold_max_ltb (l : list float) : forall acc c,
  (fold_left Math.max l acc <? c) = (acc <? c) && forallb (fun v => v <? c) l.
Proof.
  induction l as [|x l IH]; intros acc c; simpl.
  - rewrite andb_true_r. reflexivity.
  - rewrite IH, max_ltb, andb_assoc. reflexivity.
Qed.

(** The smaller of two values that are not [NaN]. *)
Lemma min_cases a b :
  is_nan a = false -> is_nan b = false ->
  (Math.min a b = a \/ Math.min a b = b)
  /\ (Math.min a b <=? a) = true /\ (Math.min a b <=? b) = true.
Proof.
  intros Ha Hb. unfold Math.min. rewrite Ha, Hb. simpl.
  destruct (a <? b) eqn:E1.
  { auto using leb_refl, ltb_leb. }
  destruct (b <? a) eqn:E2.
  { auto using leb_refl, ltb_leb. }
  pose proof (not_ltb_leb _ _ Ha Hb E1) as Hba.
  pose proof (not_ltb_leb _ _ Hb Ha E2) as Hab.
  destruct (is_neg_zero a); auto using leb_refl.
Qed.

Lemma max_cases a b :
  is_nan a = false -> is_nan b = false ->
  (Math.max a b = a \/ Math.max a b = b)
  /\ (a <=? Math.max a b) = true /\ (b <=? Math.max a b) = true.
Proof.
  intros Ha Hb. unfold Math.max. rewrite Ha, Hb. simpl.
  destruct (a <? b) eqn:E1.
  { auto using leb_refl, ltb_leb. }
  destruct (b <? a) eqn:E2.
  { auto using leb_refl, ltb_leb. }
  pose proof (not_ltb_leb _ _ Ha Hb E1) as Hba.
  pose proof (not_ltb_leb _ _ Hb Ha E2) as Hab.
  destruct (is_neg_zero a); auto using leb_refl.
Qed.

Lemma fold_min_bounds (l : list float) : forall acc,
  is_nan acc = false -> forallb (fun v => negb (is_nan v)) l = true ->
  let r := fold_left Math.min l acc in
  is_nan r = false /\ (r = acc \/ In r l) /\ (r <=? acc) = true
  /\ (forall v, In v l -> (r <=? v) = true).
Proof.
  induction l as [|x l IH]; intros acc Hacc Hl; simpl in *.
  - repeat split; auto using leb_refl; intros v [].
  - apply andb_true_iff in Hl as [Hx Hl]. apply negb_true_iff in Hx.
    destruct (min_cases acc x Hacc Hx) as (Hc & Hma & Hmx).
    assert (Hm : is_nan (Math.min acc x) = false)
      by (eapply leb_not_nan_l, Hma).
    destruct (IH _ Hm Hl) as (Hr & Hin & Hle & Hall).
    split; [exact Hr|]. split; [|split].
    + destruct Hin as [Hin|Hin]; [|auto].
      rewrite Hin. destruct Hc as [-> | ->]; auto.
    + eapply leb_trans; eassumption.
    + intros v [<-|Hv]; [eapply leb_trans; eassumption|auto].
Qed.

Lemma fold_max_bounds (l : list float) : forall acc,
  is_nan acc = false -> forallb (fun v => negb (is_nan v)) l = true ->
  let r := fold_left Math.max l acc in
  is_nan r = false /\ (r = acc \/ In r l) /\ (acc <=? r) = true
  /\ (forall v, In v l -> (v <=? r) = true).
Proof.
  induction l as [|x l IH]; intros acc Hacc Hl; simpl in *.
  - repeat split; auto using leb_refl; intros v [].
  - apply andb_true_iff in Hl as [Hx Hl]. apply negb_true_iff in Hx.
    destruct (max_cases acc x Hacc Hx) as (Hc & Hma & Hmx).
    assert (Hm : is_nan (Math.max acc x) = false)
      by (eapply leb_not_nan_r, Hma).
    destruct (IH _ Hm Hl) as (Hr & Hin & Hle & Hall).
    split; [exact Hr|]. split; [|split].
    + destruct Hin as [Hin|Hin]; [|auto].
      rewrite Hin. destruct Hc as [-> | ->]; auto.
    + eapply leb_trans; eassumption.
    + intros v [<-|Hv]; [eapply leb_trans; eassumption|auto].
Qed.

Lemma fold_min_nan (l : list float) : fold_left Math.min l nan = nan.
Proof. induction l as [|x l IH]; simpl; [reflexivity|exact IH]. Qed.

Lemma fold_max_nan (l : list float) : fold_left Math.max l nan = nan.
Proof. induction l as [|x l IH]; simpl; [reflexivity|exact IH]. Qed.

Lemma min_nan_r a : Math.min a nan = nan.
Proof. unfold Math.min. simpl. rewrite orb_true_r. reflexivity. Qed.

Lemma max_nan_r a : Math.max a nan = nan.
Proof. unfold Math.max. simpl. rewrite orb_true_r. reflexivity. Qed.

Lemma fold_min_has_nan (l : list float) : forall acc,
  In nan l -> fold_left Math.min l acc = nan.
Proof.
  induction l as [|x l IH]; intros acc Hin; simpl in *; [destruct Hin|].
  destruct Hin as [Hx|Hin].
  - subst x. rewrite min_nan_r. apply fold_min_nan.
  - apply IH, Hin.
Qed.

Lemma fold_max_has_nan (l : list float) : forall acc,
  In nan l -> fold_left Math.max l acc = nan.
Proof.
  induction l as [|x l IH]; intros acc Hin; simpl in *; [destruct Hin|].
  destruct Hin as [Hx|Hin].
  - subst x. rewrite max_nan_r. apply fold_max_nan.
  - apply IH, Hin.
Qed.

Lemma leb_infinity_l v : (infinity <=? v) = true -> v = infinity.
Proof.
  rewrite FloatAxioms.leb_spec, Prim2SF_infinity. unfold SFleb.
  intros H. apply Prim2SF_inj. rewrite Prim2SF_infinity.
  destruct (Prim2SF v) as [s|s| |s m e]; simpl in H; try discriminate.
  destruct s; [discriminate|reflexivity].
Qed.

Lemma leb_neg_infinity_r v : (v <=? neg_infinity) = true -> v = neg_infinity.
Proof.
  rewrite FloatAxioms.leb_spec.
  change (Prim2SF neg_infinity) with (S754_infinity true). unfold SFleb.
  intros H. apply Prim2SF_inj.
  change (Prim2SF neg_infinity) with (S754_infinity true).
  destruct (Prim2SF v) as [s|s| |s m e]; simpl in H; try discriminate;
    destruct s; try discriminate; reflexivity.
Qed.

(** X4. For a non-empty array without [NaN], the [min] and [max] of
    [arrayStats] are elements of the array and bound every element; as
    soon as the array contains [NaN], both are [NaN]. *)
Theorem arrayStats_min_max (arr : list float) :
  (arr <> [] -> forallb (fun v => negb (is_nan v)) arr = true ->
   In (min (arrayStats arr)) arr /\ In (max (arrayStats arr)) arr
   /\ (forall v, In v arr ->
         (min (arrayStats arr) <=? v) = true
         /\ (v <=? max (arrayStats arr)) = true))
  /\ (In nan arr ->
      min (arrayStats arr) = nan /\ max (arrayStats arr) = nan).
Proof.
  split.
  - intros Hne Hnan. simpl. unfold Math.min_of, Math.max_of.
    destruct (fold_min_bounds arr infinity eq_refl Hnan)
      as (_ & Hin & _ & Hlo).
    destruct (fold_max_bounds arr neg_infinity eq_refl Hnan)
      as (_ & Hax & _ & Hhi).
    assert (Hx : exists x, In x arr)
      by (destruct arr as [|x r]; [congruence|exists x; left; reflexivity]).
    destruct Hx as [x Hx].
    split; [|split].
    + destruct Hin as [Hin|Hin]; [|exact Hin].
      pose proof (Hlo x Hx) as Hle. rewrite Hin in Hle |- *.
      rewrite <- (leb_infinity_l _ Hle). exact Hx.
    + destruct Hax as [Hax|Hax]; [|exact Hax].
      pose proof (Hhi x Hx) as Hle. rewrite Hax in Hle |- *.
      rewrite <- (leb_neg_infinity_r _ Hle). exact Hx.
    + intros v Hv. split; [apply Hlo|apply Hhi]; exact Hv.
  - intros Hin. simpl. unfold Math.min_of, Math.max_of.
    rewrite fold_min_has_nan, fold_max_has_nan by exact Hin.
    split; reflexivity.
Qed.

End ExtremaFacts.

Section CheckFacts.
Context {host : Host}.
Import FloatFacts FloatArith.
Local Open Scope float_scope.

Lemma speedReasonable_forallb (d : Store) :
  speedReasonable (checks (analyzeTrajectory d))
  = forallb (fun v => v <? 500) (speed_of d).
Proof.
  change (speedReasonable (checks (analyzeTrajectory d)))
    with (Math.max_of (speed_of d) <? 500).
  unfold Math.max_of. rewrite fold_max_ltb. reflexivity.
Qed.

(** X5. The speed check, computed from the maximum, holds exactly
    when the speed of every sample is below 500: it holds for an empty
    store and fails as soon as one speed is 500 or more or is [NaN]. *)
Theorem speed_check_every_sample (d : Store) :
  speedReasonable (checks (analyzeTrajectory d)) = true
  <-> (forall (i : nat), (i < length (vn d))%nat ->
         (Math.sqrt (sq (at_ (vn d) i) + sq (at_ (ve d) i)
                     + sq (at_ (vd d) i)) <? 500) = true).
Proof.
  rewrite speedReasonable_forallb, forallb_forall.
  unfold speed_of, map_index. split.
  - intros Hall i Hi. apply Hall. apply in_map_iff. exists i.
    split; [reflexivity|]. apply in_seq. lia.
  - intros Hall v Hv. apply in_map_iff in Hv. destruct Hv as (i & <- & Hi).
    apply Hall. apply in_seq in Hi. lia.
Qed.

Lemma speed_nan (a b c : float) :
  is_nan a || is_nan b || is_nan c = true ->
  Math.sqrt (sq a + sq b + sq c) = nan.
Proof.
  intros H. apply orb_true_iff in H as [H|H];
    [apply orb_true_iff in H as [H|H]|];
    rewrite (is_nan_true _ H); unfold sq;
    rewrite ?mul_nan_l, ?add_nan_l, ?add_nan_r, ?add_nan_l; reflexivity.
Qed.

Lemma norm_nan (a b c e : float) :
  is_nan a || is_nan b || is_nan c || is_nan e = true ->
  Math.sqrt (sq a + sq b + sq c + sq e) = nan.
Proof.
  intros H. apply orb_true_iff in H as [H|H];
    [apply orb_true_iff in H as [H|H];
     [apply orb_true_iff in H as [H|H]|]|];
    rewrite (is_nan_true _ H); unfold sq;
    rewrite ?mul_nan_l, ?add_nan_l, ?add_nan_r, ?add_nan_l, ?add_nan_l;
    reflexivity.
Qed.

(** X6. A [NaN] in the data fails the verdict: a [NaN] altitude fails
    the altitude check, a [NaN] velocity component of a sample fails the
    speed check, a [NaN] quaternion component of a sample fails the
    normalisation check; in each case the verdict does not pass. *)
Theorem nan_fails_verdict (d : Store) :
  let a := analyzeTrajectory d in
  (In nan (alt d) ->
   altReasonable (checks a) = false /\ passed (renderVerdict a) = false)
  /\ (forall i : nat, (i < length (vn d))%nat ->
        is_nan (at_ (vn d) i) || is_nan (at_ (ve d) i)
        || is_nan (at_ (vd d) i) = true ->
        speedReasonable (checks a) = false
        /\ passed (renderVerdict a) = false)
  /\ (forall i : nat, (i < length (qw d))%nat ->
        is_nan (at_ (qw d) i) || is_nan (at_ (qx d) i)
        || is_nan (at_ (qy d) i) || is_nan (at_ (qz d) i) = true ->
        quatNormalized (checks a) = false
        /\ passed (renderVerdict a) = false).
Proof.
  intros a.
  assert (Hpass : passed (renderVerdict a)
                  = altReasonable (checks a) && speedReasonable (checks a)
                    && quatNormalized (checks a)) by reflexivity.
  split; [|split].
  - intros Hin.
    assert (Hf : altReasonable (checks a) = false).
    { change (altReasonable (checks a)) with (forallb alt_ok (alt d)).
      apply not_true_is_false. intros Hall.
      rewrite forallb_forall in Hall. specialize (Hall _ Hin).
      vm_compute in Hall. discriminate. }
    rewrite Hpass, Hf. split; reflexivity.
  - intros i Hi Hnan.
    assert (Hf : speedReasonable (checks a) = false).
    { unfold a. rewrite speedReasonable_forallb.
      apply not_true_is_false. intros Hall.
      rewrite forallb_forall in Hall.
      specialize (Hall (Math.sqrt (sq (at_ (vn d) i) + sq (at_ (ve d) i)
                                   + sq (at_ (vd d) i)))).
      rewrite (speed_nan _ _ _ Hnan) in Hall.
      assert (Hin : In nan (speed_of d)).
      { unfold speed_of, map_index. apply in_map_iff. exists i.
        split; [apply speed_nan, Hnan|apply in_seq; lia]. }
      specialize (Hall Hin). vm_compute in Hall. discriminate. }
    rewrite Hpass, Hf, andb_false_r. split; reflexivity.
  - intros i Hi Hnan.
    assert (Hf : quatNormalized (checks a) = false).
    { change (quatNormalized (checks a))
        with (forallb quat_ok (quatNorm_of d)).
      apply not_true_is_false. intros Hall.
      rewrite forallb_forall in Hall.
      assert (Hin : In nan (quatNorm_of d)).
      { unfold quatNorm_of, map_index. apply in_map_iff. exists i.
        split; [apply norm_nan, Hnan|apply in_seq; lia]. }
      specialize (Hall _ Hin). vm_compute in Hall. discriminate. }
    rewrite Hpass, Hf, andb_false_r. split; reflexivity.
Qed.

(** X7. A track that ends where it began: when the last sample has the
    latitude, longitude and altitude of the first, all numbers, and the
    cosine of that latitude is a number, the north, altitude and total
    drift are exactly [0] and the east drift is a zero.  A store with a
    single sample is such a track, and its duration is [0]. *)
Theorem drift_of_closed_track (d : Store) (la lo al : float) :
  let n := length (time d) in
  (1 <= n)%nat ->
  lat d !! 0%nat = Some la -> lat d !! (n - 1)%nat = Some la ->
  lon d !! 0%nat = Some lo -> lon d !! (n - 1)%nat = Some lo ->
  alt d !! 0%nat = Some al -> alt d !! (n - 1)%nat = Some al ->
  is_number la = true -> is_number lo = true -> is_number al = true ->
  is_number (Math.cos la) = true ->
  let a := analyzeTrajectory d in
  drift_north (drift a) = 0
  /\ (drift_east (drift a) = 0 \/ drift_east (drift a) = -0)
  /\ drift_alt (drift a) = 0
  /\ drift_total (drift a) = 0
  /\ (forall t0 : float,
        n = 1%nat -> time d !! 0%nat = Some t0 -> is_number t0 = true ->
        duration a = 0).
Proof.
  intros n Hn Hla0 Hla1 Hlo0 Hlo1 Hal0 Hal1 Hnla Hnlo Hnal Hcos a.
  assert (Hlast : (Z.of_nat n - 1)%Z = Z.of_nat (n - 1)) by lia.
  assert (Hzero : 0%Z = Z.of_nat 0) by reflexivity.
  assert (Hn0 : drift_north (drift a) = 0).
  { unfold a, analyzeTrajectory. cbn [drift drift_north]. fold n.
    rewrite Hlast, Hzero, !elem_lookup, Hla0, Hla1. simpl.
    rewrite (sub_diag _ Hnla). reflexivity. }
  assert (Ha0 : drift_alt (drift a) = 0).
  { unfold a, analyzeTrajectory. cbn [drift drift_alt]. fold n.
    rewrite Hlast, Hzero, !elem_lookup, Hal0, Hal1. simpl.
    apply (sub_diag _ Hnal). }
  assert (He : drift_east (drift a) = 0 * Math.cos la).
  { unfold a, analyzeTrajectory. cbn [drift drift_east]. fold n.
    rewrite Hlast, Hzero, !elem_lookup, Hlo0, Hlo1, Hla0. simpl.
    rewrite (sub_diag _ Hnlo). reflexivity. }
  assert (Ht : drift_total (drift a)
               = Math.sqrt (sq (drift_north (drift a))
                            + sq (drift_east (drift a))
                            + sq (drift_alt (drift a)))) by reflexivity.
  split; [exact Hn0|]. split; [|split; [exact Ha0|split]].
  - rewrite He. apply zero_mul_number, Hcos.
  - rewrite Ht, Hn0, Ha0, He.
    destruct (zero_mul_number _ Hcos) as [-> | ->]; reflexivity.
  - intros t0 H1 Ht0 Hnt. unfold a, analyzeTrajectory. cbn [duration].
    fold n. rewrite H1. change (Z.of_nat 1 - 1)%Z with (Z.of_nat 0).
    rewrite Hzero, !elem_lookup, Ht0. simpl. apply (sub_diag _ Hnt).
Qed.

End CheckFacts.

(* ===================================================================== *)
(** ** Downsampling *)
(* ===================================================================== *)

Section DownsampleFacts.

(** The multiples of [step] below [n]. *)
Lemma multiples_below (step n : nat) :
  (1 <= step)%nat ->
  List.filter (fun j => (j mod step =? 0)%nat) (seq 0 n)
  = List.map (fun k => (k * step)%nat) (seq 0 ((n + step - 1) / step)).
Proof.
  intros Hs. induction n as [|n IH].
  - simpl. rewrite Nat.div_small by lia. reflexivity.
  - rewrite seq_S, List.filter_app, IH. change (0 + n)%nat with n.
    cbn [List.filter].
    pose proof (Nat.div_mod_eq n step) as Hdm.
    pose proof (Nat.mod_upper_bound n step ltac:(lia)) as Hub.
    destruct (Nat.eqb_spec (n mod step) 0) as [Hz|Hnz].
    + assert (Hq : ((n + step - 1) / step = n / step)%nat).
      { symmetry. apply (Nat.div_unique _ _ _ (step - 1)); lia. }
      assert (Hq' : ((S n + step - 1) / step = S (n / step))%nat).
      { symmetry. apply (Nat.div_unique _ _ _ 0); lia. }
      rewrite Hq, Hq', seq_S, List.map_app. cbn [List.map].
      do 3 f_equal. lia.
    + assert (Hq : ((n + step - 1) / step = S (n / step))%nat).
      { symmetry. apply (Nat.div_unique _ _ _ (n mod step - 1)); lia. }
      assert (Hq' : ((S n + step - 1) / step = S (n / step))%nat).
      { symmetry. apply (Nat.div_unique _ _ _ (n mod step)); lia. }
      rewrite Hq, Hq', app_nil_r. reflexivity.
Qed.

Lemma omap_cons {A B : Type} (f : A -> option B) (x : A) (l : list A) :
  omap f (x :: l)
  = match f x with Some y => y :: omap f l | None => omap f l end.
Proof. reflexivity. Qed.

Lemma omap_ext_Forall {A B : Type} (f g : A -> option B) (l : list A) :
  List.Forall (fun j => f j = g j) l -> omap f l = omap g l.
Proof.
  intros Hl. induction Hl as [|j l Hj Hl IHl]; [reflexivity|].
  rewrite !omap_cons, Hj, IHl. reflexivity.
Qed.

Lemma omap_total {A B : Type} (f : A -> option B) (g : A -> B) (l : list A) :
  List.Forall (fun j => f j = Some (g j)) l -> omap f l = List.map g l.
Proof.
  intros Hl. induction Hl as [|j l Hj Hl IHl]; [reflexivity|].
  rewrite omap_cons, Hj, IHl. reflexivity.
Qed.

Lemma filter_from_seq {A : Type} (p : nat -> bool) (a : list A) : forall i,
  filter_from p i a
  = omap (fun j => a !! (j - i)%nat) (List.filter p (seq i (length a))).
Proof.
  induction a as [|x r IH]; intros i; [reflexivity|].
  cbn [filter_from length seq List.filter].
  assert (Hext :
    omap (fun j => (x :: r) !! (j - i)%nat)
      (List.filter p (seq (S i) (length r)))
    = omap (fun j => r !! (j - S i)%nat)
        (List.filter p (seq (S i) (length r)))).
  { apply omap_ext_Forall, List.Forall_forall. intros j Hj.
    apply List.filter_In in Hj as [Hj _]. apply in_seq in Hj.
    replace (j - i)%nat with (S (j - S i)) by lia. reflexivity. }
  destruct (p i).
  - rewrite omap_cons, Nat.sub_diag. cbn [lookup list_lookup].
    rewrite Hext, <- IH. reflexivity.
  - rewrite Hext, <- IH. reflexivity.
Qed.

Lemma downsample_multiples {A : Type} (step : nat) (a : list A) :
  (1 <= step)%nat ->
  downsample step a
  = omap (fun k => a !! (k * step)%nat)
      (seq 0 ((length a + step - 1) / step)).
Proof.
  intros Hs. unfold downsample.
  rewrite filter_from_seq, multiples_below by exact Hs.
  generalize (seq 0 ((length a + step - 1) / step)) as l.
  induction l as [|k l IH]; [reflexivity|].
  cbn [List.map]. rewrite !omap_cons, Nat.sub_0_r, IH. reflexivity.
Qed.

(** The kept indices are inside the array. *)
Lemma multiple_in_range (step n j : nat) :
  (1 <= step)%nat -> (j < (n + step - 1) / step)%nat -> (j * step < n)%nat.
Proof.
  intros Hs Hj.
  pose proof (Nat.div_mod_eq (n + step - 1) step) as Hdm.
  pose proof (Nat.mod_upper_bound (n + step - 1) step ltac:(lia)).
  nia.
Qed.

Lemma downsample_map {A : Type} (step : nat) (a : list A) (d : A) :
  (1 <= step)%nat ->
  downsample step a
  = List.map (fun k => default d (a !! (k * step)%nat))
      (seq 0 ((length a + step - 1) / step)).
Proof.
  intros Hs. rewrite downsample_multiples by exact Hs.
  apply omap_total, List.Forall_forall. intros j Hj. apply in_seq in Hj.
  destruct (lookup_lt_is_Some_2 a (j * step)%nat) as [v Hv].
  { apply multiple_in_range; [exact Hs|lia]. }
  rewrite Hv. reflexivity.
Qed.

Lemma downsample_length {A : Type} (step : nat) (a : list A) :
  (1 <= step)%nat ->
  length (downsample step a) = ((length a + step - 1) / step)%nat.
Proof.
  intros Hs. destruct a as [|x r].
  - simpl. rewrite Nat.div_small by lia. reflexivity.
  - rewrite (downsample_map step (x :: r) x Hs), length_map, length_seq.
    reflexivity.
Qed.

Lemma downsample_lookup {A : Type} (step : nat) (a : list A) (k : nat) :
  (1 <= step)%nat ->
  (k < (length a + step - 1) / step)%nat ->
  downsample step a !! k = a !! (k * step)%nat
  /\ is_Some (a !! (k * step)%nat).
Proof.
  intros Hs Hk.
  destruct (lookup_lt_is_Some_2 a (k * step)%nat) as [v Hv].
  { apply multiple_in_range; assumption. }
  split; [|eauto].
  rewrite (downsample_map step a v Hs), list_lookup_fmap,
    lookup_seq_lt by exact Hk.
  simpl. rewrite Hv. reflexivity.
Qed.

Lemma chart_step_bound (n : nat) :
  (1 <= chart_step n)%nat
  /\ ((n + chart_step n - 1) / chart_step n <= 999)%nat
  /\ ((n + chart_step n - 1) / chart_step n <= n)%nat.
Proof.
  unfold chart_step.
  pose proof (Nat.div_mod_eq n 500) as Hdm.
  pose proof (Nat.mod_upper_bound n 500 ltac:(lia)) as Hub.
  set (q := (n / 500)%nat) in *.
  split; [lia|].
  assert (Hs : (1 <= Nat.max 1 q)%nat) by lia.
  split.
  - apply Nat.lt_succ_r.
    apply Nat.Div0.div_lt_upper_bound. destruct (Nat.le_gt_cases q 1).
    + replace (Nat.max 1 q) with 1%nat by lia. lia.
    + replace (Nat.max 1 q) with q by lia. nia.
  - apply Nat.lt_succ_r.
    apply Nat.Div0.div_lt_upper_bound. nia.
Qed.

(** X8. The charts keep every [step]-th sample, with
    [step = max(1, floor(N / 500))] never 0: the downsampled series has
    [ceil(N / step)] points, at most 999 and at most [N]; its [k]-th point
    is sample [k * step], so the first sample is always kept. *)
Theorem chart_downsampling (a : list float) :
  let step := chart_step (length a) in
  let points := downsample step a in
  (1 <= step)%nat
  /\ length points = ((length a + step - 1) / step)%nat
  /\ (length points <= 999)%nat
  /\ (length points <= length a)%nat
  /\ (forall k : nat, (k < length points)%nat ->
        points !! k = a !! (k * step)%nat
        /\ is_Some (a !! (k * step)%nat)).
Proof.
  intros step points.
  destruct (chart_step_bound (length a)) as (Hs & H999 & Hn).
  fold step in Hs, H999, Hn.
  assert (Hlen : length points = ((length a + step - 1) / step)%nat)
    by (apply downsample_length, Hs).
  split; [exact Hs|]. split; [exact Hlen|].
  rewrite Hlen. split; [exact H999|]. split; [exact Hn|].
  intros k Hk. apply downsample_lookup; assumption.
Qed.

End DownsampleFacts.

Section ChartFacts.
Context {host : Host}.

Lemma chart_step_pos (n : nat) : (1 <= chart_step n)%nat.
Proof. unfold chart_step. lia. Qed.

(** X9. The error chart is aligned: for two stores whose time and
    latitude arrays have the same length, the label axis and the three
    error series all have [ceil(n / step)] points, [n] the number of common
    samples.  The velocity and attitude charts take their step and labels
    from the reference store alone: their reference series have as many
    points as there are labels, their SENF series [ceil(N_test / step)]. *)
Theorem chart_series_lengths (refData testData : Store) :
  let n := Nat.min (length (time refData)) (length (time testData)) in
  let step := chart_step (length (time refData)) in
  (length (lat refData) = length (time refData) ->
   length (lat testData) = length (time testData) ->
   let c := createErrorChart_data refData testData in
   length (labels c) = ((n + chart_step n - 1) / chart_step n)%nat
   /\ Forall (fun ds => length (ds_data ds) = length (labels c))
        (datasets c))
  /\ (length (vn refData) = length (time refData) ->
      length (ve refData) = length (time refData) ->
      length (vd refData) = length (time refData) ->
      let c := createVelocityChart_data refData testData in
      forall (k : nat) (ds : Dataset),
        datasets c !! k = Some ds ->
        (Nat.even k = true -> length (ds_data ds) = length (labels c))
        /\ (k = 1%nat ->
            length (ds_data ds)
            = ((length (vn testData) + step - 1) / step)%nat)
        /\ (k = 3%nat ->
            length (ds_data ds)
            = ((length (ve testData) + step - 1) / step)%nat)
        /\ (k = 5%nat ->
            length (ds_data ds)
            = ((length (vd testData) + step - 1) / step)%nat))
  /\ (length (qw refData) = length (time refData) ->
      let c := createAttitudeChart_data refData testData in
      forall (k : nat) (ds : Dataset),
        datasets c !! k = Some ds ->
        (Nat.even k = true -> length (ds_data ds) = length (labels c))
        /\ (Nat.odd k = true ->
            length (ds_data ds)
            = ((length (qw testData) + step - 1) / step)%nat)).
Proof.
  intros n step. split; [|split].
  - intros Hr Ht c.
    destruct (computePositionError_entries refData testData)
      as [(_ & _ & Hd & Hh & H3) _].
    rewrite Hr, Ht in Hd, Hh, H3. fold n in Hd, Hh, H3.
    assert (Hl : length (firstn n (time refData)) = n)
      by (rewrite length_firstn; unfold n; lia).
    unfold c, createErrorChart_data. fold n. cbn [labels datasets].
    rewrite !downsample_length, Hl by apply chart_step_pos.
    split; [reflexivity|].
    repeat constructor; cbn [ds_data];
      rewrite downsample_length by apply chart_step_pos;
      rewrite ?Hd, ?Hh, ?H3; reflexivity.
  - intros Hvn Hve Hvd c k ds Hk.
    unfold c, createVelocityChart_data in *. fold step in Hk |- *.
    cbn [labels datasets] in *.
    assert (Hs : (1 <= step)%nat) by apply chart_step_pos.
    do 6 (destruct k as [|k];
          [injection Hk as <-; cbn [ds_data];
           rewrite !downsample_length by exact Hs;
           rewrite ?Hvn, ?Hve, ?Hvd;
           repeat split; intros; try reflexivity; try discriminate;
           try lia|]).
    discriminate.
  - intros Hqw c k ds Hk.
    unfold c, createAttitudeChart_data in *. fold step in Hk |- *.
    rewrite !quaternionToEuler_map in Hk.
    cbn [labels datasets roll pitch yaw] in *.
    assert (Hs : (1 <= step)%nat) by apply chart_step_pos.
    do 6 (destruct k as [|k];
          [injection Hk as <-; cbn [ds_data];
           rewrite !downsample_length by exact Hs;
           rewrite !length_map, !length_seq, ?Hqw;
           split; intros; try reflexivity; discriminate|]).
    discriminate.
Qed.

End ChartFacts.

Section LinePointFacts.

Lemma ceil_step (m step : nat) :
  (1 <= step)%nat -> (1 <= m)%nat ->
  ((m + step - 1) / step = S ((m - step + step - 1) / step))%nat.
Proof.
  intros Hs Hm. destruct (Nat.le_gt_cases step m) as [Hge|Hlt].
  - replace (m + step - 1)%nat with ((m - step + step - 1) + 1 * step)%nat
      by lia.
    rewrite Nat.div_add by lia. lia.
  - replace (m - step)%nat with 0%nat by lia.
    rewrite (Nat.div_small (0 + step - 1)) by lia.
    symmetry. apply (Nat.div_unique _ _ _ (m - 1)); lia.
Qed.

Lemma flat_map_seq_shift {B : Type} (f : nat -> list B) (c : nat) :
  forall s, flat_map f (seq (S s) c) = flat_map (fun k => f (S k)) (seq s c).
Proof.
  induction c as [|c IH]; intros s; [reflexivity|].
  cbn [seq flat_map]. rewrite IH. reflexivity.
Qed.

Lemma line_points_from_spec (ned : NED) (n step : nat) :
  (1 <= step)%nat ->
  forall fuel i, (n - i <= fuel)%nat ->
    line_points_from fuel i n step ned
    = flat_map (fun k => vertex ned (i + k * step))
        (seq 0 ((n - i + step - 1) / step)).
Proof.
  intros Hs. induction fuel as [|fuel IH]; intros i Hf.
  - replace (n - i)%nat with 0%nat by lia.
    rewrite Nat.div_small by lia. reflexivity.
  - cbn [line_points_from].
    destruct (Nat.ltb_spec i n) as [Hlt|Hge].
    + rewrite IH by lia.
      rewrite (ceil_step (n - i) step) by lia.
      replace (n - i - step)%nat with (n - (i + step))%nat by lia.
      rewrite <- cons_seq. cbn [flat_map].
      rewrite Nat.mul_0_l, Nat.add_0_r. f_equal.
      rewrite flat_map_seq_shift.
      apply flat_map_ext. intros k. f_equal. lia.
    + replace (n - i)%nat with 0%nat by lia.
      rewrite Nat.div_small by lia. reflexivity.
Qed.

Lemma line_step_bound (n : nat) :
  (1 <= line_step n)%nat
  /\ ((n + line_step n - 1) / line_step n <= 3999)%nat.
Proof.
  unfold line_step.
  pose proof (Nat.div_mod_eq n 2000) as Hdm.
  pose proof (Nat.mod_upper_bound n 2000 ltac:(lia)) as Hub.
  set (q := (n / 2000)%nat) in *.
  split; [lia|].
  apply Nat.lt_succ_r.
  apply Nat.Div0.div_lt_upper_bound. destruct (Nat.le_gt_cases q 1).
  - replace (Nat.max 1 q) with 1%nat by lia. lia.
  - replace (Nat.max 1 q) with q by lia. nia.
Qed.

(** X10. The loop [for (i = 0; i < n; i += step)] that builds a 3D
    line visits the indices [0, step, 2 step, ...] below [n], the ones the
    charts keep with [i % step === 0]: for a step of at least 1 it pushes
    [ceil(n / step)] vertices [(east[i], -down[i], north[i])], three numbers
    each; with [step = max(1, floor(N / 2000))] taken from the track's own
    length, that is at most 3999 vertices. *)
Theorem line_points_vertices (ned : NED) (step : nat) :
  (1 <= step)%nat ->
  let n := length (east ned) in
  let c := ((n + step - 1) / step)%nat in
  line_points step ned
  = flat_map (fun k => vertex ned (k * step)) (seq 0 c)
  /\ length (line_points step ned) = (3 * c)%nat
  /\ (step = line_step n -> (c <= 3999)%nat).
Proof.
  intros Hs n c.
  assert (Heq : line_points step ned
                = flat_map (fun k => vertex ned (k * step)) (seq 0 c)).
  { unfold line_points. fold n.
    rewrite (line_points_from_spec ned n step Hs n 0) by lia.
    rewrite Nat.sub_0_r. reflexivity. }
  split; [exact Heq|]. split.
  - rewrite Heq.
    assert (Hlen : forall l : list nat,
      length (flat_map (fun k => vertex ned (k * step)) l)
      = (3 * length l)%nat).
    { induction l as [|k l IH]; [reflexivity|].
      cbn [flat_map]. rewrite length_app, IH. simpl. lia. }
    rewrite Hlen, length_seq. reflexivity.
  - intros ->. apply line_step_bound.
Qed.

End LinePointFacts.

(* ===================================================================== *)
(** ** Playback over sequences of events *)
(* ===================================================================== *)

Section PlaybackRuns.

Lemma animate_paused (t now : float) (s : Player) :
  isPlaying (playback s) = false -> animate t now s = s.
Proof.
  intros Hp. unfold animate. rewrite Hp.
  destruct (testData s); reflexivity.
Qed.

Lemma animate_playing (t now : float) (s : Player) (d : Store) :
  testData s = Some d -> isPlaying (playback s) = true ->
  let i' := Z.min (last_index d) (index (playback s) + 5) in
  testData (animate t now s) = Some d
  /\ index (playback (animate t now s)) = i'
  /\ isPlaying (playback (animate t now s)) = negb (i' >=? last_index d)%Z
  /\ pauseIconShown (animate t now s)
     = (if (i' >=? last_index d)%Z then false else pauseIconShown s).
Proof.
  intros Hd Hp i'. unfold animate. rewrite Hd, Hp.
  unfold speedMultiplier. fold i'.
  destruct (i' >=? last_index d)%Z; simpl.
  - unfold togglePlay; simpl. rewrite ?Hd. simpl. repeat split; exact Hd.
  - repeat split; exact Hd.
Qed.


Lemma frames_closed_form (d : Store) (evs : list PlayerEvent) :
  forallb is_frame evs = true ->
  forall s, testData s = Some d -> isPlaying (playback s) = true ->
    evs <> [] ->
    let k := Z.of_nat (length evs) in
    let i := index (playback s) in
    index (playback (player_run evs s)) = Z.min (last_index d) (i + 5 * k)
    /\ isPlaying (playback (player_run evs s))
       = (i + 5 * k <? last_index d)%Z.
Proof.
  induction evs as [|ev evs IH]; intros Hevs s Hd Hp Hne; [congruence|].
  simpl in Hevs. apply andb_true_iff in Hevs as [Hev Hevs].
  destruct ev as [now|t now|idx now|refLoaded|data]; try discriminate.
  cbn [player_run fold_left player_step].
  fold (player_run evs (animate t now s)).
  destruct (animate_playing t now s d Hd Hp) as (Hd' & Hi' & Hpl & _).
  set (L := last_index d) in *. set (i := index (playback s)) in *.
  destruct evs as [|ev' evs'].
  - cbn [player_run fold_left length]. rewrite Hi', Hpl.
    split; [f_equal; lia|].
    destruct (Z.geb_spec (Z.min L (i + 5)) L),
             (Z.ltb_spec (i + 5 * Z.of_nat 1) L); simpl; lia.
  - destruct (Z.geb_spec (Z.min L (i + 5)) L) as [Hge|Hlt]; simpl in Hpl.
    + (* paused at the last sample: the remaining frames change nothing *)
      assert (Hstay : forall l s0, forallb is_frame l = true ->
                isPlaying (playback s0) = false -> player_run l s0 = s0).
      { induction l as [|e l IHl]; intros s0 Hl Hs0; [reflexivity|].
        simpl in Hl. apply andb_true_iff in Hl as [He Hl].
        destruct e; try discriminate.
        cbn [player_run fold_left player_step].
        rewrite animate_paused by exact Hs0. apply IHl; assumption. }
      rewrite (Hstay _ _ Hevs Hpl), Hi', Hpl.
      cbn [length]. split; [lia|].
      symmetry. apply Z.ltb_ge. lia.
    + destruct (IH Hevs (animate t now s) Hd' Hpl ltac:(discriminate))
        as [Hi'' Hp''].
      rewrite Hi'' , Hp'', Hi'. cbn [length].
      split; [lia|].
      destruct (Z.ltb_spec (Z.min L (i + 5)
                            + 5 * Z.of_nat (S (length evs'))) L),
               (Z.ltb_spec (i + 5 * Z.of_nat (S (S (length evs')))) L);
        try reflexivity; lia.
Qed.

End PlaybackRuns.

(* ===================================================================== *)
(** ** Plane pose *)
(* ===================================================================== *)

Section PlanePoseFacts.
Context {host : Host}.
Import FloatFacts FloatArith.
Local Open Scope float_scope.

Lemma validate_index_range (index : Z) (n : nat) :
  (1 <= n)%nat ->
  (0 <= validate_index index n <= Z.of_nat n - 1)%Z
  /\ ((0 <= index <= Z.of_nat n - 1)%Z -> validate_index index n = index).
Proof. intros Hn. unfold validate_index. lia. Qed.

Lemma elem_nat (a : list float) (c : Z) :
  (0 <= c)%Z -> elem a c = a !! Z.to_nat c.
Proof.
  intros Hc. rewrite <- (Z2Nat.id c) at 1 by exact Hc. apply elem_lookup.
Qed.

Lemma store_length_channels (d : Store) (n : nat) :
  store_length d n ->
  length (time d) = n /\ length (lat d) = n /\ length (lon d) = n
  /\ length (alt d) = n /\ length (qw d) = n /\ length (qx d) = n
  /\ length (qy d) = n /\ length (qz d) = n.
Proof.
  intros H. repeat split; apply H; simpl; tauto.
Qed.

(** X11. Showing a sample of a well-formed, non-empty test store on
    its own track never fails, whatever index is asked for: the index is
    brought into [0 .. N - 1] (and left alone when it is there), the
    position is sample [c] of the track with the height [alt[c] - alt[0]],
    the attitude is [(-qy[c], qz[c], -qx[c], qw[c])] and the read-out shows
    the time of sample [c] with two decimals. *)
Theorem updatePlanePosition_on_own_track (d : Store) (n : nat) (index : Z) :
  (1 <= n)%nat -> store_length d n ->
  let c := Z.max 0 (Z.min index (Z.of_nat n - 1)) in
  (0 <= c <= Z.of_nat n - 1)%Z
  /\ ((0 <= index <= Z.of_nat n - 1)%Z -> c = index)
  /\ (forall (t al w x y z : float),
        time d !! Z.to_nat c = Some t -> alt d !! Z.to_nat c = Some al ->
        qw d !! Z.to_nat c = Some w -> qx d !! Z.to_nat c = Some x ->
        qy d !! Z.to_nat c = Some y -> qz d !! Z.to_nat c = Some z ->
        exists (east_c north_c : float),
          east (test_track d) !! Z.to_nat c = Some east_c
          /\ north (test_track d) !! Z.to_nat c = Some north_c
          /\ updatePlanePosition (Some (test_track d)) d true index
             = done {| pose_index := c;
                       pose_x := Some east_c;
                       pose_y := al - to_number (elem (alt d) 0);
                       pose_z := Some north_c;
                       pose_qx := - y; pose_qy := Some z;
                       pose_qz := - x; pose_qw := Some w;
                       pose_time :=
                         Some ("Time: " ++ toFixed t 2 ++ "s")%string |})
  /\ (exists pose : PlanePose,
        updatePlanePosition (Some (test_track d)) d true index = done pose).
Proof.
  intros Hn Hlen c.
  destruct (store_length_channels d n Hlen)
    as (Ht & Hla & Hlo & Hal & Hqw & Hqx & Hqy & Hqz).
  destruct (validate_index_range index n Hn) as [Hc Hid].
  unfold validate_index in Hc, Hid. fold c in Hc, Hid.
  assert (Heast : length (east (test_track d)) = n).
  { unfold test_track. rewrite convertToNED_map. simpl.
    rewrite length_map, length_seq. exact Hla. }
  assert (Hcn : (Z.to_nat c < n)%nat) by lia.
  assert (Hpose : forall (t al w x y z : float),
    time d !! Z.to_nat c = Some t -> alt d !! Z.to_nat c = Some al ->
    qw d !! Z.to_nat c = Some w -> qx d !! Z.to_nat c = Some x ->
    qy d !! Z.to_nat c = Some y -> qz d !! Z.to_nat c = Some z ->
    exists (east_c north_c : float),
      east (test_track d) !! Z.to_nat c = Some east_c
      /\ north (test_track d) !! Z.to_nat c = Some north_c
      /\ updatePlanePosition (Some (test_track d)) d true index
         = done {| pose_index := c;
                   pose_x := Some east_c;
                   pose_y := al - to_number (elem (alt d) 0);
                   pose_z := Some north_c;
                   pose_qx := - y; pose_qy := Some z;
                   pose_qz := - x; pose_qw := Some w;
                   pose_time :=
                     Some ("Time: " ++ toFixed t 2 ++ "s")%string |}).
  { intros t al w x y z Htc Halc Hwc Hxc Hyc Hzc.
    destruct (lookup_lt_is_Some_2 (lat d) (Z.to_nat c)) as [la Hlac];
      [lia|].
    destruct (lookup_lt_is_Some_2 (lon d) (Z.to_nat c)) as [lo Hloc];
      [lia|].
    destruct (convertToNED_lookup (lat d) (lon d) (alt d)
                (to_number (elem (lat d) 0)) (to_number (elem (lon d) 0))
                (to_number (elem (alt d) 0)) _ _ _ _ Hlac Hloc Halc)
      as (Hnc & Hec & Hdc).
    fold (test_track d) in Hnc, Hec, Hdc.
    eexists. eexists. split; [exact Hec|]. split; [exact Hnc|].
    unfold updatePlanePosition, validate_index. rewrite Heast. fold c.
    rewrite (elem_nat (time d) c), (elem_nat (east (test_track d)) c),
      (elem_nat (down (test_track d)) c),
      (elem_nat (north (test_track d)) c), (elem_nat (qw d) c),
      (elem_nat (qx d) c), (elem_nat (qy d) c), (elem_nat (qz d) c) by lia.
    rewrite Htc, Hec, Hnc, Hdc, Hwc, Hxc, Hyc, Hzc. simpl.
    rewrite opp_involutive. reflexivity. }
  split; [exact Hc|]. split; [exact Hid|]. split; [exact Hpose|].
  destruct (lookup_lt_is_Some_2 (time d) (Z.to_nat c)) as [t Htc]; [lia|].
  destruct (lookup_lt_is_Some_2 (alt d) (Z.to_nat c)) as [al Halc]; [lia|].
  destruct (lookup_lt_is_Some_2 (qw d) (Z.to_nat c)) as [w Hwc]; [lia|].
  destruct (lookup_lt_is_Some_2 (qx d) (Z.to_nat c)) as [x Hxc]; [lia|].
  destruct (lookup_lt_is_Some_2 (qy d) (Z.to_nat c)) as [y Hyc]; [lia|].
  destruct (lookup_lt_is_Some_2 (qz d) (Z.to_nat c)) as [z Hzc]; [lia|].
  destruct (Hpose t al w x y z Htc Halc Hwc Hxc Hyc Hzc)
    as (e & nn & _ & _ & Hdone).
  eexists. exact Hdone.
Qed.

(** X12. The track kept from the last analysis can be longer than the
    test store loaded since: showing a sample that this track has and the
    store lacks sets the position and then raises a [TypeError] at the time
    read-out.  Before the first analysis there is no track and nothing
    happens. *)
Theorem updatePlanePosition_stale_track
    (ned : NED) (d : Store) (index : Z) :
  (updatePlanePosition None d true index = skipped)
  /\ ((0 <= index <= Z.of_nat (length (east ned)) - 1)%Z ->
      (Z.of_nat (length (time d)) <= index)%Z ->
      exists pose : PlanePose,
        updatePlanePosition (Some ned) d true index = thrown pose
        /\ pose_index pose = index
        /\ pose_x pose = east ned !! Z.to_nat index
        /\ pose_time pose = None).
Proof.
  split; [reflexivity|].
  intros Hi Hlen. unfold updatePlanePosition, validate_index.
  replace (Z.max 0 (Z.min index (Z.of_nat (length (east ned)) - 1)))
    with index by lia.
  rewrite !elem_nat by lia.
  assert (Hnone : time d !! Z.to_nat index = None)
    by (apply lookup_ge_None; lia).
  rewrite Hnone. eexists. split; [reflexivity|]. simpl. auto.
Qed.

End PlanePoseFacts.

(* ===================================================================== *)
(** ** Playback runs on the scene *)
(* ===================================================================== *)

Section SceneFacts.
Context {host : Host}.
Variable timeDisplay : bool.

Lemma updatePlanePosition_returns
    (ned : option NED) (d : Store) (index : Z) (pose : PlanePose) :
  (1 <= length (time d))%nat ->
  (index <= last_index d)%Z ->
  updatePlanePosition ned d timeDisplay index <> thrown pose.
Proof.
  intros Hn Hi. unfold updatePlanePosition, last_index in *.
  destruct ned as [ned|]; [|discriminate].
  destruct timeDisplay; [|discriminate].
  set (v := validate_index index (length (east ned))).
  assert (Hv : (0 <= v <= Z.of_nat (length (time d)) - 1)%Z)
    by (unfold v, validate_index; lia).
  rewrite (elem_nat (time d) v) by lia.
  destruct (time d !! Z.to_nat v) as [t|] eqn:E; [discriminate|].
  apply lookup_ge_None in E. lia.
Qed.

Lemma place_plane_returns
    (d : Store) (index : Z) (s : Player) (rest : Player -> Player)
    (sc : Scene) :
  (1 <= length (time d))%nat -> (index <= last_index d)%Z ->
  player (place_plane timeDisplay d index s rest sc) = rest s
  /\ testNED (place_plane timeDisplay d index s rest sc) = testNED sc.
Proof.
  intros Hn Hi. unfold place_plane.
  pose proof (updatePlanePosition_returns (testNED sc) d index) as Hr.
  destruct (updatePlanePosition (testNED sc) d timeDisplay index)
    as [pose| |pose]; [split; reflexivity|split; reflexivity|].
  exfalso. exact (Hr pose Hn Hi eq_refl).
Qed.

Lemma place_plane_cases
    (d : Store) (index : Z) (s : Player) (rest : Player -> Player)
    (sc : Scene) :
  player (place_plane timeDisplay d index s rest sc) = rest s
  \/ (player (place_plane timeDisplay d index s rest sc) = s
      /\ exists pose,
           updatePlanePosition (testNED sc) d timeDisplay index
           = thrown pose).
Proof.
  unfold place_plane.
  destruct (updatePlanePosition (testNED sc) d timeDisplay index)
    as [pose| |pose]; [left; reflexivity|left; reflexivity|].
  right. split; [reflexivity|]. exists pose. reflexivity.
Qed.

(** On a test store with samples, a handler whose index is not beyond the
    last sample acts on the player as the playback handlers taken alone. *)
Lemma scene_step_player (d : Store) (ev : PlayerEvent) (sc : Scene) :
  (1 <= length (time d))%nat ->
  testData (player sc) = Some d ->
  match ev with
  | ev_slider idx _ => (idx <= last_index d)%Z
  | ev_load _ => False
  | _ => True
  end ->
  player (scene_step timeDisplay ev sc) = player_step ev (player sc).
Proof.
  intros Hn Hd Hev.
  assert (HL : (0 <= last_index d)%Z) by (unfold last_index; lia).
  destruct ev as [now|t now|idx now|refLoaded|data]; simpl.
  - reflexivity.
  - unfold scene_frame, animate. rewrite Hd.
    destruct (isPlaying (playback (player sc))); [|reflexivity].
    cbv zeta.
    rewrite (proj1 (place_plane_returns d _ _ _ sc Hn (Z.le_min_l _ _))).
    reflexivity.
  - unfold scene_slider, slider_input. rewrite Hd. cbv zeta.
    rewrite (proj1 (place_plane_returns d _ _ _ sc Hn Hev)).
    reflexivity.
  - unfold scene_analyze, reset_playback. rewrite Hd.
    destruct refLoaded; [|reflexivity]. cbv zeta.
    rewrite (proj1 (place_plane_returns d _ _ _ _ Hn HL)).
    reflexivity.
  - destruct Hev.
Qed.

Lemma scene_step_icon (ev : PlayerEvent) (sc : Scene) :
  loads_samples ev = true ->
  (forall d, testData (player sc) = Some d -> (1 <= length (time d))%nat) ->
  pauseIconShown (player sc) = isPlaying (playback (player sc)) ->
  let sc' := scene_step timeDisplay ev sc in
  (forall d, testData (player sc') = Some d -> (1 <= length (time d))%nat)
  /\ pauseIconShown (player sc') = isPlaying (playback (player sc')).
Proof.
  intros Hev Hne Hs sc'. subst sc'.
  destruct ev as [now|t now|idx now|refLoaded|data];
    cbn [scene_step loads_samples] in *.
  - unfold on_player, togglePlay; cbn [player].
    destruct (testData (player sc)) as [d|] eqn:Hd;
      [|rewrite Hd; split; [intros ? [=]|exact Hs]].
    pose proof (Hne d eq_refl) as Hn.
    destruct (isPlaying (playback (player sc))); cbn; rewrite ?Hd;
      (split; [intros ? [= <-]; exact Hn|reflexivity]).
  - unfold scene_frame.
    destruct (testData (player sc)) as [d|] eqn:Hd;
      [|split; [rewrite Hd; intros ? [=]|exact Hs]].
    pose proof (Hne d eq_refl) as Hn.
    destruct (isPlaying (playback (player sc))) eqn:Hp;
      [|split; [rewrite Hd; intros ? [= <-]; exact Hn|congruence]].
    cbv zeta. match goal with
    | |- context [place_plane _ ?dd ?i ?s ?r ?c] =>
        destruct (place_plane_cases dd i s r c) as [->|[-> _]]
    end.
    + destruct (_ >=? _)%Z.
      * unfold togglePlay; cbn. rewrite ?Hd. cbn. rewrite ?Hd.
        split; [intros ? [= <-]; exact Hn|reflexivity].
      * cbn. rewrite ?Hd. split; [intros ? [= <-]; exact Hn|congruence].
    + cbn. rewrite ?Hd. split; [intros ? [= <-]; exact Hn|congruence].
  - unfold scene_slider.
    destruct (testData (player sc)) as [d|] eqn:Hd;
      [|split; [rewrite Hd; intros ? [=]|exact Hs]].
    pose proof (Hne d eq_refl) as Hn.
    cbv zeta. match goal with
    | |- context [place_plane _ ?dd ?i ?s ?r ?c] =>
        destruct (place_plane_cases dd i s r c) as [->|[-> _]]
    end.
    + cbn [playback isPlaying].
      destruct (isPlaying (playback (player sc))) eqn:Hp.
      * unfold togglePlay; cbn. rewrite ?Hd, ?Hp. cbn. rewrite ?Hd.
        split; [intros ? [= <-]; exact Hn|reflexivity].
      * cbn. rewrite ?Hd, ?Hp.
        split; [intros ? [= <-]; exact Hn|congruence].
    + cbn. rewrite ?Hd. split; [intros ? [= <-]; exact Hn|exact Hs].
  - unfold scene_analyze.
    destruct (testData (player sc)) as [d|] eqn:Hd;
      [|split; [rewrite Hd; intros ? [=]|exact Hs]].
    pose proof (Hne d eq_refl) as Hn.
    destruct refLoaded;
      [|split; [rewrite Hd; intros ? [= <-]; exact Hn|exact Hs]].
    cbv zeta.
    match goal with
    | |- context [place_plane _ ?dd ?i ?s ?r ?c] =>
        rewrite (proj1 (place_plane_returns dd i s r c Hn
                          ltac:(unfold last_index; lia)))
    end.
    cbn. rewrite ?Hd. split; [intros ? [= <-]; exact Hn|reflexivity].
  - unfold on_player, load_test; cbn.
    split; [|exact Hs]. intros d [= <-]. apply Nat.leb_le, Hev.
Qed.

(** X13. The play/pause button shows the state of the player: as long
    as every loaded test store has a sample, then through any sequence of
    play clicks, frames, slider moves, analyses and uploads, also when a
    plane update throws in the middle of a handler, the pause icon is
    displayed exactly while playing. *)
Theorem pause_icon_tracks_playing (evs : list PlayerEvent) (sc : Scene) :
  forallb loads_samples evs = true ->
  (forall d, testData (player sc) = Some d -> (1 <= length (time d))%nat) ->
  pauseIconShown (player sc) = isPlaying (playback (player sc)) ->
  let sc' := scene_run timeDisplay evs sc in
  pauseIconShown (player sc') = isPlaying (playback (player sc')).
Proof.
  revert sc. induction evs as [|ev evs IH]; intros sc Hevs Hne Hs;
    [exact Hs|].
  cbn [forallb] in Hevs. apply andb_true_iff in Hevs as [Hev Hevs].
  destruct (scene_step_icon ev sc Hev Hne Hs) as [Hne' Hs'].
  exact (IH _ Hevs Hne' Hs').
Qed.


Lemma scene_frames_player (d : Store) (evs : list PlayerEvent) :
  (1 <= length (time d))%nat ->
  forallb is_frame evs = true ->
  forall sc, testData (player sc) = Some d ->
    player (scene_run timeDisplay evs sc) = player_run evs (player sc).
Proof.
  intros Hn. induction evs as [|ev evs IH]; intros Hevs sc Hd;
    [reflexivity|].
  cbn [forallb] in Hevs. apply andb_true_iff in Hevs as [Hev Hevs].
  destruct ev as [now|t now|idx now|refLoaded|data]; try discriminate.
  assert (Hstep : player (scene_step timeDisplay (ev_frame t now) sc)
                  = player_step (ev_frame t now) (player sc))
    by (apply (scene_step_player d); [exact Hn|exact Hd|exact I]).
  cbn [scene_run player_run fold_left].
  fold (scene_run timeDisplay evs (scene_step timeDisplay (ev_frame t now) sc)).
  fold (player_run evs (player_step (ev_frame t now) (player sc))).
  rewrite <- Hstep. apply IH; [exact Hevs|].
  rewrite Hstep. cbn [player_step].
  destruct (isPlaying (playback (player sc))) eqn:Hp.
  - apply (animate_playing t now (player sc) d Hd Hp).
  - rewrite animate_paused by exact Hp. exact Hd.
Qed.

(** X15. Playback in closed form: on a test store with samples, from
    a playing player at index [i], after [k >= 1] frames the index is
    [min(N - 1, i + 5 k)] and the player is still playing exactly when
    [i + 5 k < N - 1]; so playback reaches the last sample and pauses there
    within [ceil((N - 1 - i) / 5)] frames, whatever the frame times. *)
Theorem playback_after_frames
    (d : Store) (evs : list PlayerEvent) (sc : Scene) :
  (1 <= length (time d))%nat ->
  forallb is_frame evs = true -> evs <> [] ->
  testData (player sc) = Some d ->
  isPlaying (playback (player sc)) = true ->
  let N := Z.of_nat (length (time d)) in
  let k := Z.of_nat (length evs) in
  let i := index (playback (player sc)) in
  let s' := player (scene_run timeDisplay evs sc) in
  index (playback s') = Z.min (N - 1) (i + 5 * k)
  /\ isPlaying (playback s') = (i + 5 * k <? N - 1)%Z
  /\ (N - 1 <= i + 5 * k ->
      index (playback s') = N - 1 /\ isPlaying (playback s') = false)%Z.
Proof.
  intros Hn Hevs Hne Hd Hp N k i s'. subst s'.
  rewrite (scene_frames_player d evs Hn Hevs sc Hd).
  destruct (frames_closed_form d evs Hevs (player sc) Hd Hp Hne) as [Hi Hpl].
  unfold last_index in Hi, Hpl. fold N k i in Hi, Hpl.
  split; [exact Hi|]. split; [exact Hpl|].
  intros Hge. rewrite Hi, Hpl. split; [lia|].
  apply Z.ltb_ge. lia.
Qed.

(** X16. Scrubbing: without a test store a slider move does nothing.
    With one, the index becomes the slider value [idx] as it is, without
    clamping.  When the plane update returns, which it does for a store with
    samples and [idx] not beyond its last sample, the player is paused
    afterwards, whether it was playing or not; when the plane update throws,
    the handler stops there and the player keeps playing if it was. *)
Theorem slider_scrub (idx : Z) (now : float) (sc : Scene) :
  (testData (player sc) = None -> scene_slider timeDisplay idx now sc = sc)
  /\ (forall d : Store, testData (player sc) = Some d ->
        let s' := player (scene_slider timeDisplay idx now sc) in
        index (playback s') = idx
        /\ planeIndex s' = Some idx
        /\ testData s' = Some d
        /\ ((1 <= length (time d))%nat -> (idx <= last_index d)%Z ->
            isPlaying (playback s') = false)
        /\ (forall pose,
              updatePlanePosition (testNED sc) d timeDisplay idx
              = thrown pose ->
              isPlaying (playback s') = isPlaying (playback (player sc)))
        /\ ((forall pose,
               updatePlanePosition (testNED sc) d timeDisplay idx
               <> thrown pose) ->
            isPlaying (playback s') = false)).
Proof.
  split.
  - intros Hn. unfold scene_slider. rewrite Hn. reflexivity.
  - intros d Hd s'. subst s'. unfold scene_slider. rewrite Hd. cbv zeta.
    assert (Hrest : forall s0 : Player,
      testData s0 = Some d -> index (playback s0) = idx ->
      planeIndex s0 = Some idx ->
      let r := if isPlaying (playback s0) then togglePlay now s0 else s0 in
      index (playback r) = idx /\ planeIndex r = Some idx
      /\ testData r = Some d /\ isPlaying (playback r) = false).
    { intros s0 H0 H1 H2. destruct (isPlaying (playback s0)) eqn:Hp0.
      - unfold togglePlay; cbn. rewrite ?H0, ?Hp0. cbn. auto.
      - cbn. auto. }
    unfold place_plane.
    destruct (updatePlanePosition (testNED sc) d timeDisplay idx)
      as [pose| |pose] eqn:Hout; cbn [player].
    + match goal with
      | |- context [if isPlaying (playback ?s0) then _ else _] =>
          destruct (Hrest s0 eq_refl eq_refl eq_refl) as (R1 & R2 & R3 & R4)
      end.
      repeat split; try assumption; try (intros; assumption).
      intros pose' [=].
    + match goal with
      | |- context [if isPlaying (playback ?s0) then _ else _] =>
          destruct (Hrest s0 eq_refl eq_refl eq_refl) as (R1 & R2 & R3 & R4)
      end.
      repeat split; try assumption; try (intros; assumption).
      intros pose' [=].
    + cbn. repeat split; try exact Hd.
      * intros Hn Hi. exfalso.
        exact (updatePlanePosition_returns (testNED sc) d idx pose Hn Hi Hout).
      * intros Hno. exfalso. exact (Hno pose eq_refl).
Qed.

(** X17. An empty test store beside a stored track, on a page with
    the time read-out: every frame's plane update throws at the read-out,
    before the check that pauses playback at the last sample, so the player
    never leaves the playing state and its index stays at
    [min(-1, i + 5 k)]. *)
Theorem frames_on_empty_store
    (d : Store) (ned : NED) (evs : list PlayerEvent) (sc : Scene) :
  timeDisplay = true ->
  length (time d) = 0%nat ->
  forallb is_frame evs = true ->
  testData (player sc) = Some d -> testNED sc = Some ned ->
  isPlaying (playback (player sc)) = true ->
  let s' := player (scene_run timeDisplay evs sc) in
  isPlaying (playback s') = true
  /\ (evs <> [] ->
      index (playback s')
      = Z.min (-1) (index (playback (player sc))
                    + 5 * Z.of_nat (length evs)))%Z.
Proof.
  intros Htd Hlen. revert sc.
  induction evs as [|ev evs IH]; intros sc Hevs Hd Hned Hp;
    [split; [exact Hp|congruence]|].
  cbn [forallb] in Hevs. apply andb_true_iff in Hevs as [Hev Hevs].
  destruct ev as [now|t now|idx now|refLoaded|data]; try discriminate.
  cbn [scene_run fold_left scene_step].
  fold (scene_run timeDisplay evs (scene_frame timeDisplay t now sc)).
  set (i := index (playback (player sc))) in *.
  assert (Hthrow : forall index,
            exists pose, updatePlanePosition (Some ned) d timeDisplay index
                         = thrown pose).
  { intros index. unfold updatePlanePosition. rewrite Htd.
    set (v := validate_index index (length (east ned))).
    assert (Hv : (0 <= v)%Z) by (unfold v, validate_index; lia).
    rewrite (elem_nat (time d) v) by exact Hv.
    destruct (time d !! Z.to_nat v) as [x|] eqn:E; [|eexists; reflexivity].
    apply lookup_lt_Some in E. lia. }
  assert (Hframe :
    testData (player (scene_frame timeDisplay t now sc)) = Some d
    /\ testNED (scene_frame timeDisplay t now sc) = Some ned
    /\ isPlaying (playback (player (scene_frame timeDisplay t now sc))) = true
    /\ index (playback (player (scene_frame timeDisplay t now sc)))
       = Z.min (-1) (i + 5)).
  { unfold scene_frame. rewrite Hd, Hp. cbv zeta. unfold place_plane.
    rewrite Hned.
    destruct (Hthrow (Z.min (last_index d)
                        (index (playback (player sc)) + speedMultiplier)))
      as [pose ->].
    cbn. unfold last_index, speedMultiplier. rewrite Hlen. fold i.
    repeat split; try assumption. }
  destruct Hframe as (Hd' & Hned' & Hp' & Hi').
  destruct (IH _ Hevs Hd' Hned' Hp') as [Hpl Hidx].
  split; [exact Hpl|]. intros _.
  destruct evs as [|ev' evs'].
  - cbn [scene_run fold_left length]. rewrite Hi'. lia.
  - rewrite Hidx by discriminate. rewrite Hi'. cbn [length]. lia.
Qed.

End SceneFacts.

(* ===================================================================== *)
(** ** Zoom histories across views and operations *)
(* ===================================================================== *)

Section ZoomMoreFacts.
Context {lib : ChartLib}.

Lemma zoom_step_other_view (op : ZoomOp) (st : ZoomCtl) (other : string) :
  op_view op <> Some other ->
  zoomHistory (zoom_step op st) !! other = zoomHistory st !! other.
Proof.
  intros Hne.
  destruct op as [n|n|n| |n c|c| ]; simpl in *; try reflexivity.
  - unfold onZoomStart. destruct (chart_named n st); [|reflexivity].
    unfold saveZoomState; simpl. apply lookup_insert_ne. congruence.
  - unfold undoZoom. destruct (chart_named n st); [|reflexivity].
    destruct (zoomHistory st !! n); [|reflexivity].
    destruct (pop l) as [[prev rest]|]; [|reflexivity].
    simpl. rewrite zoomHistory_set_chart. simpl.
    apply lookup_insert_ne. congruence.
  - unfold reset_click. destruct (charts st !! n); [|reflexivity].
    simpl. apply lookup_insert_ne. congruence.
  - unfold modal_reset_click. destruct (modalChart st); [|reflexivity].
    simpl. apply lookup_insert_ne. congruence.
Qed.

(** X18. Views are independent: whatever happens on other views (zoom
    starts, undos, resets, charts created, the modal opened or closed), a
    view's zoom history stays as it is. *)
Theorem zoom_history_other_views
    (ops : list ZoomOp) (st : ZoomCtl) (view : string) :
  Forall (fun op => op_view op <> Some view) ops ->
  zoomHistory (zoom_run ops st) !! view = zoomHistory st !! view.
Proof.
  intros Hall. revert st.
  induction Hall as [|op ops Hop Hops IH]; intros st; [reflexivity|].
  simpl. fold (zoom_run ops (zoom_step op st)).
  rewrite IH. apply zoom_step_other_view, Hop.
Qed.

Lemma chart_named_set_chart (n : string) (c : Chart) (st : ZoomCtl) :
  chart_named n (set_chart n c st) = Some c.
Proof.
  unfold chart_named, set_chart.
  destruct (String.eqb n "modal") eqn:E; simpl; rewrite ?E;
    [reflexivity|apply lookup_insert_eq].
Qed.

(** X19. Undo takes back a zoom start: on a view whose chart exists
    and whose history [h] holds at most 20 snapshots, a zoom start followed
    by an undo reports success, hands the chart the ranges it had when the
    zoom started, and leaves the history [h] again, or [h] without its
    oldest snapshot when [h] was full. *)
Theorem undo_after_zoom_start
    (chartName : string) (chart : Chart) (st : ZoomCtl) :
  chart_named chartName st = Some chart ->
  let h := default [] (zoomHistory st !! chartName) in
  (length h <= 20)%nat ->
  let r := undoZoom chartName (onZoomStart chartName st) in
  fst r = true
  /\ zoomHistory (snd r) !! chartName
     = Some (if (length h <? 20)%nat then h else tail h)
  /\ chart_named chartName (snd r)
     = Some (update
               (zoomScale
                  (zoomScale chart axis_x (zoom_x (scales chart)))
                  axis_y (zoom_y (scales chart)))).
Proof.
  intros Hc h Hlen r. subst r.
  assert (Hpush : push_bounded h (scales chart)
                  = (if (length h <? 20)%nat then h else tail h)
                    ++ [scales chart]).
  { destruct (Nat.ltb_spec (length h) 20) as [Hlt|Hge].
    - apply push_bounded_appends. exact Hlt.
    - apply push_bounded_evicts. unfold capacity. lia. }
  unfold onZoomStart. rewrite Hc. unfold undoZoom.
  assert (Hc' : chart_named chartName (saveZoomState chartName chart st)
                = Some chart) by exact Hc.
  assert (Hh1 : zoomHistory (saveZoomState chartName chart st) !! chartName
                = Some ((if (length h <? 20)%nat then h else tail h)
                        ++ [scales chart])).
  { unfold saveZoomState. cbn [zoomHistory]. rewrite lookup_insert_eq.
    fold h. rewrite Hpush. reflexivity. }
  rewrite Hc', Hh1, pop_snoc.
  cbn [fst snd]. rewrite zoomHistory_set_chart. cbn [zoomHistory].
  rewrite lookup_insert_eq, chart_named_set_chart.
  repeat split; reflexivity.
Qed.

Lemma drop_push_bounded (h : list ZoomState) (s : ZoomState) :
  (length h <= 20)%nat ->
  push_bounded h s = drop (length (h ++ [s]) - 20) (h ++ [s]).
Proof.
  intros Hlen. destruct (Nat.ltb_spec (length h) 20) as [Hlt|Hge].
  - rewrite push_bounded_appends by exact Hlt.
    rewrite length_app. simpl.
    replace (length h + 1 - 20)%nat with 0%nat by lia. reflexivity.
  - rewrite push_bounded_evicts by (unfold capacity; lia).
    rewrite length_app. simpl.
    replace (length h + 1 - 20)%nat with 1%nat by lia.
    destruct h; [simpl in Hge; lia|reflexivity].
Qed.

Lemma save_all_history (chartName : string) (cs : list Chart) :
  forall st : ZoomCtl,
    let h := default [] (zoomHistory st !! chartName) in
    (length h <= 20)%nat -> cs <> [] ->
    zoomHistory (save_all chartName cs st) !! chartName
    = Some (drop (length (h ++ List.map scales cs) - 20)
              (h ++ List.map scales cs)).
Proof.
  induction cs as [|c cs IH]; intros st h Hlen Hne; [congruence|].
  cbn [save_all fold_left]. fold (save_all chartName cs
                                   (saveZoomState chartName c st)).
  assert (Hh1 : zoomHistory (saveZoomState chartName c st) !! chartName
                = Some (push_bounded h (scales c))).
  { unfold saveZoomState. cbn [zoomHistory]. apply lookup_insert_eq. }
  assert (Hl1 : (length (push_bounded h (scales c)) <= 20)%nat)
    by (apply push_bounded_length; exact Hlen).
  destruct cs as [|c' cs'].
  - cbn [save_all fold_left List.map]. rewrite Hh1.
    rewrite drop_push_bounded by exact Hlen. reflexivity.
  - specialize (IH (saveZoomState chartName c st)). cbv zeta in IH.
    rewrite Hh1 in IH. cbn [default from_option] in IH.
    rewrite IH; [|exact Hl1|discriminate].
    rewrite drop_push_bounded by exact Hlen.
    unfold id.
    set (l := List.map scales (c' :: cs')).
    change (List.map scales (c :: c' :: cs')) with (scales c :: l).
    replace (h ++ scales c :: l) with ((h ++ [scales c]) ++ l)
      by (rewrite <- app_assoc; reflexivity).
    set (a := h ++ [scales c]).
    assert (Hl : (1 <= length l)%nat) by (unfold l; simpl; lia).
    f_equal. rewrite !length_app, length_drop.
    destruct (Nat.le_gt_cases (length a) 20) as [Hle|Hgt].
    + replace (length a - 20)%nat with 0%nat by lia.
      rewrite drop_0, Nat.sub_0_r. reflexivity.
    + rewrite <- drop_app_le by lia.
      rewrite drop_drop. f_equal. lia.
Qed.

(** X20. A history keeps the last 20 snapshots: after any number of
    saves on a view whose history [h] held at most 20, the history is the
    last 20 entries of [h] followed by the saved snapshots, oldest first. *)
Theorem history_keeps_last_20
    (chartName : string) (cs : list Chart) (st : ZoomCtl) :
  let h := default [] (zoomHistory st !! chartName) in
  (length h <= 20)%nat -> cs <> [] ->
  let all := h ++ List.map scales cs in
  zoomHistory (save_all chartName cs st) !! chartName
  = Some (drop (length all - 20) all).
Proof.
  intros h Hlen Hne all. apply save_all_history; assumption.
Qed.

Lemma push_bounded_last (h : list ZoomState) (s : ZoomState) :
  exists h' : list ZoomState, push_bounded h s = h' ++ [s].
Proof.
  unfold push_bounded, push.
  destruct (Nat.ltb_spec capacity (length (h ++ [s]))) as [Hgt|Hle].
  - destruct h as [|x h].
    + simpl in Hgt. unfold capacity in Hgt. lia.
    + exists h. reflexivity.
  - exists h. reflexivity.
Qed.

(** X21. The modal's history outlives the modal: a snapshot saved by
    a zoom start in the modal is still there after the modal is closed and
    opened again, on whatever chart, so the first undo in the reopened modal
    hands the new chart the ranges of the old one; closing and opening leave
    every zoom history as it was, and while the modal is closed, undo
    reports failure and changes nothing. *)
Theorem modal_history_survives
    (m : ModalCtl) (old source fresh : Chart) (chartName : string) :
  modalChart (zoomCtl m) = Some old ->
  charts (zoomCtl m) !! chartName = Some source ->
  let saved := modal_zoom_start m in
  let closed := closeFullscreenModal saved in
  let reopened := openFullscreenModal chartName fresh closed in
  zoomHistory (zoomCtl closed) = zoomHistory (zoomCtl saved)
  /\ zoomHistory (zoomCtl reopened) = zoomHistory (zoomCtl saved)
  /\ modal_undo closed = (false, closed)
  /\ fst (modal_undo reopened) = true
  /\ modalChart (zoomCtl (snd (modal_undo reopened)))
     = Some (update
               (zoomScale
                  (zoomScale fresh axis_x (zoom_x (scales old)))
                  axis_y (zoom_y (scales old)))).
Proof.
  intros Hold Hsrc saved closed reopened.
  destruct (push_bounded_last
              (default [] (zoomHistory (zoomCtl m) !! "modal"%string))
              (scales old)) as [h' Hpush].
  assert (Hsaved : zoomCtl saved
                   = {| charts := charts (zoomCtl m);
                        modalChart := Some old;
                        zoomHistory :=
                          <["modal"%string := h' ++ [scales old]]>
                            (zoomHistory (zoomCtl m)) |}).
  { unfold saved, modal_zoom_start, onZoomStart. cbn [zoomCtl].
    change (chart_named "modal" (zoomCtl m)) with (modalChart (zoomCtl m)).
    rewrite Hold. unfold saveZoomState. rewrite Hpush, Hold. reflexivity. }
  assert (Hre : reopened
                = {| zoomCtl :=
                       {| charts := charts (zoomCtl m);
                          modalChart := Some fresh;
                          zoomHistory := zoomHistory (zoomCtl saved) |};
                     currentModalChartName := Some chartName;
                     modalActive := true |}).
  { unfold reopened, closed, openFullscreenModal, closeFullscreenModal.
    cbn [zoomCtl charts]. rewrite Hsaved. cbn [charts zoomHistory].
    rewrite Hsrc. reflexivity. }
  split; [reflexivity|]. split; [rewrite Hre; reflexivity|].
  split; [reflexivity|].
  rewrite Hre. unfold modal_undo, undoZoom.
  cbn [zoomCtl chart_named String.eqb Ascii.eqb Bool.eqb modalChart
       zoomHistory].
  rewrite Hsaved. cbn [zoomHistory].
  rewrite lookup_insert_eq, pop_snoc. cbn [fst snd zoomCtl].
  split; reflexivity.
Qed.

End ZoomMoreFacts.

(* ===================================================================== *)
(** ** Loading and the Analyze button *)
(* ===================================================================== *)

Section SessionFacts.
Context {host : Host}.




Lemma parse_rectangular (content : string) :
  exists n : nat, store_length (parseTrajectoryFile content) n.
Proof.
  set (rows := List.map (List.map parseFloat)
                 (List.filter (fun toks => (17 <=? length toks)%nat)
                    (List.map tokens (data_lines content)))).
  exists (length rows). intros ch Hin.
  apply In_nth with (d := []) in Hin. destruct Hin as (k & Hk & <-).
  assert (Hk17 : (k < 17)%nat) by exact Hk.
  unfold parseTrajectoryFile. rewrite parse_lines_rows. fold rows.
  rewrite channels_store_of_rows by exact Hk17.
  rewrite length_app, length_map.
  do 17 (destruct k as [|k]; [reflexivity|]). lia.
Qed.

(** X23. Every store a session holds is rectangular: if the stores
    held at the start have 17 channels of one length each, so have the
    stores held after any uploads and sample loads. *)
Theorem session_stores_rectangular
    (variants : gmap string string) (reference : string)
    (evs : list SessionEvent) (s : Session.t) :
  (forall d : Store,
     Session.refData s = Some d \/ Session.testData s = Some d ->
     exists n : nat, store_length d n) ->
  forall d : Store,
    let s' := session_run variants reference evs s in
    Session.refData s' = Some d \/ Session.testData s' = Some d ->
    exists n : nat, store_length d n.
Proof.
  revert s. induction evs as [|ev evs IH]; intros s Hs d; simpl.
  - apply Hs.
  - fold (session_run variants reference evs
            (session_step variants reference ev s)).
    apply IH. clear d IH. intros d.
    destruct ev as [[content|] type|variant]; simpl.
    + destruct (String.eqb type "reference"); simpl; intros [H|H];
        first [ injection H as <-; apply parse_rectangular
              | apply Hs; auto ].
    + apply Hs.
    + unfold load_sample. destruct (variants !! variant); [|apply Hs].
      simpl. intros [H|H]; injection H as <-; apply parse_rectangular.
Qed.

End SessionFacts.

(* ===================================================================== *)
(** ** Angle of attack *)
(* ===================================================================== *)

Section AngleOfAttackFacts.
Context {host : Host} {three : ThreeLib}.
Import FloatFacts FloatArith.
Local Open Scope float_scope.

Lemma computeAoA_map (data : Store) :
  computeAoA data
  = {| absolute :=
         List.map (fun i => abs_aoa_of (v_body_at data i) * 180 / Math.PI)
           (seq 0 (length (time data)));
       aoa_pitch :=
         List.map
           (fun i => Math.atan2 (THREE.z (v_body_at data i))
                       (THREE.x (v_body_at data i)) * 180 / Math.PI)
           (seq 0 (length (time data)));
       aoa_yaw :=
         List.map
           (fun i => Math.atan2 (THREE.y (v_body_at data i))
                       (THREE.x (v_body_at data i)) * 180 / Math.PI)
           (seq 0 (length (time data))) |}.
Proof.
  unfold computeAoA, for_upto.
  generalize (seq 0 (length (time data))) as l.
  assert (Hgen : forall l a b c,
    fold_left
      (fun acc i =>
         let v_body := v_body_at data i in
         let abs_aoa := abs_aoa_of v_body in
         let alpha := Math.atan2 (THREE.z v_body) (THREE.x v_body) in
         let beta := Math.atan2 (THREE.y v_body) (THREE.x v_body) in
         {| absolute := push (absolute acc) (abs_aoa * 180 / Math.PI);
            aoa_pitch := push (aoa_pitch acc) (alpha * 180 / Math.PI);
            aoa_yaw := push (aoa_yaw acc) (beta * 180 / Math.PI) |})
      l {| absolute := a; aoa_pitch := b; aoa_yaw := c |}
    = {| absolute :=
           a ++ List.map
                  (fun i => abs_aoa_of (v_body_at data i) * 180 / Math.PI) l;
         aoa_pitch :=
           b ++ List.map
                  (fun i => Math.atan2 (THREE.z (v_body_at data i))
                              (THREE.x (v_body_at data i)) * 180 / Math.PI) l;
         aoa_yaw :=
           c ++ List.map
                  (fun i => Math.atan2 (THREE.y (v_body_at data i))
                              (THREE.x (v_body_at data i)) * 180 / Math.PI)
                  l |}).
  { induction l as [|i l IH]; intros a b c; cbn [fold_left List.map].
    - rewrite !app_nil_r. reflexivity.
    - cbv zeta. cbn [absolute aoa_pitch aoa_yaw]. rewrite IH.
      unfold push. rewrite <- !app_assoc. reflexivity. }
  intros l. apply (Hgen l [] [] []).
Qed.

(** X24. [computeAoA] gives one triple of angles per sample: the
    three series are as long as the time channel, and entry [i] of each is
    computed from the body-frame velocity of sample [i] alone. *)
Theorem computeAoA_per_sample (data : Store) (i : nat) :
  (i < length (time data))%nat ->
  let aoa := computeAoA data in
  let v := v_body_at data i in
  length (absolute aoa) = length (time data)
  /\ length (aoa_pitch aoa) = length (time data)
  /\ length (aoa_yaw aoa) = length (time data)
  /\ absolute aoa !! i = Some (abs_aoa_of v * 180 / Math.PI)
  /\ aoa_pitch aoa !! i
     = Some (Math.atan2 (THREE.z v) (THREE.x v) * 180 / Math.PI)
  /\ aoa_yaw aoa !! i
     = Some (Math.atan2 (THREE.y v) (THREE.x v) * 180 / Math.PI).
Proof.
  intros Hi aoa v. subst aoa v. rewrite computeAoA_map.
  cbn [absolute aoa_pitch aoa_yaw].
  rewrite !length_map, !length_seq, !list_lookup_fmap.
  rewrite (lookup_seq_lt 0 _ i Hi). repeat split; reflexivity.
Qed.

Lemma clamp_unit (x : float) :
  is_nan x = false ->
  (-1 <=? Math.min 1 (Math.max (-1) x)) = true
  /\ (Math.min 1 (Math.max (-1) x) <=? 1) = true.
Proof.
  intros Hx.
  assert (Hm : is_nan (Math.max (-1) x) = false
               /\ (-1 <=? Math.max (-1) x) = true).
  { unfold Math.max. rewrite Hx.
    change (is_nan (-1)) with false. cbn [orb].
    destruct (-1 <? x) eqn:E1; [split; [exact Hx|apply ltb_leb, E1]|].
    destruct (x <? -1) eqn:E2; [split; reflexivity|].
    change (is_neg_zero (-1)) with false. cbv iota. split; reflexivity. }
  destruct Hm as [Hmn Hml]. set (m := Math.max (-1) x) in *.
  unfold Math.min. rewrite Hmn.
  change (is_nan 1) with false. cbn [orb].
  destruct (1 <? m) eqn:E1; [split; reflexivity|].
  destruct (m <? 1) eqn:E2; [split; [exact Hml|apply ltb_leb, E2]|].
  change (is_neg_zero 1) with false. cbv iota.
  split; [exact Hml|]. apply not_ltb_leb; [reflexivity|exact Hmn|exact E1].
Qed.

Lemma clamp_unit_nan : Math.min 1 (Math.max (-1) nan) = nan.
Proof. reflexivity. Qed.

(** X25. The guard and the clamp of the absolute angle of attack: a
    speed that is not above 0.001 ([NaN] included) gives exactly 0 degrees
    without calling [Math.acos]; otherwise [Math.acos] is called on a value
    between -1 and 1, or on [NaN] when the quotient is [NaN]. *)
Theorem absolute_aoa_guard (v : THREE.Vector3) :
  let speed := vector_length v in
  (gtb speed 0.001 = false ->
   abs_aoa_of v = 0 /\ abs_aoa_of v * 180 / Math.PI = 0)
  /\ (gtb speed 0.001 = true ->
      abs_aoa_of v = host_acos (acos_arg v)
      /\ (is_nan (THREE.x v / speed) = false ->
          (-1 <=? acos_arg v) = true /\ (acos_arg v <=? 1) = true)
      /\ (is_nan (THREE.x v / speed) = true -> acos_arg v = nan)).
Proof.
  intros speed. unfold abs_aoa_of. fold speed. split.
  - intros ->. split; reflexivity.
  - intros ->. split; [reflexivity|]. unfold acos_arg. fold speed. split.
    + apply clamp_unit.
    + intros Hn. rewrite (is_nan_true _ Hn). apply clamp_unit_nan.
Qed.

End AngleOfAttackFacts.

(* ===================================================================== *)
(** ** Camera gestures *)
(* ===================================================================== *)

Section GestureFacts.
Local Open Scope float_scope.

Lemma handle_without_drag (ev : ChaseEvent) (s : ChaseControls) :
  starts_drag ev = false ->
  isDragging (chaseCameraState s) = false ->
  let s' := handle ev s in
  isDragging (chaseCameraState s') = false
  /\ azimuth (chaseCameraState s') = azimuth (chaseCameraState s)
  /\ elevation (chaseCameraState s') = elevation (chaseCameraState s).
Proof.
  intros Hev Hd.
  destruct ev as [e|e| | |dy|ts|ts|ts| ]; cbn [handle starts_drag] in *;
    try discriminate;
    rewrite ?Hd; try (repeat split; first [exact Hd|reflexivity]).
  - destruct ts as [|t0 [|t1 [|t2 ts]]]; try discriminate;
      repeat split; first [exact Hd|reflexivity].
  - destruct ts as [|t0 [|t1 [|t2 ts]]]; rewrite ?Hd;
      try (repeat split; first [exact Hd|reflexivity]).
    destruct (gtb (touchStartDistance s) _);
      repeat split; first [exact Hd|reflexivity].
  - destruct ts as [|t0 [|t1 ts]]; try discriminate;
      repeat split; first [exact Hd|reflexivity].
Qed.

Lemma handle_without_zoom (ev : ChaseEvent) (s : ChaseControls) :
  zooms ev = false ->
  distance (chaseCameraState (handle ev s)) = distance (chaseCameraState s).
Proof.
  intros Hev.
  destruct ev as [e|e| | |dy|ts|ts|ts| ]; cbn [handle zooms] in *;
    try discriminate; try reflexivity.
  - destruct (isDragging (chaseCameraState s)); reflexivity.
  - destruct ts as [|t0 [|t1 [|t2 ts]]]; reflexivity.
  - destruct ts as [|t0 [|t1 [|t2 ts]]]; try discriminate; try reflexivity.
    destruct (isDragging (chaseCameraState s)); reflexivity.
  - destruct ts as [|t0 [|t1 ts]]; reflexivity.
Qed.

(** X26. Rotating and zooming are separate gestures: while no drag
    is started (no mouse button pressed, no single finger put down or left
    over), no event turns the chase camera; and events other than the wheel
    and the two-finger move leave its distance alone. *)
Theorem camera_gestures_separate
    (evs : list ChaseEvent) (s : ChaseControls) :
  let c := chaseCameraState s in
  let c' := chaseCameraState (run evs s) in
  (isDragging c = false -> existsb starts_drag evs = false ->
   azimuth c' = azimuth c /\ elevation c' = elevation c
   /\ isDragging c' = false)
  /\ (existsb zooms evs = false -> distance c' = distance c).
Proof.
  revert s. induction evs as [|ev evs IH]; intros s c c'; subst c c'.
  - split; [intros Hd _; auto|reflexivity].
  - cbn [run fold_left existsb]. fold (run evs (handle ev s)).
    destruct (IH (handle ev s)) as [IHr IHz]. split.
    + intros Hd Hex. apply orb_false_iff in Hex. destruct Hex as [He Hr].
      destruct (handle_without_drag ev s He Hd) as (Hd' & Ha & Hel).
      destruct (IHr Hd' Hr) as (H1 & H2 & H3).
      rewrite H1, H2, Ha, Hel. auto.
    + intros Hex. apply orb_false_iff in Hex. destruct Hex as [He Hr].
      rewrite (IHz Hr). apply handle_without_zoom, He.
Qed.

End GestureFacts.

(* ===================================================================== *)
(** ** Concrete instances *)
(* ===================================================================== *)

Lemma store_length_forallb (d : Store) (n : nat) :
  forallb (fun ch => (length ch =? n)%nat) (channels d) = true ->
  store_length d n.
Proof.
  intros H ch Hin. rewrite forallb_forall in H.
  apply Nat.eqb_eq, H, Hin.
Qed.

(** The second sample of a level flight, seen from its first. *)
Lemma convertToNED_per_sample_witness :
  let d := level_flight 3 100 in
  let ned := convertToNED (host := SampleHost.host)
               (lat d) (lon d) (alt d) 0 0 100 in
  north ned !! 1%nat = Some ((0 - 0) * R_EARTH)%float
  /\ east ned !! 1%nat
     = Some ((0 - 0) * R_EARTH * Math.cos (H := SampleHost.host) 0)%float
  /\ down ned !! 1%nat = Some (- (100 - 100))%float.
Proof.
  intros d ned.
  destruct (convertToNED_per_sample (host := SampleHost.host)
              (lat d) (lon d) (alt d) 0 0 100) as (_ & _ & _ & H).
  exact (H 1%nat 0%float 0%float 100%float
           ltac:(vm_compute; reflexivity) ltac:(vm_compute; reflexivity)
           ltac:(vm_compute; reflexivity)).
Defined.

Lemma test_track_origin_and_height_witness :
  let ned := test_track (host := SampleHost.host) (level_flight 3 100) in
  north ned !! 0%nat = Some 0%float /\ down ned !! 0%nat = Some (-0)%float.
Proof.
  intros ned.
  destruct (test_track_origin_and_height (host := SampleHost.host)
              (level_flight 3 100) 0 0 100
              ltac:(vm_compute; reflexivity) ltac:(vm_compute; reflexivity)
              ltac:(vm_compute; reflexivity) ltac:(vm_compute; reflexivity)
              ltac:(vm_compute; reflexivity)) as (H1 & H2 & _).
  split; assumption.
Defined.

(** A trajectory compared with itself. *)
Lemma computePositionError_same_store_witness :
  let d := level_flight 3 100 in
  let errors := computePositionError (host := SampleHost.host) d d in
  err_north errors !! 1%nat = Some 0%float
  /\ horizontal errors !! 1%nat = Some 0%float
  /\ error3d errors !! 1%nat = Some 0%float.
Proof.
  intros d errors.
  destruct (computePositionError_same_store (host := SampleHost.host) d
              1%nat 0%float 0%float 100%float
              ltac:(vm_compute; reflexivity) ltac:(vm_compute; reflexivity)
              ltac:(vm_compute; reflexivity) ltac:(vm_compute; reflexivity)
              ltac:(vm_compute; reflexivity) ltac:(vm_compute; reflexivity)
              ltac:(vm_compute; reflexivity))
    as (H1 & _ & _ & H4 & H5).
  repeat split; assumption.
Defined.

Lemma arrayStats_min_max_witness :
  let arr := [3; 1; 2]%float in
  In (min (arrayStats arr)) arr /\ In (max (arrayStats arr)) arr.
Proof.
  intros arr.
  destruct (proj1 (arrayStats_min_max arr)
              ltac:(discriminate) ltac:(vm_compute; reflexivity))
    as (H1 & H2 & _).
  split; assumption.
Defined.

(** The speed of the second sample of a passing level flight. *)
Lemma speed_check_every_sample_witness :
  let d := level_flight 3 100 in
  (Math.sqrt (sq (at_ (vn d) 1) + sq (at_ (ve d) 1) + sq (at_ (vd d) 1))
   <? 500)%float = true.
Proof.
  intros d.
  exact (proj1 (speed_check_every_sample (host := SampleHost.host) d)
           ltac:(vm_compute; reflexivity) 1%nat
           ltac:(vm_compute; lia)).
Defined.

(** One sample whose altitude did not parse. *)
Lemma nan_fails_verdict_witness :
  let d := store_of_rows
             [[0; 0; 0; nan; 10; 0; 0; 1; 0; 0; 0; 0; 0; 0; 0; 0; 0]%float] in
  passed (renderVerdict (host := SampleHost.host)
            (analyzeTrajectory (host := SampleHost.host) d))
  = false.
Proof.
  intros d.
  exact (proj2 (proj1 (nan_fails_verdict (host := SampleHost.host) d)
                  ltac:(vm_compute; left; reflexivity))).
Defined.

Lemma drift_of_closed_track_witness :
  let a := analyzeTrajectory (host := SampleHost.host) (level_flight 3 100) in
  drift_north (drift a) = 0%float /\ drift_total (drift a) = 0%float.
Proof.
  intros a.
  destruct (drift_of_closed_track (host := SampleHost.host)
              (level_flight 3 100) 0 0 100
              ltac:(vm_compute; lia)
              ltac:(vm_compute; reflexivity) ltac:(vm_compute; reflexivity)
              ltac:(vm_compute; reflexivity) ltac:(vm_compute; reflexivity)
              ltac:(vm_compute; reflexivity) ltac:(vm_compute; reflexivity)
              ltac:(vm_compute; reflexivity) ltac:(vm_compute; reflexivity)
              ltac:(vm_compute; reflexivity) ltac:(vm_compute; reflexivity))
    as (H1 & _ & _ & H4 & _).
  split; assumption.
Defined.

(** 1200 samples are drawn with step 2: point 3 is sample 6. *)
Lemma chart_downsampling_witness :
  let a := List.map of_nat (seq 0 1200) in
  let points := downsample (chart_step (length a)) a in
  points !! 3%nat = a !! (3 * chart_step (length a))%nat.
Proof.
  intros a points.
  destruct (chart_downsampling a) as (_ & _ & _ & _ & H).
  exact (proj1 (H 3%nat ltac:(vm_compute; lia))).
Defined.

Lemma chart_series_lengths_witness :
  let refData := level_flight 3 100 in
  let testData := level_flight 5 100 in
  let c := createErrorChart_data (host := SampleHost.host) refData testData in
  Forall (fun ds => length (ds_data ds) = length (labels c)) (datasets c).
Proof.
  intros refData testData c.
  exact (proj2 (proj1 (chart_series_lengths (host := SampleHost.host)
                         refData testData)
                  ltac:(vm_compute; reflexivity)
                  ltac:(vm_compute; reflexivity))).
Defined.

(** Five samples drawn with step 2 give three vertices. *)
Lemma line_points_vertices_witness :
  let ned := {| north := [0; 10; 20; 30; 40]%float;
                east := [0; 1; 2; 3; 4]%float;
                down := [-100; -100; -101; -101; -102]%float |} in
  length (line_points 2 ned)
  = (3 * ((length (east ned) + 2 - 1) / 2))%nat.
Proof.
  intros ned.
  exact (proj1 (proj2 (line_points_vertices ned 2 ltac:(lia)))).
Defined.

(** Play, a frame, a scrub, another log, an analysis. *)
Lemma pause_icon_tracks_playing_witness :
  let sc := scene_of (player_at (level_flight 12 100) false 0) in
  let evs := [ev_toggle 5; ev_frame 16 16; ev_slider 3 20;
              ev_load (level_flight 2 50); ev_reset true] in
  let sc' := scene_run (host := SampleHost.host) true evs sc in
  pauseIconShown (player sc') = isPlaying (playback (player sc')).
Proof.
  intros sc evs.
  apply (pause_icon_tracks_playing (host := SampleHost.host) true evs sc).
  - vm_compute. reflexivity.
  - intros d Hd. injection Hd as <-. vm_compute. lia.
  - reflexivity.
Defined.


(** Two frames from the start of twelve samples. *)
Lemma playback_after_frames_witness :
  let d := level_flight 12 100 in
  let sc := scene_of (player_at d true 0) in
  let evs := [ev_frame 16 16; ev_frame 33 33] in
  index (playback (player (scene_run (host := SampleHost.host) true evs sc)))
  = Z.min (Z.of_nat (length (time d)) - 1)
      (index (playback (player sc)) + 5 * Z.of_nat (length evs)).
Proof.
  intros d sc evs.
  exact (proj1 (playback_after_frames (host := SampleHost.host) true
                  d evs sc
                  ltac:(vm_compute; lia)
                  ltac:(vm_compute; reflexivity) ltac:(discriminate)
                  ltac:(reflexivity) ltac:(reflexivity))).
Defined.

(** A scrub to sample 7 while playing. *)
Lemma slider_scrub_witness :
  let d := level_flight 12 100 in
  let sc := scene_of (player_at d true 3) in
  let s' := player (scene_slider (host := SampleHost.host) true 7 40 sc) in
  index (playback s') = 7%Z /\ isPlaying (playback s') = false.
Proof.
  intros d sc s'.
  destruct (proj2 (slider_scrub (host := SampleHost.host) true 7 40 sc) d
              ltac:(reflexivity)) as (H1 & _ & _ & H4 & _).
  split; [exact H1|].
  apply H4; [vm_compute; lia|vm_compute; discriminate].
Defined.

(** A header-only log loaded after an analysis of three samples. *)
Lemma frames_on_empty_store_witness :
  let ned := test_track (host := SampleHost.host) (level_flight 3 100) in
  let sc := {| player := player_at empty_store true 0;
               testNED := Some ned; planePose := None |} in
  let evs := [ev_frame 16 16; ev_frame 33 33] in
  isPlaying
    (playback (player (scene_run (host := SampleHost.host) true evs sc)))
  = true.
Proof.
  intros ned sc evs.
  exact (proj1 (frames_on_empty_store (host := SampleHost.host) true
                  empty_store ned evs sc
                  ltac:(reflexivity) ltac:(reflexivity)
                  ltac:(reflexivity) ltac:(reflexivity)
                  ltac:(reflexivity) ltac:(reflexivity))).
Defined.

(** An index beyond the track is clamped and the pose is set. *)
Lemma updatePlanePosition_on_own_track_witness :
  let d := level_flight 3 100 in
  exists pose : PlanePose,
    updatePlanePosition (host := SampleHost.host)
      (Some (test_track (host := SampleHost.host) d)) d true 7 = done pose.
Proof.
  intros d.
  destruct (updatePlanePosition_on_own_track (host := SampleHost.host)
              d 3 7 ltac:(lia)
              (store_length_forallb d 3 ltac:(vm_compute; reflexivity)))
    as (_ & _ & _ & H).
  exact H.
Defined.

(** A track of five samples left over beside a store of three. *)
Lemma updatePlanePosition_stale_track_witness :
  let ned := test_track (host := SampleHost.host) (level_flight 5 100) in
  let d := level_flight 3 100 in
  exists pose : PlanePose,
    updatePlanePosition (host := SampleHost.host) (Some ned) d true 4
    = thrown pose
    /\ pose_index pose = 4%Z
    /\ pose_x pose = east ned !! Z.to_nat 4
    /\ pose_time pose = None.
Proof.
  intros ned d.
  assert (Hn : length (east ned) = 5%nat) by (vm_compute; reflexivity).
  assert (Hd : length (time d) = 3%nat) by (vm_compute; reflexivity).
  apply (proj2 (updatePlanePosition_stale_track (host := SampleHost.host)
                  ned d 4)).
  - rewrite Hn. lia.
  - rewrite Hd. lia.
Defined.

(** Work on the attitude and velocity charts leaves the error chart's
    history alone. *)
Lemma zoom_history_other_views_witness :
  let chart := sample_chart (sample_view 10 20 0 1) in
  let ops := [op_create (lib := SampleChart.lib) "attitude" chart;
              op_zoom_start "attitude"; op_undo "velocity";
              op_open_modal (lib := SampleChart.lib) chart] in
  let st := zoom_with (lib := SampleChart.lib) ∅ None in
  zoomHistory (zoom_run ops st) !! "error"%string
  = zoomHistory st !! "error"%string.
Proof.
  intros chart ops st.
  apply (zoom_history_other_views (lib := SampleChart.lib) ops st "error").
  repeat constructor; discriminate.
Defined.

Lemma undo_after_zoom_start_witness :
  let chart := sample_chart (sample_view 12 14 0 1) in
  let st := zoom_with (lib := SampleChart.lib)
              {[ "attitude"%string := chart ]} None in
  fst (undoZoom "attitude" (onZoomStart "attitude" st)) = true.
Proof.
  intros chart st.
  exact (proj1 (undo_after_zoom_start (lib := SampleChart.lib)
                  "attitude" chart st
                  ltac:(vm_compute; reflexivity) ltac:(vm_compute; lia))).
Defined.

(** Twenty-five saves on an empty history. *)
Lemma history_keeps_last_20_witness :
  let chart := sample_chart (sample_view 12 14 0 1) in
  let cs := repeat chart 25 in
  let st := zoom_with (lib := SampleChart.lib) ∅ None in
  let all := default [] (zoomHistory st !! "attitude"%string)
             ++ List.map (scales (ChartLib := SampleChart.lib)) cs in
  zoomHistory (save_all (lib := SampleChart.lib) "attitude" cs st)
    !! "attitude"%string
  = Some (drop (length all - 20) all).
Proof.
  intros chart cs st all.
  exact (history_keeps_last_20 (lib := SampleChart.lib) "attitude" cs st
           ltac:(vm_compute; lia) ltac:(discriminate)).
Defined.

(** A zoom in the modal, the modal closed and opened on another chart. *)
Lemma modal_history_survives_witness :
  let source := sample_chart (sample_view 12 14 0 1) in
  let old := sample_chart (sample_view 30 40 0 1) in
  let fresh := sample_chart (sample_view 0 100 (-1) 1) in
  let m :=
    @Build_ModalCtl SampleChart.lib
      (@Build_ZoomCtl SampleChart.lib
         {[ "attitude"%string := source ]} (Some old) initial_history)
      (Some "attitude"%string) true in
  fst (modal_undo (lib := SampleChart.lib)
         (openFullscreenModal (lib := SampleChart.lib) "attitude" fresh
            (closeFullscreenModal (modal_zoom_start m))))
  = true.
Proof.
  intros source old fresh m.
  destruct (modal_history_survives (lib := SampleChart.lib) m old source
              fresh "attitude"
              ltac:(vm_compute; reflexivity) ltac:(vm_compute; reflexivity))
    as (_ & _ & _ & H & _).
  exact H.
Defined.


Lemma session_stores_rectangular_witness :
  let content := "t lat lon
1 2 3 4 5 6 7 8 9 10 11 12 13 14 15 16 17
2 3"%string in
  exists n : nat,
    store_length (parseTrajectoryFile (host := SampleHost.host) content) n.
Proof.
  intros content.
  refine (session_stores_rectangular (host := SampleHost.host)
            ∅ "t lat lon" [ev_upload (Some content) "test"] empty_session
            _ _ _).
  - intros d [H|H]; discriminate.
  - right. reflexivity.
Defined.

Lemma computeAoA_per_sample_witness :
  let d := level_flight 3 100 in
  let aoa := computeAoA (host := SampleHost.host)
               (three := SampleThree.lib) d in
  length (absolute aoa) = length (time d)
  /\ length (aoa_pitch aoa) = length (time d)
  /\ length (aoa_yaw aoa) = length (time d).
Proof.
  intros d aoa.
  destruct (computeAoA_per_sample (host := SampleHost.host)
              (three := SampleThree.lib) d 1 ltac:(vm_compute; lia))
    as (H1 & H2 & H3 & _).
  repeat split; assumption.
Defined.

(** Ten metres per second along the body axis. *)
Lemma absolute_aoa_guard_witness :
  let v := {| THREE.x := 10; THREE.y := 0; THREE.z := 0 |} in
  abs_aoa_of (three := SampleThree.lib) v
  = host_acos (ThreeLib := SampleThree.lib)
      (acos_arg (three := SampleThree.lib) v).
Proof.
  intros v.
  exact (proj1 (proj2 (absolute_aoa_guard (three := SampleThree.lib) v)
                  ltac:(vm_compute; reflexivity))).
Defined.

(** Moves without a pressed button, and a wheel scroll. *)
Lemma camera_gestures_separate_witness :
  let evs := [mousemove {| clientX := 40; clientY := 90 |}; wheel 3; mouseup;
              touchmove [{| clientX := 5; clientY := 5 |}]] in
  let c := chaseCameraState initial_chase in
  let c' := chaseCameraState (run evs initial_chase) in
  azimuth c' = azimuth c /\ elevation c' = elevation c
  /\ isDragging c' = false.
Proof.
  intros evs c c'.
  exact (proj1 (camera_gestures_separate evs initial_chase)
           ltac:(reflexivity) ltac:(reflexivity)).
Defined.
